(** * LOVR graphics core: buffers, state cache, shaders, meshes, textures

    A shallow embedding of the GPU resource and state management code of
    LOVR and the proofs of its specified properties.

    Two generations of the graphics module are covered:
    - the OpenGL backend (state cache, textures, canvases, shaders, shader
      blocks, meshes): modules [StateCache], [Shaders], [ShaderBlocks],
      [Meshes], [TextureGL];
    - the newer graphics module written against the [gpu] abstraction
      (buffers with a synchronization tracker, textures and texture
      views): modules [Sync], [TextureGpu], [TextureViews].

    Conventions: C integers are [Z] (wrap-around written where the code
    can reach it), bit masks are [Z] with [Z.land]/[Z.lor]/[Z.testbit],
    pointers to heap objects are indices into a store, calls into the
    graphics API are recorded in a trace, oldest first. *)

From Stdlib Require Import ZArith List Lia Bool PrimFloat.
From stdpp Require Import gmap strings list fin_maps.
From stdpp Require Import pretty.

(** * Bit-level helpers shared by the masks of the tracker *)

Module Bits.
Local Open Scope Z_scope.

(** [1 << i] *)
Definition bit (i : nat) : Z := Z.shiftl 1 (Z.of_nat i).

Lemma bit_pow2 i : bit i = 2 ^ Z.of_nat i.
Proof. unfold bit. rewrite Z.shiftl_1_l. reflexivity. Qed.

Lemma bit_pos i : 0 < bit i.
Proof. rewrite bit_pow2. apply Z.pow_pos_nonneg; lia. Qed.

Lemma testbit_bit i k : 0 <= k -> Z.testbit (bit i) k = (Z.of_nat i =? k).
Proof. intros Hk. rewrite bit_pow2. apply Z.pow2_bits_eqb. lia. Qed.

Lemma land_bit a i :
  Z.land a (bit i) = if Z.testbit a (Z.of_nat i) then bit i else 0.
Proof.
  apply Z.bits_inj'. intros k Hk.
  rewrite Z.land_spec, testbit_bit by lia.
  destruct (Z.eqb_spec (Z.of_nat i) k) as [<-|Hne].
  - destruct (Z.testbit a (Z.of_nat i)); simpl.
    + rewrite testbit_bit by lia. symmetry. apply Z.eqb_refl.
    + symmetry. apply Z.bits_0.
  - rewrite andb_false_r.
    destruct (Z.testbit a (Z.of_nat i)).
    + rewrite testbit_bit by lia. symmetry. apply Z.eqb_neq. lia.
    + symmetry. apply Z.bits_0.
Qed.

Lemma land_bit_eq0 a i :
  (Z.land a (bit i) =? 0) = negb (Z.testbit a (Z.of_nat i)).
Proof.
  rewrite land_bit. destruct (Z.testbit a (Z.of_nat i)); simpl.
  - apply Z.eqb_neq. pose proof (bit_pos i). lia.
  - reflexivity.
Qed.

Lemma testbit_clear a i k :
  0 <= k ->
  Z.testbit (Z.land a (Z.lnot (bit i))) k =
  Z.testbit a k && negb (Z.of_nat i =? k).
Proof.
  intros Hk. rewrite Z.land_spec, Z.lnot_spec, testbit_bit by lia. reflexivity.
Qed.

Lemma clear_unset_bit a i :
  Z.testbit a (Z.of_nat i) = false -> Z.land a (Z.lnot (bit i)) = a.
Proof.
  intros Hbit. apply Z.bits_inj'. intros k Hk.
  rewrite testbit_clear by lia.
  destruct (Z.eqb_spec (Z.of_nat i) k) as [<-|Hne]; simpl.
  - rewrite Hbit. reflexivity.
  - apply andb_true_r.
Qed.

Lemma lor_bit_nonzero a i : Z.lor a (bit i) <> 0.
Proof.
  intros H. apply Z.lor_eq_0_iff in H as [_ H].
  pose proof (bit_pos i). lia.
Qed.

End Bits.

(** * The synchronization tracker of the gpu-based graphics module

    [struct Buffer], [state.sync] and [lovrBufferMap]. The header
    [core/gpu.h] that numbers the access categories is not part of the
    sources, so the enumerators are parameters of the section. *)

Module Sync.
Import Bits.
Local Open Scope Z_scope.

(** [struct Buffer]: the descriptor and the pending-access mask. The
    hardware handle is identified with the buffer's index in the store. *)
Record Buffer := mkBuffer { info_size : Z; info_usage : Z; access : Z }.

Definition set_access (f : Z -> Z) (b : Buffer) : Buffer :=
  mkBuffer (info_size b) (info_usage b) (f (access b)).

(** Calls into the gpu layer. *)
Inductive gpu_call :=
| gpu_sync (before after : Z)
| gpu_buffer_map (buffer : nat) (offset size : Z).

(** The buffers allocated so far, the tracking lists [state.sync] (one
    list of pointers to [access] fields per access category; a pointer is
    the index of its buffer) and the gpu calls issued. *)
Record State := mkState {
  buffers : list Buffer;
  sync : list (list nat);
  gpu_calls : list gpu_call
}.

Definition is_sync (c : gpu_call) : bool :=
  match c with gpu_sync _ _ => true | _ => false end.

(** Number of barriers in a trace. *)
Definition barrier_count (cs : list gpu_call) : nat :=
  length (filter (fun c => is_sync c = true) cs).

(** ** A concrete tracker, for the examples

    Thirteen access categories with the four write categories last (the
    numbering is illustrative: the header is not part of the sources).
    Buffer 0 was uploaded to and is mapped again; buffer 1 has a pending
    upload as well, buffer 2 a pending read in category 2. *)
Definition example_count : nat := 13.
Definition example_color : nat := 9.
Definition example_depth : nat := 10.
Definition example_compute : nat := 11.
Definition example_upload : nat := 12.

Definition example_state : State :=
  mkState [mkBuffer 64 1 (bit 12); mkBuffer 32 1 (bit 12); mkBuffer 16 4 (bit 2)]
          [[]; []; [2%nat]; []; []; []; []; []; []; []; []; []; [0%nat; 1%nat]]
          [].

Section Tracker.

Variable GPU_ACCESS_COUNT : nat.
Variable GPU_WRITE_COLOR_TARGET : nat.
Variable GPU_WRITE_DEPTH_TARGET : nat.
Variable GPU_WRITE_COMPUTE_SHADER_STORAGE : nat.
Variable GPU_WRITE_UPLOAD : nat.

(** The access categories that write, as a mask. *)
Definition write_categories : Z :=
  Z.lor (Z.lor (Z.lor (bit GPU_WRITE_COLOR_TARGET) (bit GPU_WRITE_DEPTH_TARGET))
               (bit GPU_WRITE_COMPUTE_SHADER_STORAGE))
        (bit GPU_WRITE_UPLOAD).

(** [x & WRITE_MASK] as the compiler reads it. [WRITE_MASK] is defined
    without parentheses around its body, and [&] binds tighter than [|],
    so the expression is [(x & (1 << COLOR)) | (1 << DEPTH) | ...]. *)
Definition and_WRITE_MASK (x : Z) : Z :=
  Z.lor (Z.lor (Z.lor (Z.land x (bit GPU_WRITE_COLOR_TARGET))
                      (bit GPU_WRITE_DEPTH_TARGET))
               (bit GPU_WRITE_COMPUTE_SHADER_STORAGE))
        (bit GPU_WRITE_UPLOAD).

(** The condition of the [if] in [lovrBufferMap]. *)
Definition barrier_needed (before after : Z) : bool :=
  negb (before =? 0)
  && (negb (and_WRITE_MASK before =? 0) || negb (and_WRITE_MASK after =? 0)).

(** [*p &= ~(1 << i)]. On an unsigned 32-bit [access] this is the
    conjunction with the complement of bit [i]. *)
Definition clear_access_bit (i : nat) (b : Buffer) : Buffer :=
  set_access (fun a => Z.land a (Z.lnot (bit i))) b.

(** The inner loop: every pointer of [state.sync[i]] gets bit [i]
    cleared. The same buffer may be listed more than once. *)
Definition clear_tracked (i : nat) (ptrs : list nat) (bufs : list Buffer)
  : list Buffer :=
  foldl (fun h p => alter (clear_access_bit i) p h) bufs ptrs.

(** One iteration of the outer loop, for category [i]. *)
Definition barrier_step (before : Z) (hs : list Buffer * list (list nat))
  (i : nat) : list Buffer * list (list nat) :=
  if negb (Z.land before (bit i) =? 0)
  then (clear_tracked i (default [] (hs.2 !! i)) hs.1, <[i := []]> hs.2)
  else hs.

(** The outer loop over the [GPU_ACCESS_COUNT] categories. *)
Definition clear_pending (before : Z) (bufs : list Buffer)
  (lists : list (list nat)) : list Buffer * list (list nat) :=
  foldl (barrier_step before) (bufs, lists) (seq 0 GPU_ACCESS_COUNT).

(** The outer loop run over the first [n] categories. *)
Definition clear_upto (before : Z) (bufs : list Buffer) (lists : list (list nat))
  (n : nat) : list Buffer * list (list nat) :=
  foldl (barrier_step before) (bufs, lists) (seq 0 n).

(** The body of the [if]: the loops, then [gpu_sync(before, after)]. *)
Definition issue_barrier (before after : Z) (st : State) : State :=
  let hs := clear_pending before (buffers st) (sync st) in
  mkState hs.1 hs.2 (gpu_calls st ++ [gpu_sync before after]).

(** [buffer->access |= after; arr_push(&state.sync[GPU_WRITE_UPLOAD], &buffer->access)] *)
Definition record_access (b : nat) (after : Z) (st : State) : State :=
  mkState (alter (set_access (fun a => Z.lor a after)) b (buffers st))
          (alter (fun l => l ++ [b]) GPU_WRITE_UPLOAD (sync st))
          (gpu_calls st).

(** [lovrBufferMap(buffer, offset, size)]. The pointer the gpu layer
    returns is not modelled; the call is recorded. A [buffer] that is not
    in the store is a dangling pointer, which C leaves undefined: the
    model does nothing. *)
Definition lovrBufferMap (b : nat) (offset size : Z) (st : State) : State :=
  match buffers st !! b with
  | None => st
  | Some buf =>
    let before := access buf in
    let after := bit GPU_WRITE_UPLOAD in
    let st1 := if barrier_needed before after
               then issue_barrier before after st else st in
    let st2 := record_access b after st1 in
    mkState (buffers st2) (sync st2)
            (gpu_calls st2 ++ [gpu_buffer_map b offset size])
  end.

(** [lovrBufferCreate(info)]: a zeroed [struct Buffer] with its
    descriptor (the gpu buffer is taken to be created). *)
Definition lovrBufferCreate (size usage : Z) (st : State) : State * nat :=
  (mkState (buffers st ++ [mkBuffer size usage 0]) (sync st) (gpu_calls st),
   length (buffers st)).

(** Every pending bit of every buffer is listed: the buffer is in the
    tracking list of the bit's category. *)
Definition tracked (st : State) : Prop :=
  forall r buf i,
    buffers st !! r = Some buf ->
    Z.testbit (access buf) (Z.of_nat i) = true ->
    exists l, sync st !! i = Some l /\ r ∈ l.

(** ** Facts about the barrier condition *)

(** Because of the way [WRITE_MASK] expands, both disjuncts of the
    condition are always true: a barrier is issued exactly when some
    access is pending. *)
Lemma and_WRITE_MASK_nonzero x : and_WRITE_MASK x <> 0.
Proof. unfold and_WRITE_MASK. apply lor_bit_nonzero. Qed.

Lemma barrier_needed_pending before after :
  barrier_needed before after = negb (before =? 0).
Proof.
  unfold barrier_needed.
  destruct (Z.eqb_spec (and_WRITE_MASK before) 0) as [H|_].
  - destruct (and_WRITE_MASK_nonzero _ H).
  - simpl. apply andb_true_r.
Qed.

(** The access a map records is a write category. *)
Lemma upload_is_write : Z.land (bit GPU_WRITE_UPLOAD) write_categories <> 0.
Proof.
  intros H.
  assert (Hb : Z.testbit (Z.land (bit GPU_WRITE_UPLOAD) write_categories)
                 (Z.of_nat GPU_WRITE_UPLOAD) = true).
  { unfold write_categories.
    rewrite Z.land_spec, Z.lor_spec, !testbit_bit by lia.
    rewrite Z.eqb_refl. simpl. apply orb_true_r. }
  rewrite H, Z.bits_0 in Hb. discriminate.
Qed.

(** ** The loops of the barrier *)

Lemma clear_access_bit_idem i buf :
  clear_access_bit i (clear_access_bit i buf) = clear_access_bit i buf.
Proof.
  unfold clear_access_bit, set_access. simpl.
  rewrite <- Z.land_assoc, Z.land_diag. reflexivity.
Qed.

Lemma clear_access_bit_unset i buf :
  Z.testbit (access buf) (Z.of_nat i) = false -> clear_access_bit i buf = buf.
Proof.
  intros H. destruct buf as [sz us a]. unfold clear_access_bit, set_access.
  simpl in *. rewrite clear_unset_bit by assumption. reflexivity.
Qed.

Lemma clear_access_bit_testbit i buf k :
  0 <= k ->
  Z.testbit (access (clear_access_bit i buf)) k =
  Z.testbit (access buf) k && negb (Z.of_nat i =? k).
Proof. intros Hk. simpl. apply testbit_clear. assumption. Qed.

(** What the inner loop does to the buffer at [r]. *)
Lemma clear_tracked_lookup i ptrs bufs r :
  clear_tracked i ptrs bufs !! r =
  (if bool_decide (r ∈ ptrs) then clear_access_bit i else id) <$> bufs !! r.
Proof.
  unfold clear_tracked. revert bufs.
  induction ptrs as [|p ptrs IH]; intros bufs; cbn [foldl].
  - rewrite bool_decide_eq_false_2 by apply not_elem_of_nil.
    destruct (bufs !! r); reflexivity.
  - rewrite IH. destruct (decide (r = p)) as [->|Hne].
    + rewrite list_lookup_alter_eq.
      rewrite (bool_decide_eq_true_2 (p ∈ p :: ptrs)) by (apply elem_of_cons; left; reflexivity).
      destruct (bufs !! p) as [buf|]; simpl; [|reflexivity].
      destruct (bool_decide (p ∈ ptrs)); simpl;
        [rewrite clear_access_bit_idem|]; reflexivity.
    + rewrite list_lookup_alter_ne by congruence.
      assert (Hiff : bool_decide (r ∈ p :: ptrs) = bool_decide (r ∈ ptrs)).
      { apply bool_decide_ext. rewrite elem_of_cons. tauto. }
      rewrite Hiff. reflexivity.
Qed.

Lemma list_lookup_insert_fmap {A} (l : list A) i j x :
  <[i := x]> l !! j = (if bool_decide (i = j) then fun _ => x else id) <$> l !! j.
Proof.
  destruct (decide (i = j)) as [->|Hne].
  - rewrite bool_decide_eq_true_2 by reflexivity.
    destruct (l !! j) as [y|] eqn:Hl; simpl.
    + apply list_lookup_insert_eq. eapply lookup_lt_Some; eassumption.
    + rewrite list_insert_ge by (apply lookup_ge_None; assumption).
      assumption.
  - rewrite bool_decide_eq_false_2 by assumption.
    rewrite list_lookup_insert_ne by assumption.
    destruct (l !! j); reflexivity.
Qed.

Lemma clear_upto_S before bufs lists n :
  clear_upto before bufs lists (S n) =
  barrier_step before (clear_upto before bufs lists n) n.
Proof. unfold clear_upto. rewrite seq_S, foldl_app. reflexivity. Qed.

Lemma barrier_step_test before hs i :
  barrier_step before hs i =
  if Z.testbit before (Z.of_nat i)
  then (clear_tracked i (default [] (hs.2 !! i)) hs.1, <[i := []]> hs.2)
  else hs.
Proof. unfold barrier_step. rewrite land_bit_eq0, negb_involutive. reflexivity. Qed.

(** The tracking lists after [n] iterations: emptied for the pending
    categories below [n], untouched elsewhere. *)
Lemma clear_upto_lists before bufs lists n i :
  (clear_upto before bufs lists n).2 !! i =
  (if bool_decide (i < n)%nat && Z.testbit before (Z.of_nat i)
   then fun _ => [] else id) <$> lists !! i.
Proof.
  induction n as [|n IH].
  - simpl. destruct (lists !! i); reflexivity.
  - rewrite clear_upto_S, barrier_step_test.
    destruct (Z.testbit before (Z.of_nat n)) eqn:Hn; simpl.
    + rewrite list_lookup_insert_fmap, IH.
      destruct (decide (n = i)) as [->|Hne].
      * rewrite bool_decide_eq_true_2 by reflexivity.
        rewrite (bool_decide_eq_true_2 (i < S i)%nat) by lia.
        rewrite Hn. destruct (lists !! i); reflexivity.
      * rewrite (bool_decide_eq_false_2 (n = i)) by assumption.
        assert (Hiff : bool_decide (i < S n)%nat = bool_decide (i < n)%nat).
        { apply bool_decide_ext. lia. }
        rewrite Hiff. destruct (lists !! i); reflexivity.
    + rewrite IH. destruct (decide (n = i)) as [->|Hne].
      * rewrite Hn, !andb_false_r. reflexivity.
      * assert (Hiff : bool_decide (i < S n)%nat = bool_decide (i < n)%nat).
        { apply bool_decide_ext. lia. }
        rewrite Hiff. reflexivity.
Qed.

(** The loops only ever clear bits. *)
Lemma clear_upto_mono before bufs lists n r buf' :
  (clear_upto before bufs lists n).1 !! r = Some buf' ->
  exists buf, bufs !! r = Some buf /\
    forall k, 0 <= k -> Z.testbit (access buf') k = true ->
              Z.testbit (access buf) k = true.
Proof.
  revert buf'. induction n as [|n IH]; intros buf' H.
  - simpl in H. eauto.
  - rewrite clear_upto_S, barrier_step_test in H.
    destruct (Z.testbit before (Z.of_nat n)); [|auto].
    simpl in H. rewrite clear_tracked_lookup in H.
    destruct ((clear_upto before bufs lists n).1 !! r) as [mid|] eqn:Hmid;
      [|discriminate].
    destruct (IH mid eq_refl) as (buf & Hbuf & Hmono).
    exists buf. split; [assumption|]. intros k Hk Hbit. apply Hmono; [assumption|].
    simpl in H. injection H as <-.
    destruct (bool_decide _); [|assumption].
    rewrite clear_access_bit_testbit in Hbit by assumption.
    apply andb_true_iff in Hbit. tauto.
Qed.

(** After [n] iterations, bit [i] is clear in every buffer that was
    listed under a pending category [i < n]. *)
Lemma clear_upto_cleared before bufs lists n i tracked r buf' :
  (i < n)%nat ->
  Z.testbit before (Z.of_nat i) = true ->
  lists !! i = Some tracked -> r ∈ tracked ->
  (clear_upto before bufs lists n).1 !! r = Some buf' ->
  Z.testbit (access buf') (Z.of_nat i) = false.
Proof.
  intros Hi Hbit Hl Hr. revert buf' Hi.
  induction n as [|n IH]; intros buf' Hi H; [lia|].
  rewrite clear_upto_S, barrier_step_test in H.
  destruct (decide (i = n)) as [->|Hne].
  - rewrite Hbit in H. simpl in H.
    rewrite clear_tracked_lookup, clear_upto_lists in H.
    rewrite Hl in H. simpl in H.
    rewrite (bool_decide_eq_false_2 (n < n)%nat) in H by lia. simpl in H.
    rewrite bool_decide_eq_true_2 in H by assumption.
    destruct ((clear_upto before bufs lists n).1 !! r) as [mid|]; [|discriminate].
    injection H as <-.
    rewrite clear_access_bit_testbit by lia.
    rewrite Z.eqb_refl. apply andb_false_r.
  - assert (Hlt : (i < n)%nat) by lia.
    destruct (Z.testbit before (Z.of_nat n)); [|auto].
    simpl in H. rewrite clear_tracked_lookup in H.
    destruct ((clear_upto before bufs lists n).1 !! r) as [mid|] eqn:Hmid;
      [|discriminate].
    specialize (IH mid Hlt eq_refl).
    simpl in H. injection H as <-.
    destruct (bool_decide _); [|assumption].
    rewrite clear_access_bit_testbit by lia.
    rewrite IH. reflexivity.
Qed.

(** A buffer that shares no bit with [before] is left as it was. *)
Lemma clear_upto_frame before bufs lists n r :
  (forall buf, bufs !! r = Some buf -> Z.land (access buf) before = 0) ->
  (clear_upto before bufs lists n).1 !! r = bufs !! r.
Proof.
  intros Hdisj. induction n as [|n IH]; [reflexivity|].
  rewrite clear_upto_S, barrier_step_test.
  destruct (Z.testbit before (Z.of_nat n)) eqn:Hn; [|assumption].
  simpl. rewrite clear_tracked_lookup, IH.
  destruct (bufs !! r) as [buf|] eqn:Hbuf; [|reflexivity].
  simpl. destruct (bool_decide _); [|reflexivity].
  rewrite clear_access_bit_unset; [reflexivity|].
  specialize (Hdisj buf eq_refl).
  assert (Hb : Z.testbit (Z.land (access buf) before) (Z.of_nat n) = false)
    by (rewrite Hdisj; apply Z.bits_0).
  rewrite Z.land_spec, Hn, andb_true_r in Hb. assumption.
Qed.

Lemma clear_pending_upto before bufs lists :
  clear_pending before bufs lists = clear_upto before bufs lists GPU_ACCESS_COUNT.
Proof. reflexivity. Qed.

Lemma barrier_count_app cs ds :
  barrier_count (cs ++ ds) = (barrier_count cs + barrier_count ds)%nat.
Proof. unfold barrier_count. rewrite filter_app, length_app. reflexivity. Qed.

(** ** Pending bits are tracked *)

Lemma clear_upto_length before bufs lists n :
  length (clear_upto before bufs lists n).2 = length lists.
Proof.
  induction n as [|n IH]; [reflexivity|].
  rewrite clear_upto_S, barrier_step_test.
  destruct (Z.testbit before (Z.of_nat n)); [|assumption].
  simpl. rewrite length_insert. assumption.
Qed.

Lemma issue_barrier_tracked before after st :
  tracked st -> tracked (issue_barrier before after st).
Proof.
  intros Htr r buf1 i Hr Hbit. unfold issue_barrier in *. simpl in *.
  rewrite clear_pending_upto in *.
  destruct (clear_upto_mono _ _ _ _ _ _ Hr) as (buf0 & Hr0 & Hmono).
  destruct (Htr r buf0 i Hr0 (Hmono _ (Nat2Z.is_nonneg i) Hbit)) as (l & Hl & Hin).
  exists l. split; [|assumption].
  rewrite clear_upto_lists, Hl.
  destruct (bool_decide (i < GPU_ACCESS_COUNT)%nat && Z.testbit before (Z.of_nat i))
    eqn:G; [|reflexivity].
  apply andb_true_iff in G as [Hi Hb]. apply bool_decide_eq_true_1 in Hi.
  rewrite (clear_upto_cleared _ _ _ _ _ _ _ _ Hi Hb Hl Hin Hr) in Hbit.
  discriminate.
Qed.

Lemma record_access_tracked b st :
  (GPU_WRITE_UPLOAD < length (sync st))%nat ->
  tracked st -> tracked (record_access b (bit GPU_WRITE_UPLOAD) st).
Proof.
  intros Hup Htr r buf' i Hr Hbit. unfold record_access in *. simpl in *.
  assert (Hlists : forall j l, sync st !! j = Some l -> r ∈ l ->
            exists l', alter (fun l => l ++ [b]) GPU_WRITE_UPLOAD (sync st) !! j = Some l'
                       /\ r ∈ l').
  { intros j l Hl Hin. destruct (decide (GPU_WRITE_UPLOAD = j)) as [<-|Hne].
    - exists (l ++ [b]). rewrite list_lookup_alter_eq, Hl. split; [reflexivity|].
      apply elem_of_app. left. assumption.
    - exists l. rewrite list_lookup_alter_ne by assumption. auto. }
  destruct (decide (r = b)) as [->|Hne].
  - rewrite list_lookup_alter_eq in Hr.
    destruct (buffers st !! b) as [buf|] eqn:Hb; [|discriminate].
    injection Hr as <-. simpl in Hbit.
    rewrite Z.lor_spec, testbit_bit in Hbit by lia.
    apply orb_true_iff in Hbit as [Hbit|Hbit].
    + destruct (Htr b buf i Hb Hbit) as (l & Hl & Hin). eapply Hlists; eassumption.
    + apply Z.eqb_eq, Nat2Z.inj in Hbit. subst i.
      destruct (sync st !! GPU_WRITE_UPLOAD) as [l|] eqn:Hl.
      * exists (l ++ [b]). rewrite list_lookup_alter_eq, Hl. split; [reflexivity|].
        apply elem_of_app. right. apply elem_of_cons. left. reflexivity.
      * apply lookup_ge_None in Hl. lia.
  - rewrite list_lookup_alter_ne in Hr by congruence.
    destruct (Htr r buf' i Hr Hbit) as (l & Hl & Hin). eapply Hlists; eassumption.
Qed.

Lemma tracked_calls st cs :
  tracked st -> tracked (mkState (buffers st) (sync st) cs).
Proof. intros Htr r buf i Hr Hbit. exact (Htr r buf i Hr Hbit). Qed.

(** A map keeps every pending bit tracked. *)
Lemma lovrBufferMap_tracked b offset size st :
  (GPU_WRITE_UPLOAD < length (sync st))%nat ->
  tracked st -> tracked (lovrBufferMap b offset size st).
Proof.
  intros Hup Htr. unfold lovrBufferMap.
  destruct (buffers st !! b) as [buf|]; [|assumption].
  cbv zeta. apply tracked_calls.
  destruct (barrier_needed (access buf) (bit GPU_WRITE_UPLOAD)).
  - apply record_access_tracked; [|apply issue_barrier_tracked; assumption].
    unfold issue_barrier. simpl. rewrite clear_pending_upto, clear_upto_length.
    assumption.
  - apply record_access_tracked; assumption.
Qed.

(** So does the creation of a buffer, and it holds when the window is
    created: the lists are empty and no buffer exists. *)
Lemma lovrBufferCreate_tracked size usage st :
  tracked st -> tracked (lovrBufferCreate size usage st).1.
Proof.
  intros Htr r buf i Hr Hbit. unfold lovrBufferCreate in *. simpl in *.
  destruct (decide (r < length (buffers st))%nat) as [Hlt|Hge].
  - rewrite lookup_app_l in Hr by assumption. eapply Htr; eassumption.
  - rewrite lookup_app_r in Hr by lia.
    destruct (r - length (buffers st))%nat; simpl in Hr; [|discriminate].
    injection Hr as <-. simpl in Hbit. rewrite Z.bits_0 in Hbit. discriminate.
Qed.

Lemma tracked_initially : tracked (mkState [] (replicate GPU_ACCESS_COUNT []) []).
Proof. intros r buf i Hr. discriminate. Qed.

(** The calls a map issues. *)
Lemma lovrBufferMap_calls b offset size st buf :
  buffers st !! b = Some buf ->
  gpu_calls (lovrBufferMap b offset size st) =
    gpu_calls st
    ++ (if access buf =? 0 then [] else [gpu_sync (access buf) (bit GPU_WRITE_UPLOAD)])
    ++ [gpu_buffer_map b offset size].
Proof.
  intros Hb. unfold lovrBufferMap. rewrite Hb, barrier_needed_pending.
  destruct (access buf =? 0); simpl.
  - reflexivity.
  - rewrite <- app_assoc. reflexivity.
Qed.

Lemma barrier_count_map b offset size :
  barrier_count [gpu_buffer_map b offset size] = 0%nat.
Proof. reflexivity. Qed.

Lemma barrier_count_sync_map before after b offset size :
  barrier_count [gpu_sync before after; gpu_buffer_map b offset size] = 1%nat.
Proof. reflexivity. Qed.

(** ** The barrier count of a map (claim C1) *)

(** C1. A map of a buffer with no pending access issues no barrier; a map
    of a buffer with pending access [B] issues exactly one [gpu_sync],
    placed before the mapping itself, whenever [B] or the access the map
    records (the upload write) contains a write category; and no barrier
    is issued when neither contains one. The access a map records is
    always the upload write ([upload_is_write]), so for a map the last
    case does not arise and the count is decided by [B] alone. *)
Theorem lovrBufferMap_barrier (b : nat) (offset size : Z) (st : State) (buf : Buffer) :
  buffers st !! b = Some buf ->
  let before := access buf in
  let after := bit GPU_WRITE_UPLOAD in
  let st' := lovrBufferMap b offset size st in
  gpu_calls st' =
    gpu_calls st ++ (if before =? 0 then [] else [gpu_sync before after])
                 ++ [gpu_buffer_map b offset size]
  /\ (before = 0 -> barrier_count (gpu_calls st') = barrier_count (gpu_calls st))
  /\ (before <> 0 ->
      Z.land before write_categories <> 0 \/ Z.land after write_categories <> 0 ->
      gpu_calls st' = gpu_calls st ++ [gpu_sync before after; gpu_buffer_map b offset size]
      /\ barrier_count (gpu_calls st') = S (barrier_count (gpu_calls st)))
  /\ (Z.land before write_categories = 0 -> Z.land after write_categories = 0 ->
      barrier_count (gpu_calls st') = barrier_count (gpu_calls st)).
Proof.
  intros Hb before after st'.
  pose proof (lovrBufferMap_calls b offset size st buf Hb) as Hcalls.
  fold before after st' in Hcalls.
  split; [exact Hcalls|]. split; [|split].
  - intros H0. rewrite Hcalls, H0. simpl.
    rewrite barrier_count_app, barrier_count_map. lia.
  - intros Hne _. rewrite Hcalls.
    destruct (Z.eqb_spec before 0) as [H0|_]; [contradiction|].
    split; [reflexivity|].
    simpl. rewrite barrier_count_app, barrier_count_sync_map. lia.
  - intros _ Hafter. destruct (upload_is_write Hafter).
Qed.

(** ** What a barrier clears (claim C2) *)

(** C2. When a map issues a barrier for a buffer whose pending access set
    is [B]: for every category [i] set in [B], bit [i] is cleared in every
    other buffer of the tracking list of [i], and that list is emptied
    (at the time [gpu_sync] is called; afterwards the mapped buffer alone
    is recorded again under the upload category); every other buffer that
    shares no bit with [B] keeps its pending-access mask. Where every
    pending bit is tracked, as it is in every state the module reaches
    ([tracked_initially], [lovrBufferCreate_tracked],
    [lovrBufferMap_tracked]), the bits of [B] are thus cleared in every
    other buffer. *)
Theorem lovrBufferMap_barrier_clears (b : nat) (offset size : Z) (st : State)
  (buf : Buffer) :
  buffers st !! b = Some buf ->
  access buf <> 0 ->
  length (sync st) = GPU_ACCESS_COUNT ->
  (GPU_WRITE_UPLOAD < GPU_ACCESS_COUNT)%nat ->
  let B := access buf in
  let after := bit GPU_WRITE_UPLOAD in
  let st' := lovrBufferMap b offset size st in
  barrier_count (gpu_calls st') = S (barrier_count (gpu_calls st))
  /\ (forall i listed r buf',
        (i < GPU_ACCESS_COUNT)%nat -> Z.testbit B (Z.of_nat i) = true ->
        sync st !! i = Some listed -> r ∈ listed -> r <> b ->
        buffers st' !! r = Some buf' ->
        Z.testbit (access buf') (Z.of_nat i) = false)
  /\ (forall i,
        (i < GPU_ACCESS_COUNT)%nat -> Z.testbit B (Z.of_nat i) = true ->
        sync (issue_barrier B after st) !! i = Some []
        /\ sync st' !! i = Some (if decide (i = GPU_WRITE_UPLOAD) then [b] else []))
  /\ (forall r other,
        r <> b -> buffers st !! r = Some other ->
        Z.land (access other) B = 0 ->
        buffers st' !! r = Some other)
  /\ (tracked st ->
      forall i r buf',
        (i < GPU_ACCESS_COUNT)%nat -> Z.testbit B (Z.of_nat i) = true ->
        r <> b -> buffers st' !! r = Some buf' ->
        Z.testbit (access buf') (Z.of_nat i) = false).
Proof.
  intros Hb Hne Hlen Hup B after st'.
  assert (Hst' : st' =
    let st2 := record_access b after (issue_barrier B after st) in
    mkState (buffers st2) (sync st2) (gpu_calls st2 ++ [gpu_buffer_map b offset size])).
  { subst st'. unfold lovrBufferMap. rewrite Hb. fold B. fold after.
    rewrite barrier_needed_pending.
    destruct (Z.eqb_spec B 0) as [H0|_]; [contradiction|]. reflexivity. }
  assert (Hsync : forall i, (i < GPU_ACCESS_COUNT)%nat ->
            Z.testbit B (Z.of_nat i) = true ->
            sync (issue_barrier B after st) !! i = Some []).
  { intros i Hi Hbit. unfold issue_barrier. simpl.
    rewrite clear_pending_upto, clear_upto_lists.
    rewrite bool_decide_eq_true_2 by assumption. rewrite Hbit. simpl.
    destruct (sync st !! i) eqn:Hl; [reflexivity|].
    apply lookup_ge_None in Hl. lia. }
  split; [|split; [|split; [|split]]].
  - subst st'. rewrite (lovrBufferMap_calls b offset size st buf Hb). fold B.
    destruct (Z.eqb_spec B 0) as [H0|_]; [contradiction|].
    simpl. rewrite barrier_count_app, barrier_count_sync_map. lia.
  - intros i listed r buf' Hi Hbit Hl Hr Hrb Hlook.
    rewrite Hst' in Hlook. simpl in Hlook.
    rewrite list_lookup_alter_ne in Hlook by congruence.
    rewrite clear_pending_upto in Hlook.
    eapply clear_upto_cleared; eassumption.
  - intros i Hi Hbit. split; [apply Hsync; assumption|].
    rewrite Hst'. cbn [sync record_access].
    destruct (decide (i = GPU_WRITE_UPLOAD)) as [->|Hneq].
    + rewrite list_lookup_alter_eq, (Hsync _ Hi Hbit). reflexivity.
    + rewrite list_lookup_alter_ne by congruence. apply Hsync; assumption.
  - intros r other Hrb Hother Hdisj.
    rewrite Hst'. simpl.
    rewrite list_lookup_alter_ne by congruence.
    rewrite clear_pending_upto, clear_upto_frame; [assumption|].
    intros buf0 Hbuf0. rewrite Hother in Hbuf0. injection Hbuf0 as <-. assumption.
  - intros Htr i r buf' Hi Hbit Hrb Hlook.
    rewrite Hst' in Hlook. simpl in Hlook.
    rewrite list_lookup_alter_ne in Hlook by congruence.
    rewrite clear_pending_upto in Hlook.
    destruct (Z.testbit (access buf') (Z.of_nat i)) eqn:Hbit'; [|reflexivity].
    destruct (clear_upto_mono _ _ _ _ _ _ Hlook) as (buf0 & Hr0 & Hmono).
    destruct (Htr r buf0 i Hr0 (Hmono _ (Nat2Z.is_nonneg i) Hbit')) as (l & Hl & Hin).
    rewrite (clear_upto_cleared _ _ _ _ _ _ _ _ Hi Hbit Hl Hin Hlook) in Hbit'.
    discriminate.
Qed.

End Tracker.

(** ** The concrete tracker, run *)

Lemma lovrBufferMap_barrier_witness :
  gpu_calls (lovrBufferMap example_count example_color example_depth
               example_compute example_upload 0 0 64 example_state) =
  [gpu_sync (bit 12) (bit 12); gpu_buffer_map 0 0 64].
Proof.
  exact (proj1 (lovrBufferMap_barrier example_count example_color example_depth
                  example_compute example_upload 0 0 64 example_state
                  (mkBuffer 64 1 (bit 12)) eq_refl)).
Defined.

Lemma example_state_tracked :
  tracked example_state.
Proof.
  intros r buf i Hr Hbit.
  destruct r as [|[|[|r]]]; simpl in Hr; try discriminate; injection Hr as <-;
    simpl in Hbit; rewrite testbit_bit in Hbit by lia;
    apply Z.eqb_eq, Nat2Z.inj in Hbit; subst i; eexists; (split; [reflexivity|]);
    repeat first [apply elem_of_list_singleton | apply elem_of_cons; (left; reflexivity) || right]; try reflexivity.
Qed.

Lemma lovrBufferMap_barrier_clears_witness :
  buffers (lovrBufferMap example_count example_color example_depth
             example_compute example_upload 0 0 64 example_state) !! 2%nat
  = Some (mkBuffer 16 4 (bit 2))
  /\ (exists buf',
        buffers (lovrBufferMap example_count example_color example_depth
                   example_compute example_upload 0 0 64 example_state) !! 1%nat
        = Some buf'
        /\ Z.testbit (access buf') 12 = false).
Proof.
  assert (Hne : access (mkBuffer 64 1 (bit 12)) <> 0) by (vm_compute; discriminate).
  assert (Hup : (example_upload < example_count)%nat) by (vm_compute; lia).
  pose proof (lovrBufferMap_barrier_clears example_count example_color example_depth
                example_compute example_upload 0 0 64 example_state
                (mkBuffer 64 1 (bit 12)) eq_refl Hne eq_refl Hup) as H.
  split.
  - apply (proj1 (proj2 (proj2 (proj2 H))) 2%nat (mkBuffer 16 4 (bit 2)));
      [discriminate|reflexivity|reflexivity].
  - exists (mkBuffer 32 1 0). split; [reflexivity|].
    apply (proj2 (proj2 (proj2 (proj2 H))) example_state_tracked 12%nat 1%nat
             (mkBuffer 32 1 0));
      [vm_compute; lia|reflexivity|discriminate|reflexivity].
Defined.

(** The state the example map leaves: the barrier cleared the upload bit
    of buffer 1, buffer 2 kept its pending read, and the upload list holds
    the mapped buffer alone. *)
Example example_map_result :
  let st' := lovrBufferMap example_count example_color example_depth
               example_compute example_upload 0 0 64 example_state in
  map access (buffers st') = [bit 12; 0; bit 2]
  /\ sync st' = [[]; []; [2%nat]; []; []; []; []; []; []; []; []; []; [0%nat]].
Proof. vm_compute. split; reflexivity. Qed.

End Sync.

(** * The state cache of the OpenGL backend

    The static [state] of the backend, the [lovrGpuBind*] / [lovrGpuUse*]
    / [lovrGpuSetViewport] functions, [lovrGpuInit], and the part of
    [lovrGpuDraw] that diffs the pipeline toggles against the cache. *)

Module StateCache.
Local Open Scope Z_scope.

Inductive BlendMode :=
| BLEND_ALPHA | BLEND_ADD | BLEND_SUBTRACT | BLEND_MULTIPLY
| BLEND_LIGHTEN | BLEND_DARKEN | BLEND_SCREEN | BLEND_REPLACE.

Inductive BlendAlphaMode := BLEND_ALPHA_MULTIPLY | BLEND_PREMULTIPLIED.

Inductive CompareMode :=
| COMPARE_NONE | COMPARE_EQUAL | COMPARE_NEQUAL | COMPARE_LESS
| COMPARE_LEQUAL | COMPARE_GREATER | COMPARE_GEQUAL.

Inductive Winding := WINDING_CLOCKWISE | WINDING_COUNTERCLOCKWISE.

(** The content of a cache field that may hold a value outside its
    enumeration. *)
Inductive cached (A : Type) := Applied (a : A) | Unknown.
Arguments Applied {A} a.
Arguments Unknown {A}.

#[global] Instance BlendMode_eq_dec : EqDecision BlendMode.
Proof. solve_decision. Defined.
#[global] Instance BlendAlphaMode_eq_dec : EqDecision BlendAlphaMode.
Proof. solve_decision. Defined.
#[global] Instance CompareMode_eq_dec : EqDecision CompareMode.
Proof. solve_decision. Defined.
#[global] Instance Winding_eq_dec : EqDecision Winding.
Proof. solve_decision. Defined.
#[global] Instance cached_eq_dec {A} `{EqDecision A} : EqDecision (cached A).
Proof. solve_decision. Defined.

(** The GL enumerators the modelled code passes. *)
Inductive GLenum :=
| GL_FUNC_ADD | GL_FUNC_REVERSE_SUBTRACT | GL_MAX | GL_MIN
| GL_ZERO | GL_ONE | GL_SRC_ALPHA | GL_ONE_MINUS_SRC_ALPHA
| GL_DST_COLOR | GL_ONE_MINUS_SRC_COLOR
| GL_ALWAYS | GL_EQUAL | GL_NOTEQUAL | GL_LESS | GL_LEQUAL | GL_GREATER | GL_GEQUAL
| GL_CULL_FACE | GL_DEPTH_TEST | GL_STENCIL_TEST | GL_BLEND
| GL_LINE_SMOOTH | GL_PROGRAM_POINT_SIZE | GL_FRAMEBUFFER_SRGB | GL_UNPACK_ALIGNMENT
| GL_KEEP | GL_CW | GL_CCW | GL_FRONT_AND_BACK | GL_LINE | GL_FILL
| GL_FRAMEBUFFER | GL_ARRAY_BUFFER | GL_ELEMENT_ARRAY_BUFFER | GL_UNIFORM_BUFFER
| GL_STATIC_DRAW | GL_DYNAMIC_DRAW | GL_STREAM_DRAW.

#[global] Instance GLenum_eq_dec : EqDecision GLenum.
Proof. solve_decision. Defined.

(** A byte of client memory: [None] is a byte whose content is
    indeterminate (fresh from [realloc]). *)
Definition cell : Type := option Z.

(** Calls into OpenGL, with their arguments. *)
Inductive gl_call :=
| glBindFramebuffer (target : GLenum) (fb : Z)
| glBindBuffer (target : GLenum) (buffer : Z)
| glBindBufferBase (target : GLenum) (index : nat) (buffer : Z)
| glBindVertexArray (array : Z)
| glViewport (v : list Z)
| glUseProgram (prog : Z)
| glBlendEquation (mode : GLenum)
| glBlendFuncSeparate (srcRGB dstRGB srcAlpha dstAlpha : GLenum)
| glEnable (cap : GLenum)
| glDisable (cap : GLenum)
| glDepthFunc (func : GLenum)
| glDepthMask (flag : bool)
| glLineWidth (width : float)
| glStencilFunc (func : GLenum) (ref mask : Z)
| glStencilOp (sfail dpfail dppass : GLenum)
| glFrontFace (mode : GLenum)
| glPolygonMode (face mode : GLenum)
| glPixelStorei (pname : GLenum) (param : Z)
| glGenBuffers (name : Z)
| glBufferData (target : GLenum) (size : Z) (data : option (list cell)) (usage : GLenum).

(** The pipeline toggles of [state]. A toggle whose last applied value
    is not known (the [-1] that [lovrGpuInit] stores in [blendMode], the
    [~0] that marks a dirty [stencilMode]) is [Unknown]. *)
Record Toggles := mkToggles {
  blendMode : cached BlendMode;
  blendAlphaMode : cached BlendAlphaMode;
  culling : bool;
  depthEnabled : bool;
  depthTest : CompareMode;
  depthWrite : bool;
  lineWidth : float;
  stencilEnabled : bool;
  stencilMode : cached CompareMode;
  stencilValue : Z;
  stencilWriting : bool;
  winding : Winding;
  wireframe : bool
}.

Definition set_blendMode (v : cached BlendMode) (s : Toggles) : Toggles :=
  mkToggles v (blendAlphaMode s) (culling s) (depthEnabled s) (depthTest s)
    (depthWrite s) (lineWidth s) (stencilEnabled s) (stencilMode s)
    (stencilValue s) (stencilWriting s) (winding s) (wireframe s).

Definition set_blendAlphaMode (v : cached BlendAlphaMode) (s : Toggles) : Toggles :=
  mkToggles (blendMode s) v (culling s) (depthEnabled s) (depthTest s)
    (depthWrite s) (lineWidth s) (stencilEnabled s) (stencilMode s)
    (stencilValue s) (stencilWriting s) (winding s) (wireframe s).

Definition set_culling (v : bool) (s : Toggles) : Toggles :=
  mkToggles (blendMode s) (blendAlphaMode s) v (depthEnabled s) (depthTest s)
    (depthWrite s) (lineWidth s) (stencilEnabled s) (stencilMode s)
    (stencilValue s) (stencilWriting s) (winding s) (wireframe s).

Definition set_depthEnabled (v : bool) (s : Toggles) : Toggles :=
  mkToggles (blendMode s) (blendAlphaMode s) (culling s) v (depthTest s)
    (depthWrite s) (lineWidth s) (stencilEnabled s) (stencilMode s)
    (stencilValue s) (stencilWriting s) (winding s) (wireframe s).

Definition set_depthTest (v : CompareMode) (s : Toggles) : Toggles :=
  mkToggles (blendMode s) (blendAlphaMode s) (culling s) (depthEnabled s) v
    (depthWrite s) (lineWidth s) (stencilEnabled s) (stencilMode s)
    (stencilValue s) (stencilWriting s) (winding s) (wireframe s).

Definition set_depthWrite (v : bool) (s : Toggles) : Toggles :=
  mkToggles (blendMode s) (blendAlphaMode s) (culling s) (depthEnabled s)
    (depthTest s) v (lineWidth s) (stencilEnabled s) (stencilMode s)
    (stencilValue s) (stencilWriting s) (winding s) (wireframe s).

Definition set_lineWidth (v : float) (s : Toggles) : Toggles :=
  mkToggles (blendMode s) (blendAlphaMode s) (culling s) (depthEnabled s)
    (depthTest s) (depthWrite s) v (stencilEnabled s) (stencilMode s)
    (stencilValue s) (stencilWriting s) (winding s) (wireframe s).

Definition set_stencilEnabled (v : bool) (s : Toggles) : Toggles :=
  mkToggles (blendMode s) (blendAlphaMode s) (culling s) (depthEnabled s)
    (depthTest s) (depthWrite s) (lineWidth s) v (stencilMode s) (stencilValue
    s) (stencilWriting s) (winding s) (wireframe s).

Definition set_stencilMode (v : cached CompareMode) (s : Toggles) : Toggles :=
  mkToggles (blendMode s) (blendAlphaMode s) (culling s) (depthEnabled s)
    (depthTest s) (depthWrite s) (lineWidth s) (stencilEnabled s) v
    (stencilValue s) (stencilWriting s) (winding s) (wireframe s).

Definition set_stencilValue (v : Z) (s : Toggles) : Toggles :=
  mkToggles (blendMode s) (blendAlphaMode s) (culling s) (depthEnabled s)
    (depthTest s) (depthWrite s) (lineWidth s) (stencilEnabled s) (stencilMode
    s) v (stencilWriting s) (winding s) (wireframe s).

Definition set_stencilWriting (v : bool) (s : Toggles) : Toggles :=
  mkToggles (blendMode s) (blendAlphaMode s) (culling s) (depthEnabled s)
    (depthTest s) (depthWrite s) (lineWidth s) (stencilEnabled s) (stencilMode
    s) (stencilValue s) v (winding s) (wireframe s).

Definition set_winding (v : Winding) (s : Toggles) : Toggles :=
  mkToggles (blendMode s) (blendAlphaMode s) (culling s) (depthEnabled s)
    (depthTest s) (depthWrite s) (lineWidth s) (stencilEnabled s) (stencilMode
    s) (stencilValue s) (stencilWriting s) v (wireframe s).

Definition set_wireframe (v : bool) (s : Toggles) : Toggles :=
  mkToggles (blendMode s) (blendAlphaMode s) (culling s) (depthEnabled s)
    (depthTest s) (depthWrite s) (lineWidth s) (stencilEnabled s) (stencilMode
    s) (stencilValue s) (stencilWriting s) (winding s) v.

(** The bindings of [state]: object names are the unsigned integers GL
    hands out; [viewport] holds the bit patterns of its four floats (the
    code compares them with [memcmp]). *)
Record Bindings := mkBindings {
  framebuffer : Z;
  indexBuffer : Z;
  program : Z;
  uniformBuffers : list Z;
  vertexArray : Z;
  vertexBuffer : Z;
  viewport : list Z
}.

Definition set_framebuffer (v : Z) (s : Bindings) : Bindings :=
  mkBindings v (indexBuffer s) (program s) (uniformBuffers s) (vertexArray s)
    (vertexBuffer s) (viewport s).

Definition set_indexBuffer (v : Z) (s : Bindings) : Bindings :=
  mkBindings (framebuffer s) v (program s) (uniformBuffers s) (vertexArray s)
    (vertexBuffer s) (viewport s).

Definition set_program (v : Z) (s : Bindings) : Bindings :=
  mkBindings (framebuffer s) (indexBuffer s) v (uniformBuffers s) (vertexArray
    s) (vertexBuffer s) (viewport s).

Definition set_uniformBuffers (v : list Z) (s : Bindings) : Bindings :=
  mkBindings (framebuffer s) (indexBuffer s) (program s) v (vertexArray s)
    (vertexBuffer s) (viewport s).

Definition set_vertexArray (v : Z) (s : Bindings) : Bindings :=
  mkBindings (framebuffer s) (indexBuffer s) (program s) (uniformBuffers s) v
    (vertexBuffer s) (viewport s).

Definition set_vertexBuffer (v : Z) (s : Bindings) : Bindings :=
  mkBindings (framebuffer s) (indexBuffer s) (program s) (uniformBuffers s)
    (vertexArray s) v (viewport s).

Definition set_viewport (v : list Z) (s : Bindings) : Bindings :=
  mkBindings (framebuffer s) (indexBuffer s) (program s) (uniformBuffers s)
    (vertexArray s) (vertexBuffer s) v.

(** The process-wide [state], with its fields grouped, the two
    statistics counters the modelled code touches, and the trace of GL
    calls issued so far. *)
Record State := mkState {
  toggles : Toggles;
  bindings : Bindings;
  shaderSwitches : Z;
  drawCalls : Z;
  calls : list gl_call
}.

Definition set_toggles (v : Toggles) (s : State) : State :=
  mkState v (bindings s) (shaderSwitches s) (drawCalls s) (calls s).

Definition set_bindings (v : Bindings) (s : State) : State :=
  mkState (toggles s) v (shaderSwitches s) (drawCalls s) (calls s).

Definition set_shaderSwitches (v : Z) (s : State) : State :=
  mkState (toggles s) (bindings s) v (drawCalls s) (calls s).

Definition set_drawCalls (v : Z) (s : State) : State :=
  mkState (toggles s) (bindings s) (shaderSwitches s) v (calls s).

Definition set_calls (v : list gl_call) (s : State) : State :=
  mkState (toggles s) (bindings s) (shaderSwitches s) (drawCalls s) v.

Definition upd_toggles (f : Toggles -> Toggles) (st : State) : State :=
  set_toggles (f (toggles st)) st.

Definition upd_bindings (f : Bindings -> Bindings) (st : State) : State :=
  set_bindings (f (bindings st)) st.

(** Issue one GL call. *)
Definition emit (c : gl_call) (st : State) : State :=
  set_calls (calls st ++ [c]) st.

(** ** The cached bindings *)

Definition lovrGpuBindFramebuffer (fb : Z) (st : State) : State :=
  if negb (framebuffer (bindings st) =? fb)
  then emit (glBindFramebuffer GL_FRAMEBUFFER fb)
            (upd_bindings (set_framebuffer fb) st)
  else st.

Definition lovrGpuBindIndexBuffer (ib : Z) (st : State) : State :=
  if negb (indexBuffer (bindings st) =? ib)
  then emit (glBindBuffer GL_ELEMENT_ARRAY_BUFFER ib)
            (upd_bindings (set_indexBuffer ib) st)
  else st.

(** [state.uniformBuffers] has [MAX_UNIFORM_BUFFERS] entries. A [slot]
    outside the array is undefined in C; the model does nothing. *)
Definition lovrGpuBindUniformBuffer (ub : Z) (slot : nat) (st : State) : State :=
  match uniformBuffers (bindings st) !! slot with
  | Some cur =>
    if negb (cur =? ub)
    then emit (glBindBufferBase GL_UNIFORM_BUFFER slot ub)
              (upd_bindings (fun b => set_uniformBuffers (<[slot := ub]> (uniformBuffers b)) b) st)
    else st
  | None => st
  end.

Definition lovrGpuBindVertexArray (va : Z) (st : State) : State :=
  if negb (vertexArray (bindings st) =? va)
  then emit (glBindVertexArray va) (upd_bindings (set_vertexArray va) st)
  else st.

Definition lovrGpuBindVertexBuffer (vb : Z) (st : State) : State :=
  if negb (vertexBuffer (bindings st) =? vb)
  then emit (glBindBuffer GL_ARRAY_BUFFER vb)
            (upd_bindings (set_vertexBuffer vb) st)
  else st.

(** [memcmp] on the four floats: the bit patterns are compared. *)
Definition lovrGpuSetViewport (v : list Z) (st : State) : State :=
  if negb (bool_decide (viewport (bindings st) = v))
  then emit (glViewport v) (upd_bindings (set_viewport v) st)
  else st.

Definition lovrGpuUseProgram (prog : Z) (st : State) : State :=
  if negb (program (bindings st) =? prog)
  then set_shaderSwitches (shaderSwitches st + 1)
         (emit (glUseProgram prog) (upd_bindings (set_program prog) st))
  else st.

Definition MAX_UNIFORM_BUFFERS : nat := 32.

(** [state] before [lovrGpuInit]: static storage, all zero. The toggles
    are overwritten by [lovrGpuInit] before they are read. *)
Definition zero_bindings : Bindings :=
  mkBindings 0 0 0 (replicate MAX_UNIFORM_BUFFERS 0) 0 0 [0; 0; 0; 0].

(** [lovrGpuInit] (desktop build). It resets every toggle; the cache of
    bindings is the zeroed static storage. *)
Definition lovrGpuInit (srgb_ : bool) : State :=
  mkState
    (mkToggles Unknown Unknown false false COMPARE_LESS true 1%float false
               (Applied COMPARE_NONE) 0 false WINDING_COUNTERCLOCKWISE false)
    zero_bindings 0 0
    [glEnable GL_LINE_SMOOTH; glEnable GL_PROGRAM_POINT_SIZE;
     (if srgb_ then glEnable GL_FRAMEBUFFER_SRGB else glDisable GL_FRAMEBUFFER_SRGB);
     glEnable GL_BLEND; glPixelStorei GL_UNPACK_ALIGNMENT 1].

(** ** The pipeline toggles of a draw *)

(** The fields of [Pipeline] that [lovrGpuDraw] diffs against the cache. *)
Module Pipeline.
Record Pipeline := mk {
  blendMode : BlendMode;
  blendAlphaMode : BlendAlphaMode;
  culling : bool;
  depthTest : CompareMode;
  depthWrite : bool;
  lineWidth : float;
  stencilMode : CompareMode;
  stencilValue : Z;
  winding : Winding;
  wireframe : bool
}.
End Pipeline.
Abbreviation Pipeline := Pipeline.Pipeline.

Definition convertCompareMode (mode : CompareMode) : GLenum :=
  match mode with
  | COMPARE_NONE => GL_ALWAYS
  | COMPARE_EQUAL => GL_EQUAL
  | COMPARE_NEQUAL => GL_NOTEQUAL
  | COMPARE_LESS => GL_LESS
  | COMPARE_LEQUAL => GL_LEQUAL
  | COMPARE_GREATER => GL_GREATER
  | COMPARE_GEQUAL => GL_GEQUAL
  end.

(** The C comparison [a != b] on floats (false on equal numbers, true
    when either is a NaN). *)
Definition float_ne (a b : float) : bool := negb (PrimFloat.eqb a b).

(** [// Blend mode] *)
Definition draw_blend (pipeline : Pipeline) (st : State) : State :=
  if negb (bool_decide (blendMode (toggles st) = Applied (Pipeline.blendMode pipeline)))
     || negb (bool_decide (blendAlphaMode (toggles st)
                           = Applied (Pipeline.blendAlphaMode pipeline)))
  then
    let mode := Pipeline.blendMode pipeline in
    let alpha := Pipeline.blendAlphaMode pipeline in
    let st := upd_toggles (fun t => set_blendAlphaMode (Applied alpha)
                                      (set_blendMode (Applied mode) t)) st in
    let srcRGB := if bool_decide (mode = BLEND_MULTIPLY) then GL_DST_COLOR else GL_ONE in
    let srcRGB := if bool_decide (srcRGB = GL_ONE)
                     && bool_decide (alpha = BLEND_ALPHA_MULTIPLY)
                  then GL_SRC_ALPHA else srcRGB in
    match mode with
    | BLEND_ALPHA =>
      emit (glBlendFuncSeparate srcRGB GL_ONE_MINUS_SRC_ALPHA GL_ONE GL_ONE_MINUS_SRC_ALPHA)
           (emit (glBlendEquation GL_FUNC_ADD) st)
    | BLEND_ADD =>
      emit (glBlendFuncSeparate srcRGB GL_ONE GL_ZERO GL_ONE)
           (emit (glBlendEquation GL_FUNC_ADD) st)
    | BLEND_SUBTRACT =>
      emit (glBlendFuncSeparate srcRGB GL_ONE GL_ZERO GL_ONE)
           (emit (glBlendEquation GL_FUNC_REVERSE_SUBTRACT) st)
    | BLEND_MULTIPLY =>
      emit (glBlendFuncSeparate srcRGB GL_ZERO GL_DST_COLOR GL_ZERO)
           (emit (glBlendEquation GL_FUNC_ADD) st)
    | BLEND_LIGHTEN =>
      emit (glBlendFuncSeparate srcRGB GL_ZERO GL_ONE GL_ZERO)
           (emit (glBlendEquation GL_MAX) st)
    | BLEND_DARKEN =>
      emit (glBlendFuncSeparate srcRGB GL_ZERO GL_ONE GL_ZERO)
           (emit (glBlendEquation GL_MIN) st)
    | BLEND_SCREEN =>
      emit (glBlendFuncSeparate srcRGB GL_ONE_MINUS_SRC_COLOR GL_ONE GL_ONE_MINUS_SRC_COLOR)
           (emit (glBlendEquation GL_FUNC_ADD) st)
    | BLEND_REPLACE =>
      emit (glBlendFuncSeparate srcRGB GL_ZERO GL_ONE GL_ZERO)
           (emit (glBlendEquation GL_FUNC_ADD) st)
    end
  else st.

(** [// Culling] *)
Definition draw_culling (pipeline : Pipeline) (st : State) : State :=
  if negb (Bool.eqb (culling (toggles st)) (Pipeline.culling pipeline))
  then
    let st := upd_toggles (set_culling (Pipeline.culling pipeline)) st in
    if culling (toggles st) then emit (glEnable GL_CULL_FACE) st
    else emit (glDisable GL_CULL_FACE) st
  else st.

(** [// Depth test] *)
Definition draw_depthTest (pipeline : Pipeline) (st : State) : State :=
  if negb (bool_decide (depthTest (toggles st) = Pipeline.depthTest pipeline))
  then
    let st := upd_toggles (set_depthTest (Pipeline.depthTest pipeline)) st in
    if negb (bool_decide (depthTest (toggles st) = COMPARE_NONE))
    then
      let st := if negb (depthEnabled (toggles st))
                then emit (glEnable GL_DEPTH_TEST) (upd_toggles (set_depthEnabled true) st)
                else st in
      emit (glDepthFunc (convertCompareMode (depthTest (toggles st)))) st
    else if depthEnabled (toggles st)
    then emit (glDisable GL_DEPTH_TEST) (upd_toggles (set_depthEnabled false) st)
    else st
  else st.

(** [// Depth write] *)
Definition draw_depthWrite (pipeline : Pipeline) (st : State) : State :=
  if negb (Bool.eqb (depthWrite (toggles st)) (Pipeline.depthWrite pipeline))
  then
    let st := upd_toggles (set_depthWrite (Pipeline.depthWrite pipeline)) st in
    emit (glDepthMask (depthWrite (toggles st))) st
  else st.

(** [// Line width] *)
Definition draw_lineWidth (pipeline : Pipeline) (st : State) : State :=
  if float_ne (lineWidth (toggles st)) (Pipeline.lineWidth pipeline)
  then
    let st := upd_toggles (set_lineWidth (Pipeline.lineWidth pipeline)) st in
    emit (glLineWidth (lineWidth (toggles st))) st
  else st.

(** The [switch] of the stencil block; [default] leaves [GL_ALWAYS]. *)
Definition stencil_func (mode : CompareMode) : GLenum :=
  match mode with
  | COMPARE_EQUAL => GL_EQUAL
  | COMPARE_NEQUAL => GL_NOTEQUAL
  | COMPARE_LESS => GL_GREATER
  | COMPARE_LEQUAL => GL_GEQUAL
  | COMPARE_GREATER => GL_LESS
  | COMPARE_GEQUAL => GL_LEQUAL
  | COMPARE_NONE => GL_ALWAYS
  end.

(** [// Stencil mode] *)
Definition draw_stencil (pipeline : Pipeline) (st : State) : State :=
  if negb (stencilWriting (toggles st))
     && (negb (bool_decide (stencilMode (toggles st)
                            = Applied (Pipeline.stencilMode pipeline)))
         || negb (stencilValue (toggles st) =? Pipeline.stencilValue pipeline))
  then
    let mode := Pipeline.stencilMode pipeline in
    let st := upd_toggles (fun t => set_stencilValue (Pipeline.stencilValue pipeline)
                                      (set_stencilMode (Applied mode) t)) st in
    if negb (bool_decide (mode = COMPARE_NONE))
    then
      let st := if negb (stencilEnabled (toggles st))
                then emit (glEnable GL_STENCIL_TEST) (upd_toggles (set_stencilEnabled true) st)
                else st in
      emit (glStencilOp GL_KEEP GL_KEEP GL_KEEP)
           (emit (glStencilFunc (stencil_func mode) (stencilValue (toggles st)) 255) st)
    else if stencilEnabled (toggles st)
    then emit (glDisable GL_STENCIL_TEST) (upd_toggles (set_stencilEnabled false) st)
    else st
  else st.

(** [// Winding] *)
Definition draw_winding (pipeline : Pipeline) (st : State) : State :=
  if negb (bool_decide (winding (toggles st) = Pipeline.winding pipeline))
  then
    let st := upd_toggles (set_winding (Pipeline.winding pipeline)) st in
    emit (glFrontFace (if bool_decide (winding (toggles st) = WINDING_CLOCKWISE)
                       then GL_CW else GL_CCW)) st
  else st.

(** [// Wireframe] (desktop build) *)
Definition draw_wireframe (pipeline : Pipeline) (st : State) : State :=
  if negb (Bool.eqb (wireframe (toggles st)) (Pipeline.wireframe pipeline))
  then
    let st := upd_toggles (set_wireframe (Pipeline.wireframe pipeline)) st in
    emit (glPolygonMode GL_FRONT_AND_BACK
            (if wireframe (toggles st) then GL_LINE else GL_FILL)) st
  else st.

(** The toggles of [lovrGpuDraw], in the order of the source. *)
Definition lovrGpuDraw_toggles (pipeline : Pipeline) (st : State) : State :=
  draw_wireframe pipeline
    (draw_winding pipeline
      (draw_stencil pipeline
        (draw_lineWidth pipeline
          (draw_depthWrite pipeline
            (draw_depthTest pipeline
              (draw_culling pipeline
                (draw_blend pipeline st))))))).

(** The start of [lovrGpuDraw]: bind the shader's program, then the
    toggles. *)
Definition lovrGpuDraw_state (prog : Z) (pipeline : Pipeline) (st : State) : State :=
  lovrGpuDraw_toggles pipeline (lovrGpuUseProgram prog st).

(** ** Sequences of updates of the cached bindings *)

Inductive update :=
| UseProgram (prog : Z)
| BindFramebuffer (fb : Z)
| BindIndexBuffer (ib : Z)
| BindVertexBuffer (vb : Z)
| BindVertexArray (va : Z)
| BindUniformBuffer (ub : Z) (slot : nat)
| SetViewport (v : list Z).

Definition apply_update (u : update) (st : State) : State :=
  match u with
  | UseProgram prog => lovrGpuUseProgram prog st
  | BindFramebuffer fb => lovrGpuBindFramebuffer fb st
  | BindIndexBuffer ib => lovrGpuBindIndexBuffer ib st
  | BindVertexBuffer vb => lovrGpuBindVertexBuffer vb st
  | BindVertexArray va => lovrGpuBindVertexArray va st
  | BindUniformBuffer ub slot => lovrGpuBindUniformBuffer ub slot st
  | SetViewport v => lovrGpuSetViewport v st
  end.

Definition run (us : list update) (st : State) : State :=
  foldl (fun s u => apply_update u s) st us.

(** *** The specification's count

    The number of distinct consecutive value changes of one setting: the
    requests are compared with the value before them, starting from the
    value in force. *)
Fixpoint changes {A} `{EqDecision A} (cur : A) (reqs : list A) : nat :=
  match reqs with
  | [] => 0
  | r :: rest => ((if bool_decide (cur = r) then 0 else 1) + changes r rest)%nat
  end.

(** The requests a sequence makes of each setting. *)
Definition programs (us : list update) : list Z :=
  omap (fun u => match u with UseProgram x => Some x | _ => None end) us.
Definition framebuffers (us : list update) : list Z :=
  omap (fun u => match u with BindFramebuffer x => Some x | _ => None end) us.
Definition indexBuffers (us : list update) : list Z :=
  omap (fun u => match u with BindIndexBuffer x => Some x | _ => None end) us.
Definition vertexBuffers (us : list update) : list Z :=
  omap (fun u => match u with BindVertexBuffer x => Some x | _ => None end) us.
Definition vertexArrays (us : list update) : list Z :=
  omap (fun u => match u with BindVertexArray x => Some x | _ => None end) us.
Definition viewports (us : list update) : list (list Z) :=
  omap (fun u => match u with SetViewport x => Some x | _ => None end) us.
Definition uniformBuffersAt (slot : nat) (us : list update) : list Z :=
  omap (fun u => match u with
                 | BindUniformBuffer x s => if bool_decide (s = slot) then Some x else None
                 | _ => None end) us.

(** Changes of the uniform-buffer slots [first], [first+1], ... whose
    values in force are [curs]. *)
Fixpoint slot_changes (first : nat) (curs : list Z) (us : list update) : nat :=
  match curs with
  | [] => 0
  | cur :: rest =>
    (changes cur (uniformBuffersAt first us) + slot_changes (S first) rest us)%nat
  end.

(** All value changes of a sequence of binding updates run from [st]. *)
Definition binding_changes (st : State) (us : list update) : nat :=
  let b := bindings st in
  (changes (program b) (programs us)
   + changes (framebuffer b) (framebuffers us)
   + changes (indexBuffer b) (indexBuffers us)
   + changes (vertexBuffer b) (vertexBuffers us)
   + changes (vertexArray b) (vertexArrays us)
   + changes (viewport b) (viewports us)
   + slot_changes 0 (uniformBuffers b) us)%nat.

(** ** Predicates and instances for the statements below *)



Definition blend_request (pipeline : Pipeline) : cached BlendMode * cached BlendAlphaMode :=
  (Applied (Pipeline.blendMode pipeline), Applied (Pipeline.blendAlphaMode pipeline)).

(** The pipeline a draw uses by default, and the same with additive
    blending. *)
Definition alpha_pipeline : Pipeline :=
  Pipeline.mk BLEND_ALPHA BLEND_ALPHA_MULTIPLY false COMPARE_LESS true 1%float
              COMPARE_NONE 0 WINDING_COUNTERCLOCKWISE false.

Definition add_pipeline : Pipeline :=
  Pipeline.mk BLEND_ADD BLEND_ALPHA_MULTIPLY false COMPARE_LESS true 1%float
              COMPARE_NONE 0 WINDING_COUNTERCLOCKWISE false.

(** The state after the first draw of a session. *)
Definition after_first_draw : State :=
  lovrGpuDraw_toggles alpha_pipeline (lovrGpuInit false).

Definition example_updates : list update :=
  [UseProgram 3; UseProgram 3; BindFramebuffer 1; BindUniformBuffer 7 2;
   BindUniformBuffer 7 2; BindUniformBuffer 0 2; SetViewport [0; 0; 1; 1];
   BindFramebuffer 1; UseProgram 4].

(** ** Sequences of state-cache updates: bindings and draws *)

(** An update of the state cache: one of the cached bindings, or a draw,
    which uses the shader's program and applies the pipeline toggles. *)
Inductive request :=
| Bind (u : update)
| Draw (prog : Z) (pipeline : Pipeline).

Definition apply_request (r : request) (st : State) : State :=
  match r with
  | Bind u => apply_update u st
  | Draw prog pipeline => lovrGpuDraw_state prog pipeline st
  end.

Definition run_requests (rs : list request) (st : State) : State :=
  foldl (fun s r => apply_request r s) st rs.

(** The binding updates a sequence makes (a draw uses a program), and
    the pipelines it draws with. *)
Definition binding_updates (rs : list request) : list update :=
  map (fun r => match r with Bind u => u | Draw prog _ => UseProgram prog end) rs.

Definition pipelines (rs : list request) : list Pipeline :=
  omap (fun r => match r with Draw _ pipeline => Some pipeline | Bind _ => None end) rs.

(** Value changes of the line width, which is compared with the C
    operator [!=] on floats: a width that compares equal leaves the cached
    one in place. *)
Fixpoint width_changes (cur : float) (reqs : list float) : nat :=
  match reqs with
  | [] => 0
  | r :: rest =>
    if float_ne cur r then S (width_changes r rest) else width_changes cur rest
  end.

(** The value changes of the five toggles that issue one call each:
    culling, depth write, line width, winding and wireframe. *)
Definition single_call_changes (t : Toggles) (ps : list Pipeline) : nat :=
  (changes (culling t) (map Pipeline.culling ps)
   + changes (depthWrite t) (map Pipeline.depthWrite ps)
   + width_changes (lineWidth t) (map Pipeline.lineWidth ps)
   + changes (winding t) (map Pipeline.winding ps)
   + changes (wireframe t) (map Pipeline.wireframe ps))%nat.

(** The value changes of the blend setting (mode and alpha mode). *)
Definition blend_changes (t : Toggles) (ps : list Pipeline) : nat :=
  changes (blendMode t, blendAlphaMode t) (map blend_request ps).

(** The calls of the depth-test changes: [glDepthFunc] for a mode other
    than none, with [glEnable] before it when the test is disabled;
    [glDisable] for none when the test is enabled. *)
Fixpoint depth_test_calls (enabled : bool) (cur : CompareMode) (reqs : list CompareMode)
  : nat :=
  match reqs with
  | [] => 0
  | r :: rest =>
    if bool_decide (cur = r) then depth_test_calls enabled cur rest
    else if bool_decide (r = COMPARE_NONE)
    then ((if enabled then 1 else 0) + depth_test_calls false r rest)%nat
    else ((if enabled then 1 else 2) + depth_test_calls true r rest)%nat
  end.

(** The stencil setting a pipeline asks for, and the cached one. *)
Definition stencil_request (pipeline : Pipeline) : cached CompareMode * Z :=
  (Applied (Pipeline.stencilMode pipeline), Pipeline.stencilValue pipeline).

Definition stencil_cached (t : Toggles) : cached CompareMode * Z :=
  (stencilMode t, stencilValue t).

(** The calls of the stencil changes: [glStencilFunc] and [glStencilOp]
    for a mode other than none, with [glEnable] before them when the test
    is disabled; [glDisable] for none when the test is enabled. *)
Fixpoint stencil_calls (enabled : bool) (cur : cached CompareMode * Z)
  (reqs : list (cached CompareMode * Z)) : nat :=
  match reqs with
  | [] => 0
  | r :: rest =>
    if bool_decide (cur = r) then stencil_calls enabled cur rest
    else if bool_decide (r.1 = Applied COMPARE_NONE)
    then ((if enabled then 1 else 0) + stencil_calls false r rest)%nat
    else ((if enabled then 2 else 3) + stencil_calls true r rest)%nat
  end.



(** A pipeline with culling and a depth test of its own, and a sequence
    of binds and draws. *)
Definition cull_pipeline : Pipeline :=
  Pipeline.mk BLEND_ADD BLEND_ALPHA_MULTIPLY true COMPARE_LEQUAL true 2%float
              COMPARE_EQUAL 1 WINDING_COUNTERCLOCKWISE false.

Definition example_requests : list request :=
  [Draw 3 alpha_pipeline; Bind (BindFramebuffer 1); Draw 3 add_pipeline;
   Draw 3 add_pipeline; Draw 4 cull_pipeline; Bind (BindFramebuffer 1);
   Draw 4 alpha_pipeline].

(** ** Bindings: hardware calls are value changes *)











(** ** Pipeline toggles: a request that matches the cache is free *)













(** ** Draws: the calls of each block of toggles *)






















(** The blocks of toggles leave the bindings alone, and the bindings the
    toggles. *)
Lemma emit_bindings c st : bindings (emit c st) = bindings st.
Proof. reflexivity. Qed.







(** ** The count of hardware calls (claim C3) *)


(** *** Concrete runs *)


Example example_updates_counts :
  binding_changes after_first_draw example_updates = 6%nat
  /\ length example_updates = 9%nat.
Proof. vm_compute. split; reflexivity. Qed.

(** The seven requests of the example from a fresh state: three value
    changes of bindings (two programs, one framebuffer), four of the
    single-call toggles (culling and a line width of 2, each set and set
    back), three blend changes with two calls each, a depth-test change
    with two calls and one with one, and a stencil change with three calls
    and one with one: twenty calls after the five of [lovrGpuInit]. *)
Example example_requests_counts :
  length (calls (run_requests example_requests (lovrGpuInit false))) = 25%nat
  /\ length (calls (lovrGpuInit false)) = 5%nat
  /\ binding_changes (lovrGpuInit false) (binding_updates example_requests) = 3%nat
  /\ single_call_changes (toggles (lovrGpuInit false)) (pipelines example_requests) = 4%nat
  /\ blend_changes (toggles (lovrGpuInit false)) (pipelines example_requests) = 3%nat
  /\ depth_test_calls false COMPARE_LESS
       (map Pipeline.depthTest (pipelines example_requests)) = 3%nat
  /\ stencil_calls false (Applied COMPARE_NONE, 0%Z)
       (map stencil_request (pipelines example_requests)) = 4%nat.
Proof. vm_compute. repeat split; reflexivity. Qed.


(** A change may also issue no call at all: right after [lovrGpuInit] the
    depth test is cached as [COMPARE_LESS] but disabled, and a draw that
    asks for no depth test changes the cached value without a call. *)
Example depth_test_change_no_call :
  let pipeline :=
    Pipeline.mk BLEND_ALPHA BLEND_ALPHA_MULTIPLY false COMPARE_NONE true 1%float
                COMPARE_NONE 0 WINDING_COUNTERCLOCKWISE false in
  calls (draw_depthTest pipeline after_first_draw) = calls after_first_draw
  /\ depthTest (toggles after_first_draw) = COMPARE_LESS
  /\ depthTest (toggles (draw_depthTest pipeline after_first_draw)) = COMPARE_NONE.
Proof. vm_compute. repeat split; reflexivity. Qed.

(** A stencil change issues up to three calls: the first draw with a
    stencil test enables it and sets its function and operation. *)
Example stencil_change_three_calls :
  let pipeline :=
    Pipeline.mk BLEND_ALPHA BLEND_ALPHA_MULTIPLY false COMPARE_LESS true 1%float
                COMPARE_EQUAL 1 WINDING_COUNTERCLOCKWISE false in
  calls (draw_stencil pipeline after_first_draw)
  = calls after_first_draw
    ++ [glEnable GL_STENCIL_TEST; glStencilFunc GL_EQUAL 1 255;
        glStencilOp GL_KEEP GL_KEEP GL_KEEP]
  /\ changes (stencil_cached (toggles after_first_draw)) [stencil_request pipeline]
     = 1%nat.
Proof. vm_compute. split; reflexivity. Qed.

End StateCache.

(** * Shaders: the client-side cache of uniform values

    [struct Shader], [lovrShaderSetUniform] with its four typed entry
    points, and the flush of dirty uniforms in [lovrShaderBind]. *)

Module Shaders.
Local Open Scope Z_scope.

Inductive UniformType :=
| UNIFORM_FLOAT | UNIFORM_INT | UNIFORM_MATRIX | UNIFORM_SAMPLER.

#[global] Instance UniformType_eq_dec : EqDecision UniformType.
Proof. solve_decision. Defined.

(** [Uniform]. [value] is the block of [size] bytes behind [value.data]
    (also read as [ints], [floats] and [textures]). *)
Record Uniform := mkUniform {
  name : string;
  type : UniformType;
  components : Z;
  count : Z;
  location : Z;
  offset : Z;
  size : Z;
  value : list Z;
  baseTextureSlot : Z;
  dirty : bool
}.

Definition set_value (v : list Z) (u : Uniform) : Uniform :=
  mkUniform (name u) (type u) (components u) (count u) (location u) (offset u)
            (size u) v (baseTextureSlot u) (dirty u).

Definition set_dirty (d : bool) (u : Uniform) : Uniform :=
  mkUniform (name u) (type u) (components u) (count u) (location u) (offset u)
            (size u) (value u) (baseTextureSlot u) d.

Definition set_offset (o : Z) (u : Uniform) : Uniform :=
  mkUniform (name u) (type u) (components u) (count u) (location u) o
            (size u) (value u) (baseTextureSlot u) (dirty u).

(** [UniformBlock]; [source] is the buffer of the block it points to
    ([source->buffer]), if any. *)
Record UniformBlock := mkUniformBlock {
  index : Z;
  binding : nat;
  source : option Z
}.

Record Shader := mkShader {
  program : Z;
  uniforms : gmap string Uniform;
  blocks : gmap string UniformBlock;
  attributes : gmap string Z
}.

Definition set_uniforms (m : gmap string Uniform) (s : Shader) : Shader :=
  mkShader (program s) m (blocks s) (attributes s).

(** What [lovrAssert] throws in [lovrShaderSetUniform], with the
    arguments of its format string. *)
Inductive error :=
| UnableToSend (debug uniform_name : string)
| ExpectedAtMost (capacity : Z) (debug plural uniform_name : string) (got : Z).

Inductive outcome := Returned | Thrown (e : error).

(** Conversion to [size_t] (64 bits). *)
Definition size_t (z : Z) : Z := z mod 2 ^ 64.

(** [count * size], computed in [size_t]. *)
Definition byte_count (count_ size_ : Z) : Z := size_t (size_t count_ * size_).

(** [lovrShaderSetUniform]. [data] is the memory behind the pointer: it
    has to hold [count * size] bytes. [size] is the [sizeof] of one element
    in each of the four callers, so the division is defined. The state
    after a throw is the state at the throw. *)
Definition lovrShaderSetUniform (shader : Shader) (name_ : string)
  (type_ : UniformType) (data : list Z) (count_ size_ : Z) (debug : string)
  : Shader * outcome :=
  match uniforms shader !! name_ with
  | None => (shader, Returned)
  | Some uniform =>
    let capacity := size_t (size uniform) / size_ in
    let plural := if 1 <? capacity then "s"%string else ""%string in
    let n := byte_count count_ size_ in
    if negb (bool_decide (type uniform = type_))
    then (shader, Thrown (UnableToSend debug (name uniform)))
    else if negb (n <=? size_t (size uniform))
    then (shader, Thrown (ExpectedAtMost capacity debug plural (name uniform) count_))
    else if negb (dirty uniform)
            && bool_decide (take (Z.to_nat n) (value uniform) = take (Z.to_nat n) data)
    then (shader, Returned)
    else
      let uniform' :=
        set_dirty true
          (set_value (take (Z.to_nat n) data ++ drop (Z.to_nat n) (value uniform))
                     uniform) in
      (set_uniforms (<[name_ := uniform']> (uniforms shader)) shader, Returned)
  end.

(** [sizeof(float)], [sizeof(int)], [sizeof(Texture * )]. *)
Definition sizeof_float : Z := 4.
Definition sizeof_int : Z := 4.
Definition sizeof_pointer : Z := 8.

Definition lovrShaderSetFloat (shader : Shader) (name_ : string) (data : list Z)
  (count_ : Z) : Shader * outcome :=
  lovrShaderSetUniform shader name_ UNIFORM_FLOAT data count_ sizeof_float "float".

Definition lovrShaderSetInt (shader : Shader) (name_ : string) (data : list Z)
  (count_ : Z) : Shader * outcome :=
  lovrShaderSetUniform shader name_ UNIFORM_INT data count_ sizeof_int "int".

Definition lovrShaderSetMatrix (shader : Shader) (name_ : string) (data : list Z)
  (count_ : Z) : Shader * outcome :=
  lovrShaderSetUniform shader name_ UNIFORM_MATRIX data count_ sizeof_float "float".

Definition lovrShaderSetTexture (shader : Shader) (name_ : string) (data : list Z)
  (count_ : Z) : Shader * outcome :=
  lovrShaderSetUniform shader name_ UNIFORM_SAMPLER data count_ sizeof_pointer "texture".

(** The cached value of a uniform, as [lovrShaderSetUniform] reads it. *)
Definition cached_value (shader : Shader) (name_ : string) : option (list Z) :=
  value <$> uniforms shader !! name_.

(** What [lovrShaderBind] calls: the [glUniform*] uploads, and the state
    cache for textures and uniform buffers. *)
Inductive bind_call :=
| glUniform_fv (components_ location_ count_ : Z) (data : list Z)
| glUniform_iv (components_ location_ count_ : Z) (data : list Z)
| glUniformMatrix_fv (components_ location_ count_ : Z) (data : list Z)
| lovrGpuBindTexture (texture : list Z) (slot : Z)
| lovrGpuBindUniformBuffer (buffer : Z) (slot : nat).

Definition is_upload (c : bind_call) : bool :=
  match c with
  | glUniform_fv _ _ _ _ | glUniform_iv _ _ _ _ | glUniformMatrix_fv _ _ _ _ => true
  | _ => false
  end.

(** The body of the loop over the uniforms in [lovrShaderBind]. *)
Definition flush_uniform (uniform : Uniform) : Uniform * list bind_call :=
  if negb (bool_decide (type uniform = UNIFORM_SAMPLER)) && negb (dirty uniform)
  then (uniform, [])
  else
    let c := components uniform in
    (set_dirty false uniform,
     match type uniform with
     | UNIFORM_FLOAT =>
       if (1 <=? c) && (c <=? 4)
       then [glUniform_fv c (location uniform) (count uniform) (value uniform)]
       else []
     | UNIFORM_INT =>
       if (1 <=? c) && (c <=? 4)
       then [glUniform_iv c (location uniform) (count uniform) (value uniform)]
       else []
     | UNIFORM_MATRIX =>
       if (2 <=? c) && (c <=? 4)
       then [glUniformMatrix_fv c (location uniform) (count uniform) (value uniform)]
       else []
     | UNIFORM_SAMPLER =>
       map (fun i : nat =>
              lovrGpuBindTexture
                (take 8 (drop (8 * i) (value uniform)))
                (baseTextureSlot uniform + Z.of_nat i))
           (seq 0 (Z.to_nat (count uniform)))
     end).

(** [lovrShaderBind]: every uniform in the order of the map, then every
    block. *)
Definition lovrShaderBind (shader : Shader) : Shader * list bind_call :=
  (set_uniforms ((fun u => (flush_uniform u).1) <$> uniforms shader) shader,
   (map_to_list (uniforms shader) ≫= (fun kv => (flush_uniform kv.2).2))
   ++ map (fun kv => lovrGpuBindUniformBuffer (default 0 (source kv.2)) (binding kv.2))
          (map_to_list (blocks shader))).

(** The uploads the next flush performs for one uniform. *)
Definition uploads_for (name_ : string) (shader : Shader) : list bind_call :=
  match uniforms shader !! name_ with
  | Some uniform => filter (fun c => is_upload c = true) (flush_uniform uniform).2
  | None => []
  end.

(** ** A shader with one float uniform *)

(** The bytes of the float [1.0]. *)
Definition one_float : list Z := [0; 0; 128; 63].

Definition x_uniform : Uniform :=
  mkUniform "x" UNIFORM_FLOAT 1 1 0 0 4 [0; 0; 0; 0] (-1) false.

Definition x_shader : Shader := mkShader 1 {["x"%string := x_uniform]} ∅ ∅.

(** ** The cases of [lovrShaderSetUniform] *)

Section SetUniform.

Variable shader : Shader.
Variable name_ : string.
Variable type_ : UniformType.
Variable data : list Z.
Variables count_ size_ : Z.
Variable debug : string.

Let n : nat := Z.to_nat (byte_count count_ size_).

Lemma set_unknown :
  uniforms shader !! name_ = None ->
  lovrShaderSetUniform shader name_ type_ data count_ size_ debug = (shader, Returned).
Proof. intros H. unfold lovrShaderSetUniform. rewrite H. reflexivity. Qed.

Lemma set_type_mismatch uniform :
  uniforms shader !! name_ = Some uniform ->
  type uniform <> type_ ->
  lovrShaderSetUniform shader name_ type_ data count_ size_ debug
  = (shader, Thrown (UnableToSend debug (name uniform))).
Proof.
  intros H Hty. unfold lovrShaderSetUniform. rewrite H.
  rewrite bool_decide_eq_false_2 by assumption. reflexivity.
Qed.

Lemma set_over_capacity uniform :
  uniforms shader !! name_ = Some uniform ->
  size_t (size uniform) < byte_count count_ size_ ->
  exists e,
    lovrShaderSetUniform shader name_ type_ data count_ size_ debug
    = (shader, Thrown e).
Proof.
  intros H Hcap. unfold lovrShaderSetUniform. rewrite H.
  case_bool_decide; simpl; [|eexists; reflexivity].
  destruct (Z.leb_spec (byte_count count_ size_) (size_t (size uniform))); [lia|].
  simpl. eexists. reflexivity.
Qed.

Lemma set_noop uniform :
  uniforms shader !! name_ = Some uniform ->
  type uniform = type_ ->
  byte_count count_ size_ <= size_t (size uniform) ->
  dirty uniform = false ->
  take n (value uniform) = take n data ->
  lovrShaderSetUniform shader name_ type_ data count_ size_ debug = (shader, Returned).
Proof.
  intros H Hty Hcap Hd Heq. unfold lovrShaderSetUniform. rewrite H.
  rewrite bool_decide_eq_true_2 by assumption. simpl.
  destruct (Z.leb_spec (byte_count count_ size_) (size_t (size uniform))); [|lia].
  simpl. rewrite Hd. fold n. rewrite bool_decide_eq_true_2 by assumption.
  reflexivity.
Qed.

(** A set that passes the checks returns, and the uniform then holds
    the bytes that were sent. *)
Lemma set_fits uniform :
  uniforms shader !! name_ = Some uniform ->
  type uniform = type_ ->
  byte_count count_ size_ <= size_t (size uniform) ->
  (n <= length data)%nat ->
  exists shader' uniform',
    lovrShaderSetUniform shader name_ type_ data count_ size_ debug = (shader', Returned)
    /\ uniforms shader' !! name_ = Some uniform'
    /\ type uniform' = type uniform /\ size uniform' = size uniform
    /\ take n (value uniform') = take n data
    /\ (shader' = shader
        \/ (dirty uniform' = true
            /\ value uniform' = take n data ++ drop n (value uniform)
            /\ shader' = set_uniforms (<[name_ := uniform']> (uniforms shader)) shader)).
Proof.
  intros H Hty Hcap Hdata. unfold lovrShaderSetUniform. rewrite H.
  rewrite bool_decide_eq_true_2 by assumption. simpl.
  destruct (Z.leb_spec (byte_count count_ size_) (size_t (size uniform))); [|lia].
  simpl. fold n.
  destruct (negb (dirty uniform) && bool_decide (take n (value uniform) = take n data))
    eqn:G.
  - apply andb_true_iff in G as [_ G]. apply bool_decide_eq_true_1 in G.
    exists shader, uniform. repeat split; auto.
  - eexists _, _. split; [reflexivity|]. simpl.
    rewrite lookup_insert_eq. repeat split; simpl.
    + rewrite take_app_le by (rewrite length_take; lia).
      apply take_idemp.
    + right. repeat split; reflexivity.
Qed.

End SetUniform.

Lemma byte_count_exact count_ size_ :
  0 <= count_ -> 0 <= size_ -> count_ * size_ < 2 ^ 64 ->
  byte_count count_ size_ = count_ * size_.
Proof.
  intros Hc Hs Hlt. unfold byte_count, size_t.
  destruct (Z.eq_dec size_ 0) as [->|Hnz].
  - rewrite !Z.mul_0_r. reflexivity.
  - assert (count_ < 2 ^ 64) by nia.
    rewrite (Z.mod_small count_) by lia.
    apply Z.mod_small. lia.
Qed.

(** ** An over-capacity set fails, a fitting one is read back (claim C4) *)

(** C4. On an existing uniform, a set call whose [count * size] exceeds
    the uniform's [size] throws and returns the shader as it was, so the
    cached bytes and the dirty flag are untouched; a set call of the
    uniform's type whose [count * size] bytes fit returns normally, and
    the cached value then starts with the bytes that were sent. *)
Theorem lovrShaderSetUniform_capacity (shader : Shader) (name_ : string)
  (type_ : UniformType) (data : list Z) (count_ size_ : Z) (debug : string)
  (uniform : Uniform) :
  uniforms shader !! name_ = Some uniform ->
  0 <= count_ -> 0 < size_ -> count_ * size_ < 2 ^ 64 ->
  0 <= size uniform < 2 ^ 64 ->
  (size uniform < count_ * size_ ->
   exists e,
     lovrShaderSetUniform shader name_ type_ data count_ size_ debug
     = (shader, Thrown e)
     /\ cached_value shader name_ = Some (value uniform)
     /\ dirty <$> uniforms shader !! name_ = Some (dirty uniform))
  /\ (type uniform = type_ ->
      count_ * size_ <= size uniform ->
      length data = Z.to_nat (count_ * size_) ->
      exists shader',
        lovrShaderSetUniform shader name_ type_ data count_ size_ debug
        = (shader', Returned)
        /\ take (length data) <$> cached_value shader' name_ = Some data).
Proof.
  intros H Hc Hs Hlt Hsz.
  pose proof (byte_count_exact count_ size_ Hc (Z.lt_le_incl _ _ Hs) Hlt) as Hn.
  assert (Hcap : size_t (size uniform) = size uniform)
    by (unfold size_t; apply Z.mod_small; lia).
  split.
  - intros Hover.
    destruct (set_over_capacity shader name_ type_ data count_ size_ debug uniform H)
      as [e He]; [lia|].
    exists e. split; [exact He|]. unfold cached_value. rewrite H. split; reflexivity.
  - intros Hty Hfit Hlen.
    destruct (set_fits shader name_ type_ data count_ size_ debug uniform H Hty)
      as (shader' & uniform' & Hset & Hlook & _ & _ & Htake & _); [lia|lia|].
    exists shader'. split; [exact Hset|].
    unfold cached_value. rewrite Hlook. simpl.
    rewrite Hn in Htake. rewrite Hlen, Htake.
    rewrite take_ge by lia. reflexivity.
Qed.

(** ** A uniform the shader does not have (claim C10) *)

(** C10. A set call that names a uniform the shader's table does not hold
    returns without an error and with the shader as it was; on a uniform
    that exists, a type mismatch or an over-capacity count throws. *)
Theorem lovrShaderSetUniform_unknown (shader : Shader) (name_ : string)
  (type_ : UniformType) (data : list Z) (count_ size_ : Z) (debug : string) :
  (uniforms shader !! name_ = None ->
   lovrShaderSetUniform shader name_ type_ data count_ size_ debug
   = (shader, Returned))
  /\ (forall uniform,
        uniforms shader !! name_ = Some uniform ->
        type uniform <> type_ \/ size_t (size uniform) < byte_count count_ size_ ->
        exists e,
          lovrShaderSetUniform shader name_ type_ data count_ size_ debug
          = (shader, Thrown e)).
Proof.
  split; [apply set_unknown|].
  intros uniform H [Hty|Hcap].
  - eexists. apply set_type_mismatch; eassumption.
  - apply set_over_capacity with uniform; assumption.
Qed.

(** ** The flush *)

Lemma flush_uniform_fst uniform :
  dirty (flush_uniform uniform).1 = false
  /\ value (flush_uniform uniform).1 = value uniform
  /\ type (flush_uniform uniform).1 = type uniform
  /\ size (flush_uniform uniform).1 = size uniform.
Proof.
  unfold flush_uniform.
  destruct (negb (bool_decide (type uniform = UNIFORM_SAMPLER)) && negb (dirty uniform))
    eqn:G; simpl; [|repeat split; reflexivity].
  apply andb_true_iff in G as [_ G]. apply negb_true_iff in G.
  repeat split; assumption.
Qed.

Lemma no_upload_in_texture_binds (f : nat -> list Z) (g : nat -> Z) (l : list nat) :
  filter (fun c => is_upload c = true) (map (fun i => lovrGpuBindTexture (f i) (g i)) l)
  = [].
Proof.
  induction l as [|i l IH]; [reflexivity|].
  simpl. rewrite filter_cons_False by (simpl; discriminate). exact IH.
Qed.

(** A uniform that is not dirty is not uploaded by the flush. *)
Lemma flush_uniform_clean uniform :
  dirty uniform = false ->
  filter (fun c => is_upload c = true) (flush_uniform uniform).2 = [].
Proof.
  intros Hd. unfold flush_uniform. rewrite Hd.
  case_bool_decide as Hty; simpl; [|reflexivity].
  rewrite Hty. apply no_upload_in_texture_binds.
Qed.

Lemma uploads_for_clean shader name_ uniform :
  uniforms shader !! name_ = Some uniform ->
  dirty uniform = false ->
  uploads_for name_ shader = [].
Proof.
  intros H Hd. unfold uploads_for. rewrite H. apply flush_uniform_clean. exact Hd.
Qed.

Lemma lovrShaderBind_lookup shader name_ :
  uniforms (lovrShaderBind shader).1 !! name_
  = (fun u => (flush_uniform u).1) <$> uniforms shader !! name_.
Proof. unfold lovrShaderBind. simpl. apply lookup_fmap. Qed.

Lemma set_idempotent shader name_ type_ data count_ size_ debug uniform :
  uniforms shader !! name_ = Some uniform ->
  type uniform = type_ ->
  byte_count count_ size_ <= size_t (size uniform) ->
  (Z.to_nat (byte_count count_ size_) <= length data)%nat ->
  let s1 := (lovrShaderSetUniform shader name_ type_ data count_ size_ debug).1 in
  lovrShaderSetUniform s1 name_ type_ data count_ size_ debug = (s1, Returned).
Proof.
  intros H Hty Hcap Hdata.
  destruct (set_fits shader name_ type_ data count_ size_ debug uniform H Hty Hcap Hdata)
    as (shader' & uniform' & Hset & Hlook & Hty' & Hsz' & Htake & Hcase).
  rewrite Hset. simpl.
  destruct Hcase as [->|(Hd & Hv & Hs')]; [exact Hset|].
  unfold lovrShaderSetUniform. rewrite Hlook.
  rewrite bool_decide_eq_true_2 by congruence. simpl.
  rewrite Hsz'.
  destruct (Z.leb_spec (byte_count count_ size_) (size_t (size uniform))); [|lia].
  simpl. rewrite Hd. simpl.
  assert (Hu : set_dirty true
                 (set_value (take (Z.to_nat (byte_count count_ size_)) data
                             ++ drop (Z.to_nat (byte_count count_ size_)) (value uniform'))
                            uniform') = uniform').
  { rewrite Hv at 1.
    rewrite drop_app_length' by (rewrite length_take; lia).
    rewrite <- Hv. destruct uniform'. simpl in *. subst. reflexivity. }
  rewrite Hu. f_equal.
  rewrite Hs'. unfold set_uniforms. simpl. rewrite insert_insert_eq. reflexivity.
Qed.

Lemma set_flush_set shader name_ type_ data count_ size_ debug uniform :
  uniforms shader !! name_ = Some uniform ->
  type uniform = type_ ->
  byte_count count_ size_ <= size_t (size uniform) ->
  (Z.to_nat (byte_count count_ size_) <= length data)%nat ->
  let s1 := (lovrShaderSetUniform shader name_ type_ data count_ size_ debug).1 in
  let s2 := (lovrShaderBind s1).1 in
  lovrShaderSetUniform s2 name_ type_ data count_ size_ debug = (s2, Returned)
  /\ uploads_for name_ s2 = [].
Proof.
  intros H Hty Hcap Hdata s1 s2.
  destruct (set_fits shader name_ type_ data count_ size_ debug uniform H Hty Hcap Hdata)
    as (shader' & uniform' & Hset & Hlook & Hty' & Hsz' & Htake & _).
  assert (Hs1 : s1 = shader') by (subst s1; rewrite Hset; reflexivity).
  assert (Hlook2 : uniforms s2 !! name_ = Some (flush_uniform uniform').1).
  { subst s2. rewrite lovrShaderBind_lookup, Hs1, Hlook. reflexivity. }
  destruct (flush_uniform_fst uniform') as (Hd & Hv & Ht & Hs).
  split.
  - apply set_noop with (flush_uniform uniform').1; try assumption.
    + congruence.
    + rewrite Hs, Hsz'. assumption.
    + rewrite Hv. assumption.
  - eapply uploads_for_clean; eassumption.
Qed.

(** ** A redundant set (claim C5) *)

(** C5. A set call of the uniform's type, within its capacity, on a
    uniform that is not dirty and whose cached bytes are the bytes sent,
    returns with the shader as it was (the dirty flag stays false, the
    bytes are unchanged) and the next flush uploads nothing for that
    uniform. Hence a value set twice: the second set leaves the state of
    the first (no dirty-flag transition), and once the first has been
    flushed the second is such a no-op and the flush after it uploads
    nothing for the uniform. *)
Theorem lovrShaderSetUniform_redundant (shader : Shader) (name_ : string)
  (type_ : UniformType) (data : list Z) (count_ size_ : Z) (debug : string)
  (uniform : Uniform) :
  uniforms shader !! name_ = Some uniform ->
  type uniform = type_ ->
  byte_count count_ size_ <= size_t (size uniform) ->
  (Z.to_nat (byte_count count_ size_) <= length data)%nat ->
  let n := Z.to_nat (byte_count count_ size_) in
  let s1 := (lovrShaderSetUniform shader name_ type_ data count_ size_ debug).1 in
  let s2 := (lovrShaderBind s1).1 in
  (dirty uniform = false -> take n (value uniform) = take n data ->
   lovrShaderSetUniform shader name_ type_ data count_ size_ debug = (shader, Returned)
   /\ uploads_for name_ shader = [])
  /\ lovrShaderSetUniform s1 name_ type_ data count_ size_ debug = (s1, Returned)
  /\ lovrShaderSetUniform s2 name_ type_ data count_ size_ debug = (s2, Returned)
  /\ uploads_for name_ s2 = [].
Proof.
  intros H Hty Hcap Hdata n s1 s2. split; [|split].
  - intros Hd Heq. split.
    + apply set_noop with uniform; assumption.
    + eapply uploads_for_clean; eassumption.
  - apply set_idempotent with uniform; assumption.
  - apply set_flush_set with uniform; assumption.
Qed.

(** ** The shader with one float uniform, run *)

Lemma lovrShaderSetUniform_capacity_witness :
  (exists e,
     lovrShaderSetFloat x_shader "x" (one_float ++ one_float) 2 = (x_shader, Thrown e)
     /\ cached_value x_shader "x" = Some [0; 0; 0; 0]
     /\ dirty <$> uniforms x_shader !! "x"%string = Some false)
  /\ (exists shader',
        lovrShaderSetFloat x_shader "x" one_float 1 = (shader', Returned)
        /\ take 4 <$> cached_value shader' "x" = Some one_float).
Proof.
  split.
  - refine (proj1 (lovrShaderSetUniform_capacity x_shader "x" UNIFORM_FLOAT
                     (one_float ++ one_float) 2 sizeof_float "float" x_uniform
                     eq_refl _ _ _ _) _); vm_compute; try split; congruence.
  - refine (proj2 (lovrShaderSetUniform_capacity x_shader "x" UNIFORM_FLOAT
                     one_float 1 sizeof_float "float" x_uniform
                     eq_refl _ _ _ _) eq_refl _ eq_refl);
      vm_compute; try split; congruence.
Defined.

(** Set [x] to [1.0] twice: the second set is a no-op in either order of
    set and flush, and the flush that follows uploads nothing for [x]. *)
Lemma lovrShaderSetUniform_redundant_witness :
  lovrShaderSetFloat (lovrShaderSetFloat x_shader "x" one_float 1).1 "x" one_float 1
  = ((lovrShaderSetFloat x_shader "x" one_float 1).1, Returned)
  /\ uploads_for "x"
       (lovrShaderBind (lovrShaderSetFloat x_shader "x" one_float 1).1).1 = [].
Proof.
  pose proof (lovrShaderSetUniform_redundant x_shader "x" UNIFORM_FLOAT one_float 1
                sizeof_float "float" x_uniform eq_refl eq_refl) as H.
  refine (let H' := H _ _ in conj (proj1 (proj2 H')) (proj2 (proj2 (proj2 H')))).
  - vm_compute. congruence.
  - vm_compute. lia.
Defined.

Example set_twice_trace :
  let s1 := (lovrShaderSetFloat x_shader "x" one_float 1).1 in
  cached_value s1 "x" = Some one_float
  /\ uploads_for "x" s1 = [glUniform_fv 1 0 1 one_float]
  /\ (lovrShaderSetFloat s1 "x" one_float 1).1 = s1.
Proof. vm_compute. repeat split; reflexivity. Qed.

Example set_unknown_uniform :
  lovrShaderSetFloat x_shader "y" one_float 1 = (x_shader, Returned).
Proof. reflexivity. Qed.

Example set_wrong_type :
  lovrShaderSetInt x_shader "x" [1; 0; 0; 0] 1
  = (x_shader, Thrown (UnableToSend "int" "x")).
Proof. reflexivity. Qed.

End Shaders.

(** * Shader blocks: the packing of a uniform buffer

    [struct ShaderBlock] and [lovrShaderBlockCreate]. *)

Module ShaderBlocks.
Local Open Scope Z_scope.

Abbreviation Uniform := Shaders.Uniform.

Definition MAX_SHADER_BLOCK_UNIFORMS : nat := 32.

Record ShaderBlock := mkShaderBlock {
  uniforms : list Uniform;
  uniformCount : nat;
  buffer : Z
}.

(** ** Arithmetic on [int] and [size_t] *)

Definition INT_MIN : Z := -2147483648.
Definition INT_MAX : Z := 2147483647.

(** The product of two [int]s. It is an [int]; a product outside the
    range of [int] is undefined in C, and the model has no value for it. *)
Definition int_mul (a b : Z) : option Z :=
  if (INT_MIN <=? a * b) && (a * b <=? INT_MAX) then Some (a * b) else None.

(** The value a [size_t] leaves in an [int] field: the low 32 bits, read
    as a signed number. *)
Definition int_of_size_t (z : Z) : Z := (z + 2 ^ 31) mod 2 ^ 32 - 2 ^ 31.

(** ** [lovrShaderBlockCreate] *)

(** The [int] the loop of [lovrShaderBlockCreate] advances the offset by
    for one uniform. *)
Definition slot_bytes (u : Uniform) : option Z :=
  if negb (bool_decide (Shaders.type u = Shaders.UNIFORM_MATRIX))
  then if Shaders.count u =? 1 then Some 4 else int_mul (Shaders.count u) 16
  else sq ← int_mul (Shaders.components u) (Shaders.components u); int_mul sq 4.

(** The loop: [uniforms[i].offset = offset; offset += ...] for the first
    [n] uniforms. [offset] is a [size_t], to which the [int] is converted
    before it is added; the field [Uniform.offset] is an [int]. It returns
    the array and the final offset. Entries past the end of the array are
    not touched. *)
Fixpoint assign_offsets (offset : Z) (us : list Uniform) (n : nat) {struct n}
  : option (list Uniform * Z) :=
  match n, us with
  | S n', u :: rest =>
    bytes ← slot_bytes u;
    r ← assign_offsets (Shaders.size_t (offset + bytes)) rest n';
    Some (Shaders.set_offset (int_of_size_t offset) u :: r.1, r.2)
  | _, _ => Some (us, offset)
  end.

(** What [lovrShaderBlockCreate] leaves behind: the block, the caller's
    array (the offsets are written there, after the block took its copy)
    and the GL state. *)
Record created := mkCreated {
  block : ShaderBlock;
  caller_uniforms : list Uniform;
  state : StateCache.State
}.

(** [lovrShaderBlockCreate(uniforms, uniformCount)]; [fresh] is the name
    [glGenBuffers] returns. *)
Definition lovrShaderBlockCreate (us : list Uniform) (count_ : nat) (fresh : Z)
  (st : StateCache.State) : option created :=
  r ← assign_offsets 0 us count_;
  let totalSize := r.2 in
  let st := StateCache.emit (StateCache.glGenBuffers fresh) st in
  let st := StateCache.lovrGpuBindUniformBuffer fresh 0 st in
  let st := StateCache.emit
              (StateCache.glBufferData StateCache.GL_UNIFORM_BUFFER totalSize None
                 StateCache.GL_STATIC_DRAW) st in
  Some (mkCreated (mkShaderBlock us count_ fresh) r.1 st).

(** ** The packing rule *)

(** The rule of the specification with one change: a scalar takes 4
    bytes. Matrices take components squared times 4 bytes, vectors a
    16-byte slot, arrays 16 bytes per element. *)
Definition rule_bytes (u : Uniform) : Z :=
  match Shaders.type u with
  | Shaders.UNIFORM_MATRIX => Shaders.components u * Shaders.components u * 4
  | _ =>
    if Shaders.count u =? 1
    then if Shaders.components u =? 1 then 4 else 16
    else 16 * Shaders.count u
  end.

Definition rule_size (us : list Uniform) : Z :=
  foldr (fun u acc => rule_bytes u + acc) 0 us.

(** The uniforms the rule is stated for: scalars, arrays (count other
    than 1) and single matrices. *)
Definition scalar_array_or_matrix (u : Uniform) : bool :=
  match Shaders.type u with
  | Shaders.UNIFORM_MATRIX => Shaders.count u =? 1
  | _ => negb (Shaders.count u =? 1) || (Shaders.components u =? 1)
  end.

(** *** The packing rule in the words of the specification

    Matrices take components squared times 4 bytes, scalars and vectors a
    16-byte slot, arrays 16 bytes per element. *)
Definition spec_slot_bytes (u : Uniform) : Z :=
  match Shaders.type u with
  | Shaders.UNIFORM_MATRIX => Shaders.components u * Shaders.components u * 4
  | _ => if Shaders.count u =? 1 then 16 else 16 * Shaders.count u
  end.

Fixpoint spec_offsets (offset : Z) (us : list Uniform) : list Z :=
  match us with
  | [] => []
  | u :: rest => offset :: spec_offsets (offset + spec_slot_bytes u) rest
  end.

Definition spec_packed_size (us : list Uniform) : Z :=
  foldr (fun u acc => spec_slot_bytes u + acc) 0 us.

(** *** Example uniforms *)

Definition scalar (name_ : string) : Uniform :=
  Shaders.mkUniform name_ Shaders.UNIFORM_FLOAT 1 1 0 0 4 [0; 0; 0; 0] (-1) false.

Definition mat4 (name_ : string) : Uniform :=
  Shaders.mkUniform name_ Shaders.UNIFORM_MATRIX 4 1 0 0 64 (replicate 64 0) (-1) false.

(** An array of [n] floats. *)
Definition floats (name_ : string) (n : Z) : Uniform :=
  Shaders.mkUniform name_ Shaders.UNIFORM_FLOAT 1 n 0 0 (4 * n)
                    (replicate (Z.to_nat (4 * n)) 0) (-1) false.

Definition vec4 (name_ : string) : Uniform :=
  Shaders.mkUniform name_ Shaders.UNIFORM_FLOAT 4 1 0 0 16 (replicate 16 0) (-1) false.

Definition example_uniforms : list Uniform :=
  [scalar "time"; scalar "scale"; mat4 "transform"].

Definition example_block : list Uniform :=
  [scalar "time"; floats "weights" 3; mat4 "transform"; scalar "scale"].

(** ** The offsets the loop assigns *)

Lemma rule_size_nonneg us :
  (forall u, u ∈ us -> 0 <= Shaders.count u) -> 0 <= rule_size us.
Proof.
  induction us as [|u us IH]; intros H; simpl; [lia|].
  assert (0 <= Shaders.count u) by (apply H, elem_of_cons; left; reflexivity).
  assert (0 <= rule_size us)
    by (apply IH; intros v Hv; apply H, elem_of_cons; right; exact Hv).
  assert (0 <= rule_bytes u); [|lia].
  unfold rule_bytes.
  destruct (Shaders.type u); repeat (destruct (_ =? _)); nia.
Qed.

Lemma int_mul_small a b :
  0 <= a * b < 2 ^ 31 -> int_mul a b = Some (a * b).
Proof.
  intros H. unfold int_mul, INT_MIN, INT_MAX.
  destruct (Z.leb_spec (-2147483648) (a * b)); [|lia].
  destruct (Z.leb_spec (a * b) 2147483647); [reflexivity|lia].
Qed.

(** For a scalar, an array or a single matrix the loop advances by what
    the rule says, as long as that fits an [int]. *)
Lemma slot_bytes_rule u :
  scalar_array_or_matrix u = true -> 0 <= Shaders.count u -> rule_bytes u < 2 ^ 31 ->
  slot_bytes u = Some (rule_bytes u).
Proof.
  unfold scalar_array_or_matrix, slot_bytes, rule_bytes. intros Hu Hc Hlt.
  destruct (Shaders.type u) eqn:Ht;
    try (rewrite bool_decide_eq_false_2 by discriminate; cbn [negb];
         destruct (Z.eqb_spec (Shaders.count u) 1) as [H1|H1];
         [cbn in Hu; rewrite Hu; reflexivity
         |rewrite int_mul_small by lia; f_equal; lia]).
  rewrite bool_decide_eq_true_2 by reflexivity. cbn [negb].
  rewrite int_mul_small by nia. cbn. apply int_mul_small. nia.
Qed.

Lemma int_of_size_t_small z : 0 <= z < 2 ^ 31 -> int_of_size_t z = z.
Proof.
  intros H. unfold int_of_size_t. rewrite Z.mod_small by lia. lia.
Qed.

Lemma assign_offsets_spec n : forall offset us,
  0 <= offset ->
  (forall u, u ∈ take n us -> scalar_array_or_matrix u = true /\ 0 <= Shaders.count u) ->
  offset + rule_size (take n us) < 2 ^ 31 ->
  exists r,
    assign_offsets offset us n = Some r
    /\ r.2 = offset + rule_size (take n us)
    /\ length r.1 = length us
    /\ forall i,
         r.1 !! i
         = (if bool_decide (i < n)%nat
            then Shaders.set_offset (offset + rule_size (take i us))
            else id) <$> us !! i.
Proof.
  induction n as [|n IH]; intros offset us Hoff Hpos Hlt.
  - eexists. split; [reflexivity|]. simpl. split; [lia|]. split; [reflexivity|].
    intros i. destruct (us !! i); reflexivity.
  - destruct us as [|u rest].
    + eexists. split; [reflexivity|]. simpl. split; [lia|]. split; [reflexivity|].
      intros i. reflexivity.
    + cbn [assign_offsets]. rewrite (firstn_cons n u rest) in Hpos, Hlt.
      simpl in Hlt.
      destruct (Hpos u) as [Hu Hc]; [apply elem_of_cons; left; reflexivity|].
      assert (Hrest : forall v, v ∈ take n rest ->
                scalar_array_or_matrix v = true /\ 0 <= Shaders.count v)
        by (intros v Hv; apply Hpos, elem_of_cons; right; exact Hv).
      assert (Hnn : 0 <= rule_size (take n rest))
        by (apply rule_size_nonneg; intros v Hv; apply Hrest, Hv).
      assert (Hub : 0 <= rule_bytes u).
      { pose proof (rule_size_nonneg [u]) as H1. simpl in H1.
        rewrite Z.add_0_r in H1. apply H1. intros v Hv.
        apply list_elem_of_singleton in Hv. subst v. exact Hc. }
      rewrite (slot_bytes_rule u Hu Hc) by lia. cbn [mbind option_bind].
      assert (Hwrap : Shaders.size_t (offset + rule_bytes u) = offset + rule_bytes u)
        by (unfold Shaders.size_t; apply Z.mod_small; lia).
      rewrite Hwrap.
      destruct (IH (offset + rule_bytes u) rest) as (r & Hr & Htot & Hlen & Hlook);
        [lia|assumption|lia|].
      rewrite Hr. cbn [mbind option_bind]. eexists. split; [reflexivity|].
      cbn [fst snd]. rewrite int_of_size_t_small by lia.
      split; [|split].
      * rewrite Htot, (firstn_cons n u rest). simpl. lia.
      * simpl. rewrite Hlen. reflexivity.
      * intros [|i].
        -- simpl. rewrite Z.add_0_r. reflexivity.
        -- simpl. rewrite Hlook.
           assert (Hiff : bool_decide (S i < S n)%nat = bool_decide (i < n)%nat)
             by (apply bool_decide_ext; lia).
           rewrite Hiff. rewrite Z.add_assoc. reflexivity.
Qed.

(** ** The packing rule of the code (claim C7) *)

(** C7, as the code has it. For a block whose uniforms are scalars,
    arrays and single matrices, with counts that are not negative and a
    packed total that fits the [int] field of an offset, the loop gives
    each of the first [uniformCount] uniforms of the caller's array the
    offset that is the sum of the slots before it, where a matrix takes
    components squared times 4 bytes, a scalar 4 bytes (it is not padded to
    a 16-byte slot) and an array 16 bytes per element; the buffer is
    allocated with the sum of all the slots. (The block's own copy of the
    uniforms is taken before the loop.) *)
Theorem lovrShaderBlockCreate_packing (us : list Uniform) (count_ : nat)
  (fresh : Z) (st : StateCache.State) :
  (forall u, u ∈ take count_ us ->
     scalar_array_or_matrix u = true /\ 0 <= Shaders.count u) ->
  rule_size (take count_ us) < 2 ^ 31 ->
  exists r,
    lovrShaderBlockCreate us count_ fresh st = Some r
    /\ (forall u,
          scalar_array_or_matrix u = true ->
          rule_bytes u
          = match Shaders.type u with
            | Shaders.UNIFORM_MATRIX => Shaders.components u * Shaders.components u * 4
            | _ => if Shaders.count u =? 1 then 4 else 16 * Shaders.count u
            end)
    /\ (forall i u,
          (i < count_)%nat -> us !! i = Some u ->
          caller_uniforms r !! i
          = Some (Shaders.set_offset (rule_size (take i us)) u))
    /\ (forall i, (count_ <= i)%nat -> caller_uniforms r !! i = us !! i)
    /\ last (StateCache.calls (state r))
       = Some (StateCache.glBufferData StateCache.GL_UNIFORM_BUFFER
                 (rule_size (take count_ us)) None StateCache.GL_STATIC_DRAW)
    /\ buffer (block r) = fresh
    /\ uniforms (block r) = us.
Proof.
  intros Hpos Hlt.
  destruct (assign_offsets_spec count_ 0 us) as (a & Ha & Htot & _ & Hlook);
    [lia|assumption|lia|].
  unfold lovrShaderBlockCreate. rewrite Ha. cbn [mbind option_bind].
  eexists. split; [reflexivity|]. cbn [caller_uniforms state block buffer uniforms].
  split; [|split; [|split; [|split; [|split]]]].
  - intros u Hu. unfold rule_bytes, scalar_array_or_matrix in *.
    destruct (Shaders.type u); try reflexivity;
      destruct (Shaders.count u =? 1); try reflexivity;
      cbn in Hu; rewrite Hu; reflexivity.
  - intros i u Hi Hu. rewrite Hlook, Hu.
    rewrite bool_decide_eq_true_2 by assumption. simpl. reflexivity.
  - intros i Hi. rewrite Hlook. rewrite bool_decide_eq_false_2 by lia.
    destruct (us !! i); reflexivity.
  - unfold StateCache.emit at 1. cbn [StateCache.calls StateCache.set_calls].
    rewrite last_snoc, Htot. reflexivity.
  - reflexivity.
  - reflexivity.
Qed.

(** *** The block of a scalar, an array, a matrix and a scalar *)

Lemma lovrShaderBlockCreate_packing_witness :
  exists r,
    lovrShaderBlockCreate example_block 4 7 (StateCache.lovrGpuInit false) = Some r
    /\ caller_uniforms r !! 2%nat = Some (Shaders.set_offset 52 (mat4 "transform"))
    /\ caller_uniforms r !! 3%nat = Some (Shaders.set_offset 116 (scalar "scale"))
    /\ last (StateCache.calls (state r))
       = Some (StateCache.glBufferData StateCache.GL_UNIFORM_BUFFER 120 None
                 StateCache.GL_STATIC_DRAW).
Proof.
  assert (Hpos : forall u, u ∈ take 4 example_block ->
            scalar_array_or_matrix u = true /\ 0 <= Shaders.count u).
  { intros u Hu. vm_compute in Hu.
    repeat (apply elem_of_cons in Hu as [->|Hu];
            [split; [reflexivity|vm_compute; congruence]|]).
    apply elem_of_nil in Hu. destruct Hu. }
  assert (Hlt : rule_size (take 4 example_block) < 2 ^ 31)
    by (vm_compute; reflexivity).
  destruct (lovrShaderBlockCreate_packing example_block 4 7
              (StateCache.lovrGpuInit false) Hpos Hlt)
    as (r & Hr & _ & Hoff & _ & Hlast & _).
  exists r. split; [exact Hr|].
  split; [exact (Hoff 2%nat (mat4 "transform") ltac:(lia) eq_refl)|].
  split; [exact (Hoff 3%nat (scalar "scale") ltac:(lia) eq_refl)|exact Hlast].
Defined.

(** The second of two scalars is placed 4 bytes after the first, and the
    buffer of the example is 72 bytes; the rule of 16-byte slots puts the
    second scalar at 16 and asks for 96 bytes. *)
Lemma scalars_are_not_padded :
  exists r,
    lovrShaderBlockCreate example_uniforms 3 7 (StateCache.lovrGpuInit false) = Some r
    /\ map Shaders.offset (caller_uniforms r) = [0; 4; 8]
    /\ spec_offsets 0 example_uniforms = [0; 16; 32]
    /\ last (StateCache.calls (state r))
       = Some (StateCache.glBufferData StateCache.GL_UNIFORM_BUFFER 72 None
                 StateCache.GL_STATIC_DRAW)
    /\ spec_packed_size example_uniforms = 96
    /\ map Shaders.offset (caller_uniforms r) <> spec_offsets 0 example_uniforms.
Proof.
  eexists. split; [vm_compute; reflexivity|].
  vm_compute. repeat split; try reflexivity. discriminate.
Qed.

(** *** What the rule leaves out

    The branch for a count of 1 does not look at the components, and the
    branch for matrices does not look at the count: the uniform after a
    [vec4] is placed 4 bytes after it, inside its 16 bytes. *)
Example vector_slot_is_four_bytes :
  (map Shaders.offset ∘ caller_uniforms)
    <$> lovrShaderBlockCreate [vec4 "color"; scalar "time"] 2 7 (StateCache.lovrGpuInit false)
  = Some [0; 4]
  /\ Shaders.size (vec4 "color") = 16.
Proof. vm_compute. split; reflexivity. Qed.

(** A product that does not fit an [int] has no value, and a negative
    count moves the [size_t] offset backwards: what the [int] field then
    holds is the low 32 bits. *)
Example array_count_out_of_range :
  lovrShaderBlockCreate
    [Shaders.mkUniform "big" Shaders.UNIFORM_FLOAT 1 (2 ^ 27) 0 0 0 [] (-1) false;
     scalar "time"] 2 7 (StateCache.lovrGpuInit false) = None
  /\ (map Shaders.offset ∘ caller_uniforms)
       <$> lovrShaderBlockCreate
             [Shaders.mkUniform "odd" Shaders.UNIFORM_FLOAT 1 (-1) 0 0 0 [] (-1) false;
              scalar "time"] 2 7 (StateCache.lovrGpuInit false)
     = Some [0; -16].
Proof. vm_compute. split; reflexivity. Qed.

End ShaderBlocks.

(** * Meshes: growing the vertex store

    [lovrMeshResize] of the OpenGL backend. *)

Module Meshes.
Local Open Scope Z_scope.

Abbreviation cell := StateCache.cell.

(** The fields of [struct Mesh] that [lovrMeshResize] reads and
    writes: the vertex count, the stride of the vertex format, the usage
    hint, the CPU-side store behind [data.raw] and the name of the vertex
    buffer. *)
Record Mesh := mkMesh {
  count : Z;
  stride : Z;
  usage : StateCache.GLenum;
  data : list cell;
  vbo : Z
}.

(** Modelled from the spec: [nextPo2] (core/util) is not among the
    sources; the specification has growth round the count "to the next
    power of two >= n". The result is a [uint32_t]. *)
Definition nextPo2 (x : Z) : Z := 2 ^ Z.log2_up x mod 2 ^ 32.

(** [realloc(p, n)]: the first [n] bytes of the old block are kept, and
    what the block gains is indeterminate. *)
Definition realloc (n : nat) (old : list cell) : list cell :=
  take n old ++ replicate (n - length old) None.

(** [lovrMeshResize(mesh, count)]. The byte size [count * stride] is
    passed to [realloc] and [glBufferData] as a [size_t]. *)
Definition lovrMeshResize (mesh : Mesh) (count_ : Z) (st : StateCache.State)
  : Mesh * StateCache.State :=
  if count mesh <? count_
  then
    let st := StateCache.lovrGpuBindVertexBuffer (vbo mesh) st in
    let bytes := Shaders.size_t (count_ * stride mesh) in
    let data' := realloc (Z.to_nat bytes) (data mesh) in
    let st := StateCache.emit
                (StateCache.glBufferData StateCache.GL_ARRAY_BUFFER bytes
                   (Some data') (usage mesh)) st in
    (mkMesh (nextPo2 count_) (stride mesh) (usage mesh) data' (vbo mesh), st)
  else (mesh, st).

(** The vertices the CPU store has room for. *)
Definition store_capacity (mesh : Mesh) : Z := Z.of_nat (length (data mesh)) / stride mesh.

(** A mesh of four vertices of 12 bytes. *)
Definition quad : Mesh :=
  mkMesh 4 12 StateCache.GL_STATIC_DRAW (replicate 48 (Some 0)) 1.

(** ** What a resize does *)

Lemma nextPo2_spec n :
  1 <= n <= 2 ^ 31 ->
  exists k, 0 <= k /\ nextPo2 n = 2 ^ k /\ n <= nextPo2 n /\ nextPo2 n < 2 * n.
Proof.
  intros Hn. unfold nextPo2.
  assert (Hk : 0 <= Z.log2_up n) by apply Z.log2_up_nonneg.
  assert (Hle : Z.log2_up n <= 31).
  { change 31 with (Z.log2_up (2 ^ 31)). apply Z.log2_up_le_mono. lia. }
  assert (Hpow : 2 ^ Z.log2_up n <= 2 ^ 31) by (apply Z.pow_le_mono_r; lia).
  assert (Hpos : 0 < 2 ^ Z.log2_up n) by (apply Z.pow_pos_nonneg; lia).
  rewrite Z.mod_small by lia.
  exists (Z.log2_up n). split; [assumption|]. split; [reflexivity|].
  destruct (Z.eq_dec n 1) as [->|Hne].
  - change (Z.log2_up 1) with 0. simpl. lia.
  - pose proof (Z.log2_up_spec n ltac:(lia)) as [Hlo Hhi].
    split; [assumption|].
    replace (Z.log2_up n) with (Z.succ (Z.pred (Z.log2_up n))) at 1 by lia.
    rewrite Z.pow_succ_r; [lia|].
    assert (0 < Z.log2_up n) by (apply Z.log2_up_pos; lia). lia.
Qed.

Lemma length_realloc n old : length (realloc n old) = n.
Proof.
  unfold realloc. rewrite length_app, length_take, length_replicate. lia.
Qed.

Lemma take_realloc n old k :
  (k <= n)%nat -> (k <= length old)%nat -> take k (realloc n old) = take k old.
Proof.
  intros Hn Hk. unfold realloc.
  rewrite take_app_le by (rewrite length_take; lia).
  rewrite take_take. f_equal. lia.
Qed.

(** A resize to a count the mesh already has changes nothing. *)
Lemma lovrMeshResize_within mesh count_ st :
  count_ <= count mesh -> lovrMeshResize mesh count_ st = (mesh, st).
Proof.
  intros H. unfold lovrMeshResize.
  destruct (Z.ltb_spec (count mesh) count_); [lia|reflexivity].
Qed.

(** A resize beyond the count records the rounded count, keeps the
    bytes of the old vertices, and allocates [count * stride] bytes, for
    the count that was asked for, on both sides. *)
Lemma lovrMeshResize_grows mesh count_ st :
  count mesh < count_ ->
  0 <= count mesh -> 0 < stride mesh -> count_ * stride mesh < 2 ^ 64 ->
  length (data mesh) = Z.to_nat (count mesh * stride mesh) ->
  let r := lovrMeshResize mesh count_ st in
  count r.1 = nextPo2 count_
  /\ take (length (data mesh)) (data r.1) = data mesh
  /\ Z.of_nat (length (data r.1)) = count_ * stride mesh
  /\ last (StateCache.calls r.2)
     = Some (StateCache.glBufferData StateCache.GL_ARRAY_BUFFER
               (count_ * stride mesh) (Some (data r.1)) (usage mesh)).
Proof.
  intros Hlt Hc Hs Hno Hlen r. subst r. unfold lovrMeshResize.
  destruct (Z.ltb_spec (count mesh) count_); [|lia].
  assert (Hsz : Shaders.size_t (count_ * stride mesh) = count_ * stride mesh)
    by (unfold Shaders.size_t; apply Z.mod_small; nia).
  rewrite Hsz. cbn [fst snd count data].
  split; [reflexivity|]. split; [|split].
  - rewrite take_realloc; [apply take_ge; lia| |lia].
    rewrite Hlen. apply Z2Nat.inj_le; nia.
  - rewrite length_realloc. rewrite Z2Nat.id by nia. reflexivity.
  - simpl. apply last_snoc.
Qed.

(** ** A mesh of four vertices grown to five (claim C6) *)

(** C6, the failing case. The resize to 5 vertices records a capacity
    of 8 vertices ([mesh->count = nextPo2(5)]) and keeps the 48 bytes of
    the four old vertices, but both the CPU store and the GPU buffer are
    allocated with [5 * stride] = 60 bytes: room for 5 vertices, not for
    the 8 the count promises (96 bytes). *)
Theorem lovrMeshResize_allocates_requested_count :
  count (lovrMeshResize quad 5 (StateCache.lovrGpuInit false)).1 = 8
  /\ take 48 (data (lovrMeshResize quad 5 (StateCache.lovrGpuInit false)).1)
     = data quad
  /\ length (data (lovrMeshResize quad 5 (StateCache.lovrGpuInit false)).1) = 60%nat
  /\ store_capacity (lovrMeshResize quad 5 (StateCache.lovrGpuInit false)).1 = 5
  /\ (exists bytes,
        last (StateCache.calls (lovrMeshResize quad 5 (StateCache.lovrGpuInit false)).2)
        = Some (StateCache.glBufferData StateCache.GL_ARRAY_BUFFER 60 (Some bytes)
                  StateCache.GL_STATIC_DRAW)).
Proof.
  vm_compute. repeat split; try reflexivity. eexists. reflexivity.
Qed.

(** Whenever the requested count is not a power of two, the store is
    smaller than the recorded count. *)
Lemma lovrMeshResize_store_below_count mesh count_ st :
  count mesh < count_ ->
  0 <= count mesh -> 0 < stride mesh -> count_ * stride mesh < 2 ^ 64 ->
  count_ < nextPo2 count_ ->
  let r := lovrMeshResize mesh count_ st in
  Z.of_nat (length (data r.1)) < count r.1 * stride r.1.
Proof.
  intros Hlt Hc Hs Hno Hpo2 r. subst r. unfold lovrMeshResize.
  destruct (Z.ltb_spec (count mesh) count_); [|lia].
  assert (Hsz : Shaders.size_t (count_ * stride mesh) = count_ * stride mesh)
    by (unfold Shaders.size_t; apply Z.mod_small; nia).
  rewrite Hsz. cbn [fst snd count data stride].
  rewrite length_realloc. rewrite Z2Nat.id by nia. nia.
Qed.

End Meshes.

(** * Mipmap counts

    Both generations of the texture code compute the number of mipmap
    levels as [log2(dimension) + 1], a [double] that is converted to an
    integer. *)

Module Mipmaps.
Local Open Scope Z_scope.

(** The conversion to an integer of [log2(x) + 1] for an integer [x].
    For [x >= 1] below [2^32] the double [log2(x)] lies between
    [floor(log2 x)] (reached exactly at the powers of two) and the next
    integer, which a [log2] with an error far below [2^-32] never rounds
    up to, so the truncation is [floor(log2 x) + 1]. For [x <= 0] the
    double is an infinity or a NaN and the conversion is undefined. *)
Definition log2_plus_1 (x : Z) : option Z :=
  if 1 <=? x then Some (Z.log2 x + 1) else None.

(** The count of the specification: [floor(log2(max dimension)) + 1],
    where the depth counts for volume textures only. *)
Definition spec_mipmaps (is_volume : bool) (w h d : Z) : Z :=
  Z.log2 (if is_volume then Z.max (Z.max w h) d else Z.max w h) + 1.

(** [Z.log2] is the floor of the binary logarithm. *)
Lemma log2_floor x : 1 <= x -> 2 ^ Z.log2 x <= x < 2 ^ (Z.log2 x + 1).
Proof. intros H. apply Z.log2_spec. lia. Qed.

End Mipmaps.

(** * Textures of the OpenGL backend: the mipmap count

    The part of [lovrTextureAllocate] that sets [texture->mipmapCount]. *)

Module TextureGL.
Local Open Scope Z_scope.

Inductive TextureType := TEXTURE_2D | TEXTURE_ARRAY | TEXTURE_CUBE | TEXTURE_VOLUME.

#[global] Instance TextureType_eq_dec : EqDecision TextureType.
Proof. solve_decision. Defined.

(** [texture->mipmapCount] after [lovrTextureAllocate], for a texture of
    the given type, depth and [mipmaps] flag and an image of [w] by [h]
    pixels; [None] where the conversion is undefined. *)
Definition lovrTextureAllocate_mipmapCount (type : TextureType) (mipmaps : bool)
  (w h d : Z) : option Z :=
  if mipmaps
  then
    let dimension :=
      if bool_decide (type = TEXTURE_VOLUME) then Z.max (Z.max w h) d else Z.max w h in
    if mipmaps then Mipmaps.log2_plus_1 dimension else Some 1
  else Some 1.

(** In this backend the count is the one of the specification. *)
Lemma lovrTextureAllocate_mipmapCount_spec type w h d :
  1 <= w -> 1 <= h -> 1 <= d ->
  lovrTextureAllocate_mipmapCount type true w h d
  = Some (Mipmaps.spec_mipmaps (bool_decide (type = TEXTURE_VOLUME)) w h d).
Proof.
  intros Hw Hh Hd. unfold lovrTextureAllocate_mipmapCount, Mipmaps.spec_mipmaps,
    Mipmaps.log2_plus_1.
  destruct (bool_decide (type = TEXTURE_VOLUME)).
  - destruct (Z.leb_spec 1 (Z.max (Z.max w h) d)); [reflexivity|lia].
  - destruct (Z.leb_spec 1 (Z.max w h)); [reflexivity|lia].
Qed.

Example mipmaps_2d_4x4 :
  lovrTextureAllocate_mipmapCount TEXTURE_2D true 4 4 1 = Some 3.
Proof. reflexivity. Qed.

End TextureGL.

(** * Textures of the gpu-based graphics module

    [struct Texture], [lovrTextureCreate], [lovrTextureCreateView] and
    [lovrTextureDestroy]. Textures live in a store; a [Texture * ] is the
    index of its texture. *)

Module Textures.
Local Open Scope Z_scope.

Inductive TextureType := TEXTURE_2D | TEXTURE_CUBE | TEXTURE_VOLUME | TEXTURE_ARRAY.

#[global] Instance TextureType_eq_dec : EqDecision TextureType.
Proof. solve_decision. Defined.

(** [TextureView]; [source] is [None] for a null pointer. *)
Record TextureView := mkTextureView {
  source : option nat;
  view_type : TextureType;
  layerIndex : Z;
  layerCount : Z;
  mipmapIndex : Z;
  mipmapCount : Z
}.

(** [TextureInfo]; [format] is the index of the format enumerator. *)
Record TextureInfo := mkTextureInfo {
  view : TextureView;
  type : TextureType;
  format : nat;
  size : Z * Z * Z;
  mipmaps : Z;
  samples : Z;
  usage : Z;
  srgb : bool
}.

Definition set_view (v : TextureView) (i : TextureInfo) : TextureInfo :=
  mkTextureInfo v (type i) (format i) (size i) (mipmaps i) (samples i) (usage i) (srgb i).

Definition set_mipmaps (m : Z) (i : TextureInfo) : TextureInfo :=
  mkTextureInfo (view i) (type i) (format i) (size i) m (samples i) (usage i) (srgb i).

(** A texture in the store: [info], whether its gpu object is
    initialised and not yet destroyed, and the number of references held
    to it (the count that [lovrRetain] and [lovrRelease] keep). *)
Record Texture := mkTexture {
  ref : Z;
  gpu_live : bool;
  info : TextureInfo
}.

Definition set_ref (r : Z) (t : Texture) : Texture :=
  mkTexture r (gpu_live t) (info t).

Definition set_gpu_live (b : bool) (t : Texture) : Texture :=
  mkTexture (ref t) b (info t).

(** Modelled from the spec: the count an object starts with is set by
    allocation code that is not among the sources. A resource is "created
    on request" and "destroyed when its owner releases the last
    reference": it starts with the one reference of its creator. *)
Definition initial_ref : Z := 1.

(** [~0u], the request for an automatic mipmap count. *)
Definition AUTO_MIPMAPS : Z := 4294967295.

(** [info->mipmaps] after the [if] of [lovrTextureCreate]: the value that
    is passed on as [gpuInfo.mipmaps]. *)
Definition lovrTextureCreate_mipmaps (i : TextureInfo) : option Z :=
  if mipmaps i =? AUTO_MIPMAPS
  then Mipmaps.log2_plus_1 (Z.max (Z.max (size i).1.1 (size i).1.2) (size i).2)
  else Some (mipmaps i).

(** What [lovrTextureCreate] leaves: the store, the new texture (if
    nothing was thrown), the caller's [info] and the mipmap count given
    to the gpu layer. *)
Record created := mkCreated {
  store : list Texture;
  texture : option nat;
  caller_info : TextureInfo;
  gpu_mipmaps : option Z
}.

(** [lovrTextureCreate(info)]; [gpu_ok] is the result of
    [gpu_texture_init]. The texture copies [info] before the mipmap count
    is computed, and starts with the reference of its creator. *)
Definition lovrTextureCreate (i : TextureInfo) (gpu_ok : bool) (h : list Texture)
  : created :=
  let m := lovrTextureCreate_mipmaps i in
  let i' := set_mipmaps (default (mipmaps i) m) i in
  if gpu_ok
  then mkCreated (h ++ [mkTexture initial_ref true i]) (Some (length h)) i' m
  else mkCreated (h ++ [mkTexture initial_ref false i]) None i' m.

(** Modelled from the spec: [lovrRetain] is not among the sources.
    "Shared ownership increments a count on attach": one more reference
    to the object. *)
Definition lovrRetain (obj : nat) (h : list Texture) : list Texture :=
  alter (fun t => set_ref (ref t + 1) t) obj h.

(** Modelled from the spec: [lovrRelease] is not among the sources. The
    count "decrements on detach or owner destruction; the underlying
    hardware object is destroyed only when the count reaches zero": one
    reference less, and the destructor runs when none is left. The
    destructor may run out of fuel ([None]). *)
Definition lovrRelease (destructor : nat -> list Texture -> option (list Texture))
  (obj : nat) (h : list Texture) : option (list Texture) :=
  match h !! obj with
  | None => Some h
  | Some t =>
    let h' := alter (set_ref (ref t - 1)) obj h in
    if ref t - 1 =? 0 then destructor obj h' else Some h'
  end.

(** [lovrTextureCreateView(view)]; [gpu_ok] is the result of
    [gpu_texture_init_view]. A null or dangling [view->source] is
    undefined in C: the model creates nothing. *)
Definition lovrTextureCreateView (v : TextureView) (gpu_ok : bool) (h : list Texture)
  : list Texture * option nat :=
  match source v with
  | None => (h, None)
  | Some src =>
    match h !! src with
    | None => (h, None)
    | Some s =>
      let t := mkTexture initial_ref gpu_ok (set_view v (info s)) in
      if gpu_ok
      then (lovrRetain src (h ++ [t]), Some (length h))
      else (h ++ [t], None)
    end
  end.

(** [lovrTextureDestroy(ref)]: the gpu object of the texture is
    destroyed, and a view releases its source, with itself as the
    destructor. The chain of sources is followed for [fuel] textures. *)
Fixpoint lovrTextureDestroy (fuel : nat) (t : nat) (h : list Texture)
  : option (list Texture) :=
  match fuel with
  | O => None
  | S fuel' =>
    match h !! t with
    | None => Some h
    | Some tex =>
      let h := alter (set_gpu_live false) t h in
      match source (view (info tex)) with
      | Some src => lovrRelease (lovrTextureDestroy fuel') src h
      | None => Some h
      end
    end
  end.

(** [k] owners release the texture [t], one after the other. *)
Fixpoint release_times (fuel k : nat) (t : nat) (h : list Texture)
  : option (list Texture) :=
  match k with
  | O => Some h
  | S k' =>
    match lovrRelease (lovrTextureDestroy fuel) t h with
    | Some h' => release_times fuel k' t h'
    | None => None
    end
  end.

(** ** Textures for the examples *)

(** A 2D texture of 4 by 4 pixels with automatic mipmaps. *)
Definition no_view : TextureView := mkTextureView None TEXTURE_2D 0 0 0 0.

Definition info_2d_4x4 : TextureInfo :=
  mkTextureInfo no_view TEXTURE_2D 2 (4, 4, 1) AUTO_MIPMAPS 1 1 true.

(** An array texture of 16 layers of 4 by 4 pixels. *)
Definition info_array_4x4x16 : TextureInfo :=
  mkTextureInfo no_view TEXTURE_ARRAY 2 (4, 4, 16) AUTO_MIPMAPS 1 1 true.

(** A texture and a view of its first mipmap level. *)
Definition base_texture : Texture := mkTexture 1 true info_2d_4x4.

Definition first_level : TextureView := mkTextureView (Some 0%nat) TEXTURE_2D 0 1 0 1.

(** The store after the view is created: texture 0 has two references. *)
Definition with_view : list Texture :=
  (lovrTextureCreateView first_level true [base_texture]).1.

(** The owner of the texture releases it while the view is alive, and
    then the view is released: its destruction releases the last
    reference to the source, whose gpu object is destroyed too. *)
Definition owner_released : option (list Texture) :=
  lovrRelease (lovrTextureDestroy 2) 0 with_view.

(** ** The automatic mipmap count (claim C8) *)

(** Where the third size is not larger than width and height, and for
    volume textures, the count is the one of the specification. *)
Lemma lovrTextureCreate_mipmaps_spec i :
  mipmaps i = AUTO_MIPMAPS ->
  1 <= (size i).1.1 -> 1 <= (size i).1.2 -> 1 <= (size i).2 ->
  type i = TEXTURE_VOLUME \/ (size i).2 <= Z.max (size i).1.1 (size i).1.2 ->
  lovrTextureCreate_mipmaps i
  = Some (Mipmaps.spec_mipmaps (bool_decide (type i = TEXTURE_VOLUME))
            (size i).1.1 (size i).1.2 (size i).2).
Proof.
  intros Hauto Hw Hh Hd Hcase.
  unfold lovrTextureCreate_mipmaps, Mipmaps.log2_plus_1, Mipmaps.spec_mipmaps.
  rewrite Hauto, Z.eqb_refl.
  destruct (Z.leb_spec 1 (Z.max (Z.max (size i).1.1 (size i).1.2) (size i).2)); [|lia].
  case_bool_decide as Hty; [reflexivity|].
  destruct Hcase as [Hv|Hle]; [contradiction|].
  rewrite (Z.max_l _ (size i).2) by lia. reflexivity.
Qed.

Example lovrTextureCreate_2d_4x4 :
  gpu_mipmaps (lovrTextureCreate info_2d_4x4 true []) = Some 3.
Proof. reflexivity. Qed.

(** C8, the failing case. [lovrTextureCreate] takes the maximum over all
    three sizes whatever the type of the texture: 16 layers of 4 by 4
    pixels get 5 mipmap levels, where [floor(log2(max(4, 4))) + 1] is 3. *)
Theorem lovrTextureCreate_counts_layers :
  gpu_mipmaps (lovrTextureCreate info_array_4x4x16 true []) = Some 5
  /\ Mipmaps.spec_mipmaps (bool_decide (type info_array_4x4x16 = TEXTURE_VOLUME)) 4 4 16
     = 3
  /\ TextureGL.lovrTextureAllocate_mipmapCount TextureGL.TEXTURE_ARRAY true 4 4 16
     = Some 3.
Proof. vm_compute. repeat split; reflexivity. Qed.

(** ** Views and their sources (claim C9) *)

Lemma set_ref_same t : set_ref (ref t) t = t.
Proof. destruct t; reflexivity. Qed.

Lemma lovrTextureCreateView_ok h v src s :
  source v = Some src -> h !! src = Some s ->
  lovrTextureCreateView v true h
  = (lovrRetain src (h ++ [mkTexture initial_ref true (set_view v (info s))]),
     Some (length h)).
Proof.
  intros Hv Hs. unfold lovrTextureCreateView. rewrite Hv, Hs. reflexivity.
Qed.

(** Destroying a view when its source has another reference. *)
Lemma lovrTextureDestroy_view_kept h vi vt src st fuel :
  h !! vi = Some vt ->
  source (view (info vt)) = Some src ->
  h !! src = Some st -> vi <> src ->
  ref st <> 1 ->
  lovrTextureDestroy (S fuel) vi h
  = Some (alter (set_ref (ref st - 1)) src (alter (set_gpu_live false) vi h)).
Proof.
  intros Hvt Hsrc Hst Hne Href. cbn [lovrTextureDestroy].
  rewrite Hvt, Hsrc. unfold lovrRelease.
  rewrite list_lookup_alter_ne by assumption. rewrite Hst.
  destruct (Z.eqb_spec (ref st - 1) 0); [lia|reflexivity].
Qed.

(** Destroying a view that holds the last reference to a source that is
    not itself a view: the source is destroyed with it. *)
Lemma lovrTextureDestroy_view_last h vi vt src st fuel :
  h !! vi = Some vt ->
  source (view (info vt)) = Some src ->
  h !! src = Some st -> vi <> src ->
  ref st = 1 ->
  source (view (info st)) = None ->
  lovrTextureDestroy (S (S fuel)) vi h
  = Some (alter (set_gpu_live false) src
            (alter (set_ref 0) src (alter (set_gpu_live false) vi h))).
Proof.
  intros Hvt Hsrc Hst Hne Href Hroot. cbn [lovrTextureDestroy].
  rewrite Hvt, Hsrc. unfold lovrRelease.
  rewrite list_lookup_alter_ne by assumption. rewrite Hst, Href. simpl.
  rewrite list_lookup_alter_eq, list_lookup_alter_ne by assumption.
  rewrite Hst. simpl. rewrite Hroot. reflexivity.
Qed.

(** Releases that leave a reference do not run the destructor. *)
Lemma release_times_kept fuel k : forall h src st,
  h !! src = Some st -> Z.of_nat k < ref st ->
  exists h', release_times fuel k src h = Some h'
    /\ h' !! src = Some (set_ref (ref st - Z.of_nat k) st)
    /\ forall j, j <> src -> h' !! j = h !! j.
Proof.
  induction k as [|k IH]; intros h src st Hst Hk.
  - exists h. simpl. rewrite Z.sub_0_r, set_ref_same. auto.
  - cbn [release_times]. unfold lovrRelease. rewrite Hst.
    destruct (Z.eqb_spec (ref st - 1) 0); [lia|].
    destruct (IH (alter (set_ref (ref st - 1)) src h) src (set_ref (ref st - 1) st))
      as (h' & Hrel & Hsrc & Hother).
    + rewrite list_lookup_alter_eq, Hst. reflexivity.
    + simpl. lia.
    + exists h'. split; [exact Hrel|]. split.
      * rewrite Hsrc. simpl. unfold set_ref. simpl. f_equal. f_equal. lia.
      * intros j Hj. rewrite Hother by assumption.
        apply list_lookup_alter_ne. congruence.
Qed.

(** C9, as the code has it. Creating a view adds one reference to the
    source. Destroying the view destroys the view's gpu object and
    releases that one reference: the source keeps its gpu storage as long
    as another reference to it remains (it is destroyed with the view
    when the view held the last one). While the view is alive its
    reference is not released, so the releases of the other owners leave
    the source a reference and do not destroy it. *)
Theorem texture_view_retains_source :
  (forall h v src s,
     source v = Some src -> h !! src = Some s ->
     let r := lovrTextureCreateView v true h in
     r.2 = Some (length h)
     /\ r.1 !! src = Some (set_ref (ref s + 1) s)
     /\ r.1 !! length h = Some (mkTexture initial_ref true (set_view v (info s))))
  /\ (forall h vi vt src st fuel,
        h !! vi = Some vt -> source (view (info vt)) = Some src ->
        h !! src = Some st -> vi <> src ->
        ref st <> 1 ->
        exists h',
          lovrTextureDestroy (S fuel) vi h = Some h'
          /\ h' !! src = Some (set_ref (ref st - 1) st)
          /\ h' !! vi = Some (set_gpu_live false vt)
          /\ forall j, j <> vi -> j <> src -> h' !! j = h !! j)
  /\ (forall h src st fuel k,
        h !! src = Some st -> Z.of_nat k < ref st ->
        exists h',
          release_times fuel k src h = Some h'
          /\ h' !! src = Some (set_ref (ref st - Z.of_nat k) st)).
Proof.
  split; [|split].
  - intros h v src s Hv Hs r. subst r.
    rewrite (lovrTextureCreateView_ok h v src s Hv Hs). cbn [fst snd].
    assert (Hlt : (src < length h)%nat) by (eapply lookup_lt_Some; eassumption).
    unfold lovrRetain. split; [reflexivity|]. split.
    + rewrite list_lookup_alter_eq, lookup_app_l by assumption.
      rewrite Hs. reflexivity.
    + rewrite list_lookup_alter_ne by lia.
      rewrite lookup_app_r by lia. rewrite Nat.sub_diag. reflexivity.
  - intros h vi vt src st fuel Hvt Hsrc Hst Hne Href.
    eexists. split; [apply lovrTextureDestroy_view_kept with vt; eassumption|].
    split; [|split].
    + rewrite list_lookup_alter_eq, list_lookup_alter_ne by assumption.
      rewrite Hst. reflexivity.
    + rewrite list_lookup_alter_ne by congruence.
      rewrite list_lookup_alter_eq, Hvt. reflexivity.
    + intros j Hj1 Hj2. rewrite !list_lookup_alter_ne by congruence. reflexivity.
  - intros h src st fuel k Hst Hk.
    destruct (release_times_kept fuel k h src st Hst Hk) as (h' & Hrel & Hsrc & _).
    exists h'. split; assumption.
Qed.

(** *** The view of the example, created and destroyed *)

Lemma texture_view_retains_source_witness :
  with_view !! 0%nat = Some (set_ref 2 base_texture)
  /\ (exists h',
        lovrTextureDestroy 1 1 with_view = Some h'
        /\ h' !! 0%nat = Some base_texture).
Proof.
  split.
  - exact (proj1 (proj2 (proj1 texture_view_retains_source [base_texture] first_level
                           0%nat base_texture eq_refl eq_refl))).
  - destruct (proj1 (proj2 texture_view_retains_source) with_view 1%nat
                (mkTexture initial_ref true (set_view first_level info_2d_4x4))
                0%nat (set_ref 2 base_texture) 0%nat eq_refl eq_refl eq_refl)
      as (h' & Hd & Hsrc & _).
    + discriminate.
    + vm_compute. discriminate.
    + exists h'. split; [exact Hd|exact Hsrc].
Defined.

(** The owner of the texture releases it while the view is alive, and
    then the view is released: its destruction releases the last
    reference to the source, whose gpu object is destroyed too. *)
Lemma view_destruction_destroys_unowned_source :
  owner_released = Some [mkTexture 1 true info_2d_4x4;
                         mkTexture 1 true (set_view first_level info_2d_4x4)]
  /\ (owner_released ≫= lovrRelease (lovrTextureDestroy 2) 1)
     = Some [mkTexture 0 false info_2d_4x4;
             mkTexture 0 false (set_view first_level info_2d_4x4)].
Proof. vm_compute. split; reflexivity. Qed.

End Textures.

(** * Runs of the synchronization tracker

    Sequences of [lovrBufferCreate] and [lovrBufferMap] from the state
    that [lovrGraphicsCreateWindow] leaves: what the tracking lists hold,
    and when a run issues barriers. *)

Module SyncRuns.
Import Bits Sync.
Local Open Scope Z_scope.

(** One call into the buffer interface. *)
Inductive op :=
| Create (size usage : Z)
| Map (buffer : nat) (offset size : Z).

Section Runs.

Variable GPU_ACCESS_COUNT : nat.
Variable GPU_WRITE_COLOR_TARGET : nat.
Variable GPU_WRITE_DEPTH_TARGET : nat.
Variable GPU_WRITE_COMPUTE_SHADER_STORAGE : nat.
Variable GPU_WRITE_UPLOAD : nat.

Definition map_buffer : nat -> Z -> Z -> State -> State :=
  lovrBufferMap GPU_ACCESS_COUNT GPU_WRITE_COLOR_TARGET GPU_WRITE_DEPTH_TARGET
                GPU_WRITE_COMPUTE_SHADER_STORAGE GPU_WRITE_UPLOAD.

(** The tracker after [lovrGraphicsCreateWindow]: [arr_init] on each of
    the [GPU_ACCESS_COUNT] lists, and no buffer yet. *)
Definition window_created : State :=
  mkState [] (replicate GPU_ACCESS_COUNT []) [].

Definition apply_op (st : State) (o : op) : State :=
  match o with
  | Create size usage => (lovrBufferCreate size usage st).1
  | Map b offset size => map_buffer b offset size st
  end.

Definition run (ops : list op) (st : State) : State := foldl apply_op st ops.

(** The tracking lists have one entry per category, hold no buffer
    twice, and hold only buffers whose bit of the category is pending. *)
Definition well_listed (st : State) : Prop :=
  length (sync st) = GPU_ACCESS_COUNT
  /\ forall i l, sync st !! i = Some l ->
       NoDup l
       /\ forall r, r ∈ l ->
            exists buf, buffers st !! r = Some buf
                        /\ Z.testbit (access buf) (Z.of_nat i) = true.

(** Map every buffer of [bs] once, in order. *)
Definition map_all (bs : list nat) (offset size : Z) (st : State) : State :=
  foldl (fun s b => map_buffer b offset size s) st bs.

(** The barrier leaves the bits of the categories that are not pending
    in [before] as they are. *)
Lemma clear_upto_bits before bufs lists n r buf :
  bufs !! r = Some buf ->
  exists buf',
    (clear_upto before bufs lists n).1 !! r = Some buf'
    /\ forall k, 0 <= k -> Z.testbit before k = false ->
         Z.testbit (access buf') k = Z.testbit (access buf) k.
Proof.
  intros Hr. induction n as [|n IH].
  - exists buf. split; [exact Hr|]. reflexivity.
  - destruct IH as (buf1 & H1 & Hbits).
    rewrite clear_upto_S, barrier_step_test.
    destruct (Z.testbit before (Z.of_nat n)) eqn:Hn.
    + cbn [fst]. rewrite clear_tracked_lookup, H1. cbn [fmap option_fmap option_map].
      eexists. split; [reflexivity|].
      intros k Hk Hbk. rewrite <- (Hbits k Hk Hbk).
      case_bool_decide; [|reflexivity].
      rewrite clear_access_bit_testbit by assumption.
      destruct (Z.eqb_spec (Z.of_nat n) k) as [<-|_]; [congruence|].
      apply andb_true_r.
    + exists buf1. split; assumption.
Qed.

Lemma issue_barrier_lookup before after st r buf :
  buffers st !! r = Some buf ->
  exists buf',
    buffers (issue_barrier GPU_ACCESS_COUNT before after st) !! r = Some buf'
    /\ forall k, 0 <= k -> Z.testbit before k = false ->
         Z.testbit (access buf') k = Z.testbit (access buf) k.
Proof.
  intros Hr. unfold issue_barrier. cbn [buffers].
  rewrite clear_pending_upto. apply clear_upto_bits. exact Hr.
Qed.

Lemma issue_barrier_well_listed before after st :
  well_listed st -> well_listed (issue_barrier GPU_ACCESS_COUNT before after st).
Proof.
  intros [Hlen Hl]. split.
  - unfold issue_barrier. cbn [sync]. rewrite clear_pending_upto, clear_upto_length.
    exact Hlen.
  - intros i l Hi. unfold issue_barrier in Hi. cbn [sync] in Hi.
    rewrite clear_pending_upto, clear_upto_lists in Hi.
    destruct (sync st !! i) as [l0|] eqn:Hl0; [|discriminate].
    destruct (Hl i l0 Hl0) as [Hnd Hin].
    assert (Hlt : (i < GPU_ACCESS_COUNT)%nat)
      by (rewrite <- Hlen; eapply lookup_lt_Some; eassumption).
    rewrite bool_decide_eq_true_2 in Hi by assumption. cbn [andb] in Hi.
    destruct (Z.testbit before (Z.of_nat i)) eqn:Hb; injection Hi as <-.
    + split; [constructor|]. intros r Hr. apply elem_of_nil in Hr. destruct Hr.
    + split; [exact Hnd|]. intros r Hr.
      destruct (Hin r Hr) as (buf & Hbuf & Hbit).
      destruct (issue_barrier_lookup before after st r buf Hbuf) as (buf' & Hbuf' & Hk).
      exists buf'. split; [exact Hbuf'|].
      rewrite Hk; [exact Hbit|lia|exact Hb].
Qed.

Lemma record_access_well_listed b st :
  (forall l, sync st !! GPU_WRITE_UPLOAD = Some l -> b ∉ l) ->
  is_Some (buffers st !! b) ->
  well_listed st ->
  well_listed (record_access GPU_WRITE_UPLOAD b (bit GPU_WRITE_UPLOAD) st).
Proof.
  intros Hfresh [buf Hb] [Hlen Hl]. split.
  - unfold record_access. cbn [sync]. rewrite length_alter. exact Hlen.
  - intros i l Hi. unfold record_access in *. cbn [sync buffers] in *.
    assert (Hkeep : forall r j, (exists buf0, buffers st !! r = Some buf0
                       /\ Z.testbit (access buf0) (Z.of_nat j) = true) ->
              exists buf1,
                alter (set_access (fun a => Z.lor a (bit GPU_WRITE_UPLOAD))) b (buffers st) !! r
                = Some buf1 /\ Z.testbit (access buf1) (Z.of_nat j) = true).
    { intros r j (buf0 & H0 & Hbit). destruct (decide (r = b)) as [->|Hne].
      - rewrite list_lookup_alter_eq, H0. eexists. split; [reflexivity|].
        cbn. rewrite Z.lor_spec, Hbit. reflexivity.
      - rewrite list_lookup_alter_ne by congruence. eauto. }
    destruct (decide (GPU_WRITE_UPLOAD = i)) as [<-|Hne].
    + rewrite list_lookup_alter_eq in Hi.
      destruct (sync st !! GPU_WRITE_UPLOAD) as [l0|] eqn:Hl0; [|discriminate].
      injection Hi as <-. destruct (Hl _ l0 Hl0) as [Hnd Hin]. split.
      * apply NoDup_app. split; [exact Hnd|]. split.
        -- intros r Hr Hrb. apply list_elem_of_singleton in Hrb. subst r.
           exact (Hfresh l0 eq_refl Hr).
        -- apply NoDup_singleton.
      * intros r Hr. apply elem_of_app in Hr as [Hr|Hr].
        -- apply Hkeep. apply Hin. exact Hr.
        -- apply list_elem_of_singleton in Hr. subst r.
           rewrite list_lookup_alter_eq, Hb. eexists. split; [reflexivity|].
           cbn. rewrite Z.lor_spec, testbit_bit by lia.
           rewrite Z.eqb_refl. apply orb_true_r.
    + rewrite list_lookup_alter_ne in Hi by assumption.
      destruct (Hl i l Hi) as [Hnd Hin]. split; [exact Hnd|].
      intros r Hr. apply Hkeep. apply Hin. exact Hr.
Qed.

Lemma well_listed_calls st cs :
  well_listed st -> well_listed (mkState (buffers st) (sync st) cs).
Proof. intros H. exact H. Qed.

Lemma lovrBufferMap_well_listed b offset size st :
  (GPU_WRITE_UPLOAD < GPU_ACCESS_COUNT)%nat ->
  well_listed st -> well_listed (map_buffer b offset size st).
Proof.
  intros Hup Hwl. unfold map_buffer, lovrBufferMap.
  destruct (buffers st !! b) as [buf|] eqn:Hb; [|exact Hwl].
  cbv zeta. apply well_listed_calls. rewrite barrier_needed_pending.
  destruct (Z.eqb_spec (access buf) 0) as [H0|Hne]; cbn [negb].
  - apply record_access_well_listed; [|eauto|exact Hwl].
    intros l Hl Hin. destruct Hwl as [_ Hwl].
    destruct (Hwl _ l Hl) as [_ Hpend].
    destruct (Hpend b Hin) as (buf0 & Hb0 & Hbit).
    rewrite Hb in Hb0. injection Hb0 as <-.
    rewrite H0, Z.bits_0 in Hbit. discriminate.
  - apply record_access_well_listed; [| |apply issue_barrier_well_listed; exact Hwl].
    + intros l Hl Hin. unfold issue_barrier in Hl. cbn [sync] in Hl.
      rewrite clear_pending_upto, clear_upto_lists in Hl.
      rewrite bool_decide_eq_true_2 in Hl by assumption. cbn [andb] in Hl.
      destruct (sync st !! GPU_WRITE_UPLOAD) as [l0|] eqn:Hl0; [|discriminate].
      destruct (Z.testbit (access buf) (Z.of_nat GPU_WRITE_UPLOAD)) eqn:Hbit;
        injection Hl as <-.
      * apply elem_of_nil in Hin. exact Hin.
      * destruct Hwl as [_ Hwl]. destruct (Hwl _ l0 Hl0) as [_ Hpend].
        destruct (Hpend b Hin) as (buf0 & Hb0 & Hbit0).
        rewrite Hb in Hb0. injection Hb0 as <-. congruence.
    + destruct (issue_barrier_lookup (access buf) (bit GPU_WRITE_UPLOAD) st b buf Hb)
        as (buf' & Hbuf' & _).
      eauto.
Qed.

Lemma lovrBufferCreate_well_listed size usage st :
  well_listed st -> well_listed (lovrBufferCreate size usage st).1.
Proof.
  intros [Hlen Hl]. split; [exact Hlen|].
  intros i l Hi. cbn in Hi. destruct (Hl i l Hi) as [Hnd Hin].
  split; [exact Hnd|]. intros r Hr. destruct (Hin r Hr) as (buf & Hbuf & Hbit).
  exists buf. split; [|exact Hbit]. cbn.
  apply lookup_app_l_Some. exact Hbuf.
Qed.

Lemma window_created_well_listed : well_listed window_created.
Proof.
  split; [apply length_replicate|].
  intros i l Hi. cbn in Hi. apply lookup_replicate in Hi as [-> _].
  split; [constructor|]. intros r Hr. apply elem_of_nil in Hr. destruct Hr.
Qed.

Lemma run_snoc ops o st : run (ops ++ [o]) st = apply_op (run ops st) o.
Proof. unfold run. rewrite foldl_app. reflexivity. Qed.

Lemma run_invariant ops :
  (GPU_WRITE_UPLOAD < GPU_ACCESS_COUNT)%nat ->
  well_listed (run ops window_created) /\ tracked (run ops window_created).
Proof.
  intros Hup. induction ops as [|o ops IH] using rev_ind.
  - split; [apply window_created_well_listed|apply tracked_initially].
  - destruct IH as [Hwl Htr]. rewrite run_snoc. destruct o as [size usage|b offset size].
    + split; [apply lovrBufferCreate_well_listed|apply lovrBufferCreate_tracked];
        assumption.
    + split; [apply lovrBufferMap_well_listed; assumption|].
      apply lovrBufferMap_tracked; [|assumption].
      destruct Hwl as [-> _]. exact Hup.
Qed.

(** What a map leaves in the mapped buffer: the upload bit is pending. *)
Lemma lovrBufferMap_pending b offset size st :
  is_Some (buffers st !! b) ->
  exists buf',
    buffers (map_buffer b offset size st) !! b = Some buf'
    /\ Z.testbit (access buf') (Z.of_nat GPU_WRITE_UPLOAD) = true.
Proof.
  intros [buf Hb]. unfold map_buffer, lovrBufferMap. rewrite Hb. cbv zeta.
  cbn [buffers]. unfold record_access. cbn [buffers].
  assert (Hin : is_Some
            (buffers (if barrier_needed GPU_WRITE_COLOR_TARGET GPU_WRITE_DEPTH_TARGET
                           GPU_WRITE_COMPUTE_SHADER_STORAGE GPU_WRITE_UPLOAD
                           (access buf) (bit GPU_WRITE_UPLOAD)
                      then issue_barrier GPU_ACCESS_COUNT (access buf)
                             (bit GPU_WRITE_UPLOAD) st
                      else st) !! b)).
  { destruct (barrier_needed _ _ _ _ _ _); [|eauto].
    destruct (issue_barrier_lookup (access buf) (bit GPU_WRITE_UPLOAD) st b buf Hb)
      as (buf' & Hbuf' & _). eauto. }
  destruct Hin as [buf1 H1]. rewrite list_lookup_alter_eq, H1.
  eexists. split; [reflexivity|].
  cbn. rewrite Z.lor_spec, testbit_bit by lia. rewrite Z.eqb_refl. apply orb_true_r.
Qed.

(** A map of a buffer with nothing pending touches no other buffer. *)
Lemma lovrBufferMap_fresh b offset size st buf :
  buffers st !! b = Some buf -> access buf = 0 ->
  gpu_calls (map_buffer b offset size st) = gpu_calls st ++ [gpu_buffer_map b offset size]
  /\ forall r, r <> b -> buffers (map_buffer b offset size st) !! r = buffers st !! r.
Proof.
  intros Hb H0. split.
  - unfold map_buffer. rewrite (lovrBufferMap_calls _ _ _ _ _ _ _ _ _ _ Hb), H0.
    reflexivity.
  - intros r Hr. unfold map_buffer, lovrBufferMap. rewrite Hb. cbv zeta.
    rewrite barrier_needed_pending, H0. cbn.
    apply list_lookup_alter_ne. congruence.
Qed.

(** ** The tracking lists *)

(** X1. In every state reached from the creation of the window by
    creating and mapping buffers, the tracking array keeps its
    [GPU_ACCESS_COUNT] lists, no list holds a buffer twice, and a buffer is
    on the list of a category exactly when its bit of that category is
    pending. *)
Theorem tracking_lists_exact (ops : list op) :
  (GPU_WRITE_UPLOAD < GPU_ACCESS_COUNT)%nat ->
  let st := run ops window_created in
  length (sync st) = GPU_ACCESS_COUNT
  /\ (forall i l, sync st !! i = Some l -> NoDup l)
  /\ (forall r buf i,
        buffers st !! r = Some buf ->
        (Z.testbit (access buf) (Z.of_nat i) = true
         <-> exists l, sync st !! i = Some l /\ r ∈ l)).
Proof.
  intros Hup st. destruct (run_invariant ops Hup) as [[Hlen Hl] Htr]. fold st in Hlen, Hl, Htr.
  split; [exact Hlen|]. split.
  - intros i l Hi. exact (proj1 (Hl i l Hi)).
  - intros r buf i Hr. split.
    + intros Hbit. exact (Htr r buf i Hr Hbit).
    + intros (l & Hi & Hin). destruct (Hl i l Hi) as [_ Hpend].
      destruct (Hpend r Hin) as (buf0 & H0 & Hbit).
      rewrite Hr in H0. injection H0 as <-. exact Hbit.
Qed.

(** ** Barriers in a run of maps *)

(** X2. A buffer that is mapped twice in a row gets a barrier before the
    second mapping, whatever the state and the ranges: the first map left
    its upload pending. *)
Theorem remap_issues_barrier (b : nat) (offset size offset' size' : Z) (st : State) :
  is_Some (buffers st !! b) ->
  let st1 := map_buffer b offset size st in
  exists before,
    Z.testbit before (Z.of_nat GPU_WRITE_UPLOAD) = true
    /\ gpu_calls (map_buffer b offset' size' st1)
       = gpu_calls st1 ++ [gpu_sync before (bit GPU_WRITE_UPLOAD);
                           gpu_buffer_map b offset' size']
    /\ barrier_count (gpu_calls (map_buffer b offset' size' st1))
       = S (barrier_count (gpu_calls st1)).
Proof.
  intros Hb st1.
  destruct (lovrBufferMap_pending b offset size st Hb) as (buf1 & H1 & Hbit).
  fold st1 in H1. exists (access buf1). split; [exact Hbit|].
  assert (Hne : access buf1 <> 0).
  { intros H0. rewrite H0, Z.bits_0 in Hbit. discriminate. }
  assert (Hcalls : gpu_calls (map_buffer b offset' size' st1)
            = gpu_calls st1 ++ [gpu_sync (access buf1) (bit GPU_WRITE_UPLOAD);
                                gpu_buffer_map b offset' size']).
  { unfold map_buffer at 1. rewrite (lovrBufferMap_calls _ _ _ _ _ _ _ _ _ _ H1).
    destruct (Z.eqb_spec (access buf1) 0); [contradiction|reflexivity]. }
  split; [exact Hcalls|].
  rewrite Hcalls, barrier_count_app, barrier_count_sync_map. lia.
Qed.

(** X3. Mapping buffers that have nothing pending, each once, issues no
    barrier at all. *)
Theorem map_all_fresh_no_barrier (bs : list nat) (offset size : Z) (st : State) :
  NoDup bs ->
  (forall b, b ∈ bs -> exists buf, buffers st !! b = Some buf /\ access buf = 0) ->
  gpu_calls (map_all bs offset size st)
  = gpu_calls st ++ map (fun b => gpu_buffer_map b offset size) bs
  /\ barrier_count (gpu_calls (map_all bs offset size st)) = barrier_count (gpu_calls st).
Proof.
  intros Hnd. revert st. induction Hnd as [|b bs Hnotin Hnd IH]; intros st Hfresh.
  - cbn. rewrite app_nil_r. split; reflexivity.
  - destruct (Hfresh b) as (buf & Hb & H0); [apply elem_of_cons; left; reflexivity|].
    destruct (lovrBufferMap_fresh b offset size st buf Hb H0) as [Hcalls Hframe].
    destruct (IH (map_buffer b offset size st)) as [Hall Hcount].
    { intros b' Hb'. rewrite Hframe by (intros ->; contradiction).
      apply Hfresh. apply elem_of_cons. right. exact Hb'. }
    change (map_all (b :: bs) offset size st)
      with (map_all bs offset size (map_buffer b offset size st)).
    split.
    + rewrite Hall, Hcalls, <- app_assoc. reflexivity.
    + rewrite Hcount, Hcalls, barrier_count_app, barrier_count_map. lia.
Qed.

End Runs.

(** ** A run on the concrete tracker *)

Definition example_ops : list op :=
  [Create 64 1; Create 32 1; Map 0 0 64; Map 1 0 32; Map 0 0 64].

Lemma tracking_lists_exact_witness :
  let st := run example_count example_color example_depth example_compute
                example_upload example_ops (window_created example_count) in
  length (sync st) = example_count
  /\ (forall i l, sync st !! i = Some l -> NoDup l)
  /\ (forall r buf i,
        buffers st !! r = Some buf ->
        (Z.testbit (access buf) (Z.of_nat i) = true
         <-> exists l, sync st !! i = Some l /\ r ∈ l)).
Proof.
  apply (tracking_lists_exact example_count example_color example_depth
           example_compute example_upload example_ops).
  vm_compute. lia.
Defined.

Lemma remap_issues_barrier_witness :
  exists before,
    Z.testbit before 12 = true
    /\ gpu_calls (map_buffer example_count example_color example_depth example_compute
                    example_upload 2 0 16
                    (map_buffer example_count example_color example_depth
                       example_compute example_upload 2 0 16 example_state))
       = gpu_calls (map_buffer example_count example_color example_depth
                      example_compute example_upload 2 0 16 example_state)
         ++ [gpu_sync before (bit 12); gpu_buffer_map 2 0 16]
    /\ barrier_count
         (gpu_calls (map_buffer example_count example_color example_depth example_compute
                       example_upload 2 0 16
                       (map_buffer example_count example_color example_depth
                          example_compute example_upload 2 0 16 example_state)))
       = S (barrier_count
              (gpu_calls (map_buffer example_count example_color example_depth
                            example_compute example_upload 2 0 16 example_state))).
Proof.
  apply (remap_issues_barrier example_count example_color example_depth
           example_compute example_upload 2 0 16 0 16 example_state).
  eexists. reflexivity.
Defined.

Lemma map_all_fresh_no_barrier_witness :
  gpu_calls (map_all example_count example_color example_depth example_compute
               example_upload [0%nat; 1%nat] 0 32
               (run example_count example_color example_depth example_compute
                  example_upload [Create 64 1; Create 32 1]
                  (window_created example_count)))
  = [gpu_buffer_map 0 0 32; gpu_buffer_map 1 0 32].
Proof.
  refine (proj1 (map_all_fresh_no_barrier example_count example_color example_depth
                   example_compute example_upload [0%nat; 1%nat] 0 32
                   (run example_count example_color example_depth example_compute
                      example_upload [Create 64 1; Create 32 1]
                      (window_created example_count)) _ _)).
  - apply (bool_decide_unpack (NoDup [0%nat; 1%nat])). vm_compute. exact I.
  - intros b Hb. apply elem_of_cons in Hb as [->|Hb];
      [|apply list_elem_of_singleton in Hb as ->]; eexists; split; reflexivity.
Defined.

End SyncRuns.

(** * Shaders: queries, and what sets and flushes leave alone

    [lovrShaderGetAttributeId], [lovrShaderHasUniform] and
    [lovrShaderGetUniform], read against [lovrShaderSetUniform] and
    [lovrShaderBind]. *)

Module ShaderQueries.
Import Shaders.
Local Open Scope Z_scope.

(** [lovrShaderGetAttributeId]: the cached location, or [-1]. *)
Definition lovrShaderGetAttributeId (shader : Shader) (name_ : string) : Z :=
  match attributes shader !! name_ with
  | Some id => id
  | None => -1
  end.

(** [lovrShaderHasUniform] *)
Definition lovrShaderHasUniform (shader : Shader) (name_ : string) : bool :=
  match uniforms shader !! name_ with
  | Some _ => true
  | None => false
  end.

(** [lovrShaderGetUniform]: [None] is the [false] it returns for a name
    the shader does not have (the four out-parameters are then left
    alone); otherwise the values written to [count], [components], [size]
    and [type]. *)
Definition lovrShaderGetUniform (shader : Shader) (name_ : string)
  : option (Z * Z * Z * UniformType) :=
  match uniforms shader !! name_ with
  | None => None
  | Some uniform => Some (count uniform, components uniform, size uniform, type uniform)
  end.

(** The declaration of a uniform: everything but the cached bytes and
    the dirty flag. *)
Definition declaration (u : Uniform) : string * UniformType * Z * Z * Z * Z * Z * Z :=
  (name u, type u, components u, count u, location u, offset u, size u,
   baseTextureSlot u).

(** The [glUniform*] call that uploads a uniform of the given type. *)
Definition upload_call (type_ : UniformType) (uniform : Uniform) (bytes : list Z)
  : bind_call :=
  match type_ with
  | UNIFORM_INT =>
    glUniform_iv (components uniform) (location uniform) (count uniform) bytes
  | UNIFORM_MATRIX =>
    glUniformMatrix_fv (components uniform) (location uniform) (count uniform) bytes
  | _ => glUniform_fv (components uniform) (location uniform) (count uniform) bytes
  end.

(** ** What a set changes *)

Lemma set_cases shader name_ type_ data count_ size_ debug :
  let r := lovrShaderSetUniform shader name_ type_ data count_ size_ debug in
  r.1 = shader
  \/ exists uniform,
       uniforms shader !! name_ = Some uniform
       /\ type uniform = type_
       /\ r = (set_uniforms
                 (<[name_ := set_dirty true
                     (set_value (take (Z.to_nat (byte_count count_ size_)) data
                                 ++ drop (Z.to_nat (byte_count count_ size_)) (value uniform))
                                uniform)]> (uniforms shader)) shader, Returned).
Proof.
  cbv zeta. unfold lovrShaderSetUniform.
  destruct (uniforms shader !! name_) as [uniform|] eqn:H; [|left; reflexivity].
  case_bool_decide as Hty; cbn [negb]; [|left; reflexivity].
  destruct (byte_count count_ size_ <=? size_t (size uniform)); cbn [negb];
    [|left; reflexivity].
  destruct (negb (dirty uniform) && _); [left; reflexivity|].
  right. exists uniform. split; [reflexivity|]. split; [exact Hty|reflexivity].
Qed.

Lemma lovrShaderGetUniform_declaration shader shader' name_ :
  declaration <$> uniforms shader' !! name_ = declaration <$> uniforms shader !! name_ ->
  lovrShaderGetUniform shader' name_ = lovrShaderGetUniform shader name_
  /\ lovrShaderHasUniform shader' name_ = lovrShaderHasUniform shader name_.
Proof.
  unfold lovrShaderGetUniform, lovrShaderHasUniform.
  destruct (uniforms shader' !! name_) as [u'|], (uniforms shader !! name_) as [u|];
    cbn; intros H; try discriminate; [|split; reflexivity].
  injection H as Hn Ht Hc Hk Hl Ho Hs Hb. rewrite Hk, Hc, Hs, Ht. split; reflexivity.
Qed.

(** X4. A set call, whatever its outcome, changes at most the cached
    bytes and the dirty flag of the uniform it names: every other uniform
    is untouched, no uniform is added or removed, and the declaration of
    every uniform (what [lovrShaderGetUniform] and [lovrShaderHasUniform]
    report) stays as it was, as do the program, the blocks and the
    attributes. *)
Theorem lovrShaderSetUniform_frame (shader : Shader) (name_ : string)
  (type_ : UniformType) (data : list Z) (count_ size_ : Z) (debug : string) :
  let shader' := (lovrShaderSetUniform shader name_ type_ data count_ size_ debug).1 in
  (forall other, other <> name_ -> uniforms shader' !! other = uniforms shader !! other)
  /\ (forall n, declaration <$> uniforms shader' !! n = declaration <$> uniforms shader !! n)
  /\ (forall n, lovrShaderGetUniform shader' n = lovrShaderGetUniform shader n)
  /\ (forall n, lovrShaderHasUniform shader' n = lovrShaderHasUniform shader n)
  /\ (forall n, lovrShaderGetAttributeId shader' n = lovrShaderGetAttributeId shader n)
  /\ program shader' = program shader
  /\ blocks shader' = blocks shader.
Proof.
  intros shader'.
  assert (Hdecl : forall n,
            declaration <$> uniforms shader' !! n = declaration <$> uniforms shader !! n).
  { intros n. subst shader'.
    destruct (set_cases shader name_ type_ data count_ size_ debug)
      as [->|(uniform & Hu & _ & ->)]; [reflexivity|].
    cbn. destruct (decide (n = name_)) as [->|Hne].
    - rewrite lookup_insert_eq, Hu. reflexivity.
    - rewrite lookup_insert_ne by congruence. reflexivity. }
  split; [|split; [exact Hdecl|]].
  - intros other Hne. subst shader'.
    destruct (set_cases shader name_ type_ data count_ size_ debug)
      as [->|(uniform & Hu & _ & ->)]; [reflexivity|].
    cbn. apply lookup_insert_ne. congruence.
  - split; [intros n; apply lovrShaderGetUniform_declaration, Hdecl|].
    split; [intros n; apply lovrShaderGetUniform_declaration, Hdecl|].
    subst shader'.
    destruct (set_cases shader name_ type_ data count_ size_ debug)
      as [->|(uniform & Hu & _ & ->)]; repeat split; reflexivity.
Qed.

(** ** What a flush leaves *)

Lemma set_dirty_same u : dirty u = false -> set_dirty false u = u.
Proof. destruct u. cbn. intros ->. reflexivity. Qed.

Lemma flush_uniform_idem u : (flush_uniform (flush_uniform u).1).1 = (flush_uniform u).1.
Proof.
  destruct (flush_uniform_fst u) as (Hd & _).
  generalize dependent (flush_uniform u).1. intros v Hd.
  unfold flush_uniform. destruct (negb _ && negb _); [reflexivity|].
  cbn. apply set_dirty_same. exact Hd.
Qed.

Lemma filter_bind_nil {A} (P : bind_call -> bool) (g : A -> list bind_call) (l : list A) :
  (forall x, x ∈ l -> filter (fun c => P c = true) (g x) = []) ->
  filter (fun c => P c = true) (l ≫= g) = [].
Proof.
  induction l as [|x l IH]; intros H; [reflexivity|].
  cbn. rewrite filter_app, H, IH; [reflexivity| |].
  - intros y Hy. apply H. apply elem_of_cons. right. exact Hy.
  - apply elem_of_cons. left. reflexivity.
Qed.

Lemma filter_map_nil {A} (P : bind_call -> bool) (g : A -> bind_call) (l : list A) :
  (forall x, P (g x) = false) ->
  filter (fun c => P c = true) (map g l) = [].
Proof.
  intros H. induction l as [|x l IH]; [reflexivity|].
  cbn [map]. rewrite filter_cons_False by (rewrite H; discriminate). exact IH.
Qed.

(** X5. After a flush no uniform is dirty and the declarations are as
    before; a second flush right after it leaves the shader as it is and
    uploads nothing: it only repeats the texture binds of the samplers and
    the uniform-buffer binds of the blocks. *)
Theorem lovrShaderBind_settles (shader : Shader) :
  let s1 := (lovrShaderBind shader).1 in
  (forall n u, uniforms s1 !! n = Some u -> dirty u = false)
  /\ (forall n, declaration <$> uniforms s1 !! n = declaration <$> uniforms shader !! n)
  /\ (forall n, cached_value s1 n = cached_value shader n)
  /\ (lovrShaderBind s1).1 = s1
  /\ filter (fun c => is_upload c = true) (lovrShaderBind s1).2 = [].
Proof.
  intros s1.
  assert (Hclean : forall n u, uniforms s1 !! n = Some u -> dirty u = false).
  { intros n u Hu. subst s1. rewrite lovrShaderBind_lookup in Hu.
    destruct (uniforms shader !! n) as [u0|]; [|discriminate].
    injection Hu as <-. apply flush_uniform_fst. }
  split; [exact Hclean|]. split; [|split; [|split]].
  - intros n. subst s1. rewrite lovrShaderBind_lookup.
    destruct (uniforms shader !! n) as [u|]; [|reflexivity]. cbn. f_equal.
    unfold flush_uniform. destruct (negb _ && negb _); reflexivity.
  - intros n. unfold cached_value. subst s1. rewrite lovrShaderBind_lookup.
    destruct (uniforms shader !! n) as [u|]; [|reflexivity]. cbn. f_equal.
    apply flush_uniform_fst.
  - subst s1. unfold lovrShaderBind. cbn. unfold set_uniforms. cbn. f_equal.
    rewrite <- map_fmap_compose. apply map_fmap_ext. intros n u _. cbn.
    apply flush_uniform_idem.
  - unfold lovrShaderBind. cbn [snd]. rewrite filter_app.
    rewrite filter_bind_nil, filter_map_nil; [reflexivity|reflexivity|].
    intros [n u] Hin. apply elem_of_map_to_list in Hin. cbn.
    apply flush_uniform_clean. exact (Hclean n u Hin).
Qed.

(** ** A set that changes the value reaches the hardware *)

(** X6. A set call that passes the checks on a float, int or matrix
    uniform and is not redundant (the uniform was dirty, or the bytes
    differ) stores the bytes, and the next flush uploads that uniform with
    exactly one [glUniform*] call, which carries the uniform's location,
    its declared count and the whole cached value. *)
Theorem set_then_flush_uploads (shader : Shader) (name_ : string)
  (type_ : UniformType) (data : list Z) (count_ size_ : Z) (debug : string)
  (uniform : Uniform) :
  uniforms shader !! name_ = Some uniform ->
  type uniform = type_ ->
  type_ <> UNIFORM_SAMPLER ->
  (if bool_decide (type_ = UNIFORM_MATRIX) then 2 else 1) <= components uniform <= 4 ->
  byte_count count_ size_ <= size_t (size uniform) ->
  let n := Z.to_nat (byte_count count_ size_) in
  dirty uniform = true \/ take n (value uniform) <> take n data ->
  let r := lovrShaderSetUniform shader name_ type_ data count_ size_ debug in
  let bytes := take n data ++ drop n (value uniform) in
  r.2 = Returned
  /\ cached_value r.1 name_ = Some bytes
  /\ uploads_for name_ r.1 = [upload_call type_ uniform bytes]
  /\ uploads_for name_ (lovrShaderBind r.1).1 = [].
Proof.
  intros Hu Hty Hns Hc Hcap n Hnew r bytes.
  assert (Hr : r = (set_uniforms
                      (<[name_ := set_dirty true (set_value bytes uniform)]>
                         (uniforms shader)) shader, Returned)).
  { subst r. unfold lovrShaderSetUniform. rewrite Hu.
    rewrite bool_decide_eq_true_2 by assumption. cbn [negb].
    destruct (Z.leb_spec (byte_count count_ size_) (size_t (size uniform))); [|lia].
    cbn [negb]. fold n.
    destruct Hnew as [Hd|Hne].
    - rewrite Hd. reflexivity.
    - rewrite (bool_decide_eq_false_2 _ Hne), andb_false_r. reflexivity. }
  rewrite Hr. cbn [fst snd].
  split; [reflexivity|]. split; [|split].
  - unfold cached_value. cbn. rewrite lookup_insert_eq. reflexivity.
  - unfold uploads_for. cbn [uniforms set_uniforms]. rewrite lookup_insert_eq.
    unfold flush_uniform. cbn [dirty set_dirty negb andb type set_value components
                                 location count value snd].
    rewrite andb_false_r. cbn [snd].
    destruct (type uniform) eqn:Ht; subst type_; try contradiction;
      case_bool_decide; try congruence; cbn [upload_call].
    + destruct (Z.leb_spec 1 (components uniform)), (Z.leb_spec (components uniform) 4);
        try lia. reflexivity.
    + destruct (Z.leb_spec 1 (components uniform)), (Z.leb_spec (components uniform) 4);
        try lia. reflexivity.
    + destruct (Z.leb_spec 2 (components uniform)), (Z.leb_spec (components uniform) 4);
        try lia. reflexivity.
  - eapply uploads_for_clean.
    + rewrite lovrShaderBind_lookup. cbn [uniforms set_uniforms].
      rewrite lookup_insert_eq. reflexivity.
    + apply flush_uniform_fst.
Qed.

Lemma set_then_flush_uploads_witness :
  cached_value (lovrShaderSetFloat x_shader "x" one_float 1).1 "x" = Some one_float
  /\ uploads_for "x" (lovrShaderSetFloat x_shader "x" one_float 1).1
     = [glUniform_fv 1 0 1 one_float].
Proof.
  assert (Hc : (if bool_decide (UNIFORM_FLOAT = UNIFORM_MATRIX) then 2 else 1)
               <= components x_uniform <= 4) by (vm_compute; split; discriminate).
  assert (Hcap : byte_count 1 sizeof_float <= size_t (size x_uniform))
    by (vm_compute; discriminate).
  assert (Hnew : dirty x_uniform = true
                 \/ take (Z.to_nat (byte_count 1 sizeof_float)) (value x_uniform)
                    <> take (Z.to_nat (byte_count 1 sizeof_float)) one_float)
    by (right; vm_compute; discriminate).
  pose proof (set_then_flush_uploads x_shader "x" UNIFORM_FLOAT one_float 1
                sizeof_float "float" x_uniform eq_refl eq_refl
                ltac:(discriminate) Hc Hcap Hnew) as H.
  exact (conj (proj1 (proj2 H)) (proj1 (proj2 (proj2 H)))).
Defined.

End ShaderQueries.

(** * Shaders: the uniform table built by [lovrShaderCreate]

    [getUniformType], [getUniformComponents] and the block
    [// Uniform introspection] of [lovrShaderCreate]. What OpenGL answers
    to the queries is a parameter of the section. *)

Module ShaderCreate.
Import Shaders.
Local Open Scope Z_scope.

(** The [GLenum] values [glGetActiveUniform] reports as a uniform's
    type: the fifteen the two [switch]es name, and any other. *)
Inductive GLtype :=
| GL_FLOAT | GL_FLOAT_VEC2 | GL_FLOAT_VEC3 | GL_FLOAT_VEC4
| GL_INT | GL_INT_VEC2 | GL_INT_VEC3 | GL_INT_VEC4
| GL_FLOAT_MAT2 | GL_FLOAT_MAT3 | GL_FLOAT_MAT4
| GL_SAMPLER_2D | GL_SAMPLER_3D | GL_SAMPLER_CUBE | GL_SAMPLER_2D_ARRAY
| GL_other (code : Z).

(** What [lovrThrow] raises here. *)
Inductive thrown := UnsupportedUniformType (debug : string).

(** [getUniformType]; [inr] is the [lovrThrow] of the [default] case. *)
Definition getUniformType (type_ : GLtype) (debug : string) : UniformType + thrown :=
  match type_ with
  | GL_FLOAT | GL_FLOAT_VEC2 | GL_FLOAT_VEC3 | GL_FLOAT_VEC4 => inl UNIFORM_FLOAT
  | GL_INT | GL_INT_VEC2 | GL_INT_VEC3 | GL_INT_VEC4 => inl UNIFORM_INT
  | GL_FLOAT_MAT2 | GL_FLOAT_MAT3 | GL_FLOAT_MAT4 => inl UNIFORM_MATRIX
  | GL_SAMPLER_2D | GL_SAMPLER_3D | GL_SAMPLER_CUBE | GL_SAMPLER_2D_ARRAY =>
    inl UNIFORM_SAMPLER
  | GL_other _ => inr (UnsupportedUniformType debug)
  end.

(** [getUniformComponents] *)
Definition getUniformComponents (type_ : GLtype) : Z :=
  match type_ with
  | GL_FLOAT | GL_INT
  | GL_SAMPLER_2D | GL_SAMPLER_3D | GL_SAMPLER_CUBE | GL_SAMPLER_2D_ARRAY => 1
  | GL_FLOAT_VEC2 | GL_INT_VEC2 | GL_FLOAT_MAT2 => 2
  | GL_FLOAT_VEC3 | GL_INT_VEC3 | GL_FLOAT_MAT3 => 3
  | GL_FLOAT_VEC4 | GL_INT_VEC4 | GL_FLOAT_MAT4 => 4
  | GL_other _ => 1
  end.

(** What [glGetActiveUniform] writes for one index: the name, the count
    and the type. The local [Uniform uniform] of the loop body is not
    initialised, so the fields the loop never assigns ([offset], [dirty])
    hold what the stack held. *)
Record ActiveUniform := mkActiveUniform {
  active_name : string;
  active_count : Z;
  active_type : GLtype;
  stack_offset : Z;
  stack_dirty : bool
}.

(** [glUniform1iv], the one call of the block that changes the program. *)
Inductive create_call := glUniform1iv (location_ count_ : Z) (ints : list Z).

(** The loop state: [textureSlot], [shader->uniforms] and the calls
    issued. *)
Record Introspection := mkIntrospection {
  textureSlot : Z;
  table : gmap string Uniform;
  calls : list create_call
}.

(** [char* subscript = strchr(name, '['); if (subscript) *subscript = 0] *)
Fixpoint strip_subscript (s : string) : string :=
  match s with
  | EmptyString => EmptyString
  | String c rest =>
    if bool_decide (String c EmptyString = "[") then EmptyString
    else String c (strip_subscript rest)
  end.

(** [n] bytes written at byte [at_] of a block. *)
Definition write_bytes (at_ : nat) (bytes mem : list Z) : list Z :=
  take at_ mem ++ bytes ++ drop (at_ + length bytes) mem.

(** The four bytes of an [int] (least significant first). *)
Definition int_bytes (z : Z) : list Z :=
  [z mod 256; z / 256 mod 256; z / 65536 mod 256; z / 16777216 mod 256].

(** [calloc(1, size)] *)
Definition calloc (size_ : Z) : list Z := replicate (Z.to_nat size_) 0.

Section Introspect.

(** The answers of OpenGL: the location of a name, and the bytes
    [glGetUniformfv] and [glGetUniformiv] write for a location. *)
Variable glGetUniformLocation : string -> Z.
Variable glGetUniformfv : Z -> list Z.
Variable glGetUniformiv : Z -> list Z.

(** The size of the name buffers. *)
Variable LOVR_MAX_UNIFORM_LENGTH : nat.

(** [snprintf(name, LOVR_MAX_UNIFORM_LENGTH, "%s[%d]", uniform.name, j)] *)
Definition element_name (name_ : string) (j : nat) : string :=
  String.substring 0 (LOVR_MAX_UNIFORM_LENGTH - 1)
    (name_ +:+ "[" +:+ pretty j +:+ "]").

(** The [size] of a uniform of the given type. *)
Definition uniform_size (type_ : UniformType) (components_ count_ : Z) : Z :=
  match type_ with
  | UNIFORM_FLOAT => size_t (size_t (components_ * count_) * sizeof_float)
  | UNIFORM_INT => size_t (size_t (components_ * count_) * sizeof_int)
  | UNIFORM_MATRIX => size_t (size_t (components_ * components_ * count_) * sizeof_int)
  | UNIFORM_SAMPLER =>
    size_t (size_t (components_ * count_) * Z.max sizeof_pointer sizeof_int)
  end.

(** The sampler case: [value.ints[i] = baseTextureSlot + i]. *)
Definition slot_ints (base count_ : Z) : list Z :=
  map (fun i : nat => base + Z.of_nat i) (seq 0 (Z.to_nat count_)).

Definition write_slots (base count_ : Z) (mem : list Z) : list Z :=
  foldl (fun m i => write_bytes (4 * i) (int_bytes (base + Z.of_nat i)) m)
        mem (seq 0 (Z.to_nat count_)).

(** One iteration of the loop that reads the initial values: element
    [j], with [offset] counted in floats or ints. *)
Definition read_element (type_ : UniformType) (components_ : Z) (name_ : string)
  (location_ count_ : Z) (state : Z * list Z) (j : nat) : Z * list Z :=
  let location_ :=
    if 1 <? count_ then glGetUniformLocation (element_name name_ j) else location_ in
  let at_ := Z.to_nat (4 * state.1) in
  match type_ with
  | UNIFORM_FLOAT =>
    (size_t (state.1 + components_), write_bytes at_ (glGetUniformfv location_) state.2)
  | UNIFORM_INT =>
    (size_t (state.1 + components_), write_bytes at_ (glGetUniformiv location_) state.2)
  | UNIFORM_MATRIX =>
    (size_t (state.1 + components_ * components_),
     write_bytes at_ (glGetUniformfv location_) state.2)
  | UNIFORM_SAMPLER => state
  end.

(** The body of the loop over the active uniforms. *)
Definition introspect_uniform (acc : Introspection) (a : ActiveUniform)
  : Introspection + thrown :=
  let name_ := strip_subscript (active_name a) in
  let count_ := active_count a in
  let location_ := glGetUniformLocation name_ in
  match getUniformType (active_type a) name_ with
  | inr e => inr e
  | inl type_ =>
    let components_ := getUniformComponents (active_type a) in
    let base :=
      if bool_decide (type_ = UNIFORM_SAMPLER) then textureSlot acc else -1 in
    if location_ =? -1 then inl acc
    else
      let size_ := uniform_size type_ components_ count_ in
      let value0 :=
        if bool_decide (type_ = UNIFORM_SAMPLER)
        then write_slots base count_ (calloc size_) else calloc size_ in
      let calls_ :=
        if bool_decide (type_ = UNIFORM_SAMPLER)
        then calls acc ++ [glUniform1iv location_ count_ (slot_ints base count_)]
        else calls acc in
      let value_ :=
        (foldl (read_element type_ components_ name_ location_ count_) (0, value0)
               (seq 0 (Z.to_nat count_))).2 in
      let uniform :=
        mkUniform name_ type_ components_ count_ location_ (stack_offset a) size_
                  value_ base (stack_dirty a) in
      inl (mkIntrospection
             (textureSlot acc
              + (if bool_decide (type_ = UNIFORM_SAMPLER) then count_ else 0))
             (<[name_ := uniform]> (table acc))
             calls_)
  end.

(** The loop, stopped by the first throw. *)
Fixpoint introspect_uniforms (actives : list ActiveUniform) (acc : Introspection)
  : Introspection + thrown :=
  match actives with
  | [] => inl acc
  | a :: rest =>
    match introspect_uniform acc a with
    | inl acc' => introspect_uniforms rest acc'
    | inr e => inr e
    end
  end.

(** [int textureSlot = 0; map_init(&shader->uniforms)] *)
Definition introspection_start : Introspection := mkIntrospection 0 ∅ [].

(** The elements a typed set call may send to a uniform: floats or ints
    for the first three types, textures for a sampler. *)
Definition capacity (u : Uniform) : Z :=
  match type u with
  | UNIFORM_MATRIX => components u * components u * count u
  | _ => components u * count u
  end.

Definition element_size (type_ : UniformType) : Z :=
  match type_ with
  | UNIFORM_SAMPLER => sizeof_pointer
  | UNIFORM_INT => sizeof_int
  | _ => sizeof_float
  end.

(** The texture slots [base .. base + count - 1] of a sampler. *)
Definition slots_apart (u v : Uniform) : Prop :=
  baseTextureSlot u + count u <= baseTextureSlot v
  \/ baseTextureSlot v + count v <= baseTextureSlot u.

(** The shape of a uniform the loop stores. *)
Definition shaped (u : Uniform) : Prop :=
  match type u with
  | UNIFORM_FLOAT | UNIFORM_INT => 1 <= components u <= 4
  | UNIFORM_MATRIX => 2 <= components u <= 4
  | UNIFORM_SAMPLER => components u = 1
  end
  /\ size u = uniform_size (type u) (components u) (count u)
  /\ (type u <> UNIFORM_SAMPLER -> baseTextureSlot u = -1).

(** What the loop keeps true of the table: every uniform is shaped, the
    samplers' slots lie below [textureSlot], and two samplers never share
    a slot. *)
Definition slots_assigned (acc : Introspection) : Prop :=
  0 <= textureSlot acc
  /\ (forall n u, table acc !! n = Some u ->
        shaped u
        /\ (type u = UNIFORM_SAMPLER ->
            0 <= baseTextureSlot u /\ baseTextureSlot u + count u <= textureSlot acc))
  /\ (forall n1 n2 u1 u2,
        n1 <> n2 -> table acc !! n1 = Some u1 -> table acc !! n2 = Some u2 ->
        type u1 = UNIFORM_SAMPLER -> type u2 = UNIFORM_SAMPLER -> slots_apart u1 u2).

(** ** The two conversions agree on the shape *)

Lemma getUniformType_components type_ debug t :
  getUniformType type_ debug = inl t ->
  match t with
  | UNIFORM_FLOAT | UNIFORM_INT => 1 <= getUniformComponents type_ <= 4
  | UNIFORM_MATRIX => 2 <= getUniformComponents type_ <= 4
  | UNIFORM_SAMPLER => getUniformComponents type_ = 1
  end.
Proof.
  destruct type_; cbn; intros H; try discriminate; injection H as <-; cbn; lia.
Qed.

Lemma slots_apart_sym u v : slots_apart u v -> slots_apart v u.
Proof. unfold slots_apart. tauto. Qed.

Lemma introspect_uniform_assigned acc a acc' :
  0 <= active_count a ->
  slots_assigned acc ->
  introspect_uniform acc a = inl acc' ->
  slots_assigned acc'.
Proof.
  intros Hcount (Hslot & Hall & Hapart). unfold introspect_uniform.
  destruct (getUniformType (active_type a) (strip_subscript (active_name a)))
    as [t|e] eqn:Ht; [|discriminate].
  pose proof (getUniformType_components _ _ _ Ht) as Hshape.
  destruct (glGetUniformLocation (strip_subscript (active_name a)) =? -1).
  { intros H. injection H as <-. exact (conj Hslot (conj Hall Hapart)). }
  intros H. injection H as <-. cbn [textureSlot table].
  set (name_ := strip_subscript (active_name a)) in *.
  match goal with |- context [<[name_ := ?x]> _] => set (u := x) end.
  assert (Hu : shaped u
               /\ (type u = UNIFORM_SAMPLER ->
                   baseTextureSlot u = textureSlot acc /\ count u = active_count a)).
  { subst u. unfold shaped. cbn [type components size count baseTextureSlot].
    split; [split; [exact Hshape|split; [reflexivity|]]|].
    - intros Hns. rewrite bool_decide_eq_false_2 by assumption. reflexivity.
    - intros Hs. rewrite bool_decide_eq_true_2 by assumption. split; reflexivity. }
  assert (Hstep : 0 <= (if bool_decide (t = UNIFORM_SAMPLER) then active_count a else 0))
    by (destruct (bool_decide _); lia).
  unfold slots_assigned. cbn [textureSlot table].
  split; [lia|]. split.
  - intros n v Hv. destruct (decide (n = name_)) as [->|Hne].
    + rewrite lookup_insert_eq in Hv. injection Hv as <-.
      split; [exact (proj1 Hu)|]. intros Hs.
      destruct (proj2 Hu Hs) as [-> ->].
      assert (Hts : t = UNIFORM_SAMPLER) by exact Hs.
      rewrite (bool_decide_eq_true_2 _ Hts). lia.
    + rewrite lookup_insert_ne in Hv by congruence.
      destruct (Hall n v Hv) as [Hsh Hb]. split; [exact Hsh|].
      intros Hs. specialize (Hb Hs). lia.
  - assert (Hnew : forall n v, n <> name_ -> table acc !! n = Some v ->
              type v = UNIFORM_SAMPLER -> type u = UNIFORM_SAMPLER -> slots_apart v u).
    { intros n v Hne Hv Hvs Hus. destruct (proj2 Hu Hus) as [Hb Hc].
      destruct (Hall n v Hv) as [_ Hvb]. specialize (Hvb Hvs).
      left. rewrite Hb. lia. }
    intros n1 n2 u1 u2 Hne H1 H2 Hs1 Hs2.
    destruct (decide (n1 = name_)) as [->|Hn1], (decide (n2 = name_)) as [->|Hn2];
      try congruence.
    + rewrite lookup_insert_eq in H1. injection H1 as <-.
      rewrite lookup_insert_ne in H2 by congruence.
      apply slots_apart_sym. exact (Hnew n2 u2 Hn2 H2 Hs2 Hs1).
    + rewrite lookup_insert_eq in H2. injection H2 as <-.
      rewrite lookup_insert_ne in H1 by congruence.
      exact (Hnew n1 u1 Hn1 H1 Hs1 Hs2).
    + rewrite lookup_insert_ne in H1, H2 by congruence.
      exact (Hapart n1 n2 u1 u2 Hne H1 H2 Hs1 Hs2).
Qed.

Lemma introspect_uniforms_assigned actives : forall acc acc',
  Forall (fun a => 0 <= active_count a) actives ->
  slots_assigned acc ->
  introspect_uniforms actives acc = inl acc' ->
  slots_assigned acc'.
Proof.
  induction actives as [|a rest IH]; intros acc acc' Hcounts Hacc Hrun.
  - injection Hrun as <-. exact Hacc.
  - cbn [introspect_uniforms] in Hrun.
    apply Forall_cons in Hcounts as [Ha Hrest].
    destruct (introspect_uniform acc a) as [acc1|e] eqn:H1; [|discriminate].
    eapply IH; [exact Hrest| |exact Hrun].
    eapply introspect_uniform_assigned; eassumption.
Qed.

Lemma introspection_start_assigned : slots_assigned introspection_start.
Proof.
  split; [cbn; lia|]. split.
  - intros n u Hu. cbn in Hu. rewrite lookup_empty in Hu. discriminate.
  - intros n1 n2 u1 u2 _ H1. cbn in H1. rewrite lookup_empty in H1. discriminate.
Qed.

(** The loop stops at the first uniform whose type is not supported,
    whether or not that uniform has a location. *)
Lemma introspect_uniform_unsupported acc a code :
  active_type a = GL_other code ->
  introspect_uniform acc a
  = inr (UnsupportedUniformType (strip_subscript (active_name a))).
Proof. intros H. unfold introspect_uniform. rewrite H. reflexivity. Qed.

(** ** Texture slots *)

(** X7. In the table the introspection builds, every sampler has the
    texture slots [baseTextureSlot .. baseTextureSlot + count - 1] within
    [0 .. textureSlot - 1], the samplers of two different names never
    share a slot, and a uniform that is not a sampler has slot [-1]. *)
Theorem sampler_slots_disjoint (actives : list ActiveUniform) (r : Introspection) :
  Forall (fun a => 0 <= active_count a) actives ->
  introspect_uniforms actives introspection_start = inl r ->
  (forall n u, table r !! n = Some u -> type u = UNIFORM_SAMPLER ->
     0 <= baseTextureSlot u /\ baseTextureSlot u + count u <= textureSlot r)
  /\ (forall n1 n2 u1 u2,
        n1 <> n2 -> table r !! n1 = Some u1 -> table r !! n2 = Some u2 ->
        type u1 = UNIFORM_SAMPLER -> type u2 = UNIFORM_SAMPLER ->
        baseTextureSlot u1 + count u1 <= baseTextureSlot u2
        \/ baseTextureSlot u2 + count u2 <= baseTextureSlot u1)
  /\ (forall n u, table r !! n = Some u -> type u <> UNIFORM_SAMPLER ->
        baseTextureSlot u = -1).
Proof.
  intros Hcounts Hrun.
  destruct (introspect_uniforms_assigned actives _ _ Hcounts
              introspection_start_assigned Hrun) as (_ & Hall & Hapart).
  split; [|split].
  - intros n u Hu Hs. exact (proj2 (Hall n u Hu) Hs).
  - exact Hapart.
  - intros n u Hu Hns. destruct (Hall n u Hu) as [(_ & _ & Hb) _]. exact (Hb Hns).
Qed.

(** ** The shape of the stored uniforms *)

Lemma introspect_uniforms_shaped actives : forall acc acc',
  (forall n u, table acc !! n = Some u -> shaped u) ->
  introspect_uniforms actives acc = inl acc' ->
  forall n u, table acc' !! n = Some u -> shaped u.
Proof.
  induction actives as [|a rest IH]; intros acc acc' Hacc Hrun.
  - injection Hrun as <-. exact Hacc.
  - cbn [introspect_uniforms] in Hrun.
    destruct (introspect_uniform acc a) as [acc1|e] eqn:H1; [|discriminate].
    apply (IH acc1 acc'); [|exact Hrun].
    unfold introspect_uniform in H1.
    destruct (getUniformType (active_type a) (strip_subscript (active_name a)))
      as [t|e] eqn:Ht; [|discriminate].
    pose proof (getUniformType_components _ _ _ Ht) as Hshape.
    destruct (glGetUniformLocation (strip_subscript (active_name a)) =? -1).
    { injection H1 as <-. exact Hacc. }
    injection H1 as <-. cbn [table]. intros n u Hu.
    destruct (decide (n = strip_subscript (active_name a))) as [->|Hne].
    + rewrite lookup_insert_eq in Hu. injection Hu as <-.
      unfold shaped. cbn [type components size count baseTextureSlot].
      split; [exact Hshape|]. split; [reflexivity|].
      intros Hns. rewrite bool_decide_eq_false_2 by assumption. reflexivity.
    + rewrite lookup_insert_ne in Hu by congruence. exact (Hacc n u Hu).
Qed.

Lemma created_shaped actives r n u :
  introspect_uniforms actives introspection_start = inl r ->
  table r !! n = Some u -> shaped u.
Proof.
  intros Hrun. apply (introspect_uniforms_shaped actives introspection_start r);
    [|exact Hrun].
  intros m v Hv. cbn in Hv. rewrite lookup_empty in Hv. discriminate.
Qed.

Lemma size_t_small x : 0 <= x < 2 ^ 64 -> size_t x = x.
Proof. intros H. unfold size_t. apply Z.mod_small. exact H. Qed.

Lemma shaped_size u :
  shaped u -> 0 <= count u < 2 ^ 24 ->
  size u = capacity u * element_size (type u)
  /\ 0 <= capacity u <= 2 ^ 28.
Proof.
  intros (Hc & Hs & _) Hn. rewrite Hs. unfold uniform_size, capacity, element_size.
  destruct (type u); unfold sizeof_float, sizeof_int, sizeof_pointer.
  - rewrite !size_t_small; [split; nia| |]; rewrite ?size_t_small; nia.
  - rewrite !size_t_small; [split; nia| |]; rewrite ?size_t_small; nia.
  - rewrite !size_t_small; [split; nia| |]; rewrite ?size_t_small; nia.
  - change (Z.max 8 4) with 8. rewrite Hc.
    rewrite !size_t_small; [split; nia| |]; rewrite ?size_t_small; nia.
Qed.

Lemma byte_count_negative k e :
  - 2 ^ 31 <= k < 0 -> 0 < e <= 8 ->
  byte_count k e = 2 ^ 64 + k * e.
Proof.
  intros Hk He. unfold byte_count, size_t.
  change (2 ^ 31) with 2147483648 in Hk.
  change (2 ^ 64) with 18446744073709551616.
  replace (k mod 18446744073709551616) with (18446744073709551616 + k)
    by (apply Z.mod_unique with (-1); lia).
  replace ((18446744073709551616 + k) * e)
    with (18446744073709551616 + k * e + (e - 1) * 18446744073709551616) by lia.
  rewrite Z.mod_add by lia. apply Z.mod_small. nia.
Qed.

(** ** Capacity *)

(** X8. A uniform the introspection stored accepts, through the set call
    of its own type, exactly the element counts from [0] to its capacity:
    components times count floats or ints, components squared times count
    floats for a matrix, count textures for a sampler. Any other count
    (larger, or negative) throws. This holds in any later state of the
    shader, since sets and flushes keep the declaration. *)
Theorem created_uniform_capacity (actives : list ActiveUniform) (r : Introspection)
  (shader : Shader) (name_ : string) (u v : Uniform) (data : list Z) (k : Z)
  (debug : string) :
  introspect_uniforms actives introspection_start = inl r ->
  table r !! name_ = Some u ->
  0 <= count u < 2 ^ 24 ->
  uniforms shader !! name_ = Some v ->
  ShaderQueries.declaration v = ShaderQueries.declaration u ->
  - 2 ^ 31 <= k < 2 ^ 31 ->
  let out :=
    (lovrShaderSetUniform shader name_ (type u) data k (element_size (type u)) debug).2 in
  (0 <= k <= capacity u -> out = Returned)
  /\ (k < 0 \/ capacity u < k -> exists e, out = Thrown e).
Proof.
  intros Hrun Hu Hn Hv Hdecl Hk out.
  pose proof (created_shaped actives r name_ u Hrun Hu) as Hsh.
  destruct (shaped_size u Hsh Hn) as [Hsize Hcap].
  injection Hdecl as _ Hty _ _ _ _ Hsz _.
  assert (He : 0 < element_size (type u) <= 8)
    by (unfold element_size, sizeof_float, sizeof_int, sizeof_pointer;
        destruct (type u); lia).
  assert (Hsz' : size_t (size v) = capacity u * element_size (type u)).
  { rewrite Hsz, Hsize. unfold size_t. apply Z.mod_small.
    change (2 ^ 28) with 268435456 in Hcap.
    change (2 ^ 64) with 18446744073709551616. nia. }
  change (2 ^ 28) with 268435456 in Hcap. change (2 ^ 31) with 2147483648 in Hk.
  subst out. unfold lovrShaderSetUniform. rewrite Hv.
  rewrite bool_decide_eq_true_2 by assumption. cbn [negb]. rewrite Hsz'.
  split.
  - intros Hfit.
    rewrite byte_count_exact
      by (try lia; change (2 ^ 64) with 18446744073709551616; nia).
    destruct (Z.leb_spec (k * element_size (type u))
                (capacity u * element_size (type u))); [|nia].
    cbn [negb]. destruct (negb (dirty v) && _); reflexivity.
  - intros [Hneg|Hover].
    + rewrite byte_count_negative by (change (2 ^ 31) with 2147483648; lia).
      change (2 ^ 64) with 18446744073709551616.
      destruct (Z.leb_spec (18446744073709551616 + k * element_size (type u))
                  (capacity u * element_size (type u))); [nia|].
      cbn [negb]. eexists. reflexivity.
    + rewrite byte_count_exact
        by (try lia; change (2 ^ 64) with 18446744073709551616; nia).
      destruct (Z.leb_spec (k * element_size (type u))
                  (capacity u * element_size (type u))); [nia|].
      cbn [negb]. eexists. reflexivity.
Qed.

(** ** The flush of a stored uniform *)

(** X9. A float, int or matrix uniform the introspection stored, once
    dirty, is uploaded by the flush with exactly one [glUniform*] call:
    the component counts [getUniformComponents] gives are the ones the
    [switch] of [lovrShaderBind] handles. This holds in any later state of
    the shader. *)
Theorem created_uniform_upload (actives : list ActiveUniform) (r : Introspection)
  (name_ : string) (u v : Uniform) :
  introspect_uniforms actives introspection_start = inl r ->
  table r !! name_ = Some u ->
  ShaderQueries.declaration v = ShaderQueries.declaration u ->
  type u <> UNIFORM_SAMPLER ->
  dirty v = true ->
  filter (fun c => is_upload c = true) (flush_uniform v).2
  = [ShaderQueries.upload_call (type v) v (value v)].
Proof.
  intros Hrun Hu Hdecl Hns Hd.
  destruct (created_shaped actives r name_ u Hrun Hu) as (Hc & _).
  injection Hdecl as _ Hty Hcomp _ _ _ _ _.
  rewrite <- Hty, <- Hcomp in Hc. rewrite <- Hty in Hns.
  unfold flush_uniform. rewrite Hd, andb_false_r. cbn [snd].
  destruct (type v); try contradiction; cbn [ShaderQueries.upload_call].
  - destruct (Z.leb_spec 1 (components v)), (Z.leb_spec (components v) 4); try lia.
    reflexivity.
  - destruct (Z.leb_spec 1 (components v)), (Z.leb_spec (components v) 4); try lia.
    reflexivity.
  - destruct (Z.leb_spec 2 (components v)), (Z.leb_spec (components v) 4); try lia.
    reflexivity.
Qed.

End Introspect.

(** ** A program with a color, two transforms and two textures *)

Definition example_actives : list ActiveUniform :=
  [mkActiveUniform "lovrColor" 1 GL_FLOAT_VEC4 0 false;
   mkActiveUniform "lovrTransforms[0]" 2 GL_FLOAT_MAT4 0 false;
   mkActiveUniform "lovrDiffuseTexture" 1 GL_SAMPLER_2D 0 false;
   mkActiveUniform "lovrEnvironmentTexture" 1 GL_SAMPLER_CUBE 0 false].

Definition example_location (name_ : string) : Z :=
  if String.eqb name_ "lovrColor" then 0
  else if String.eqb name_ "lovrTransforms" then 1
  else if String.eqb name_ "lovrTransforms[0]" then 1
  else if String.eqb name_ "lovrTransforms[1]" then 2
  else if String.eqb name_ "lovrDiffuseTexture" then 3
  else if String.eqb name_ "lovrEnvironmentTexture" then 4
  else -1.

(** A program that was just linked: every uniform reads as zero. *)
Definition example_floats (location_ : Z) : list Z :=
  if location_ =? 0 then replicate 16 0 else replicate 64 0.

Definition example_ints (location_ : Z) : list Z := replicate 4 0.

Definition example_introspection : Introspection :=
  match introspect_uniforms example_location example_floats example_ints 64
          example_actives introspection_start with
  | inl r => r
  | inr _ => introspection_start
  end.

Definition example_transforms : Uniform :=
  mkUniform "lovrTransforms" UNIFORM_MATRIX 4 2 1 0 128 (replicate 128 0) (-1) false.

Definition example_shader : Shader := mkShader 1 (table example_introspection) ∅ ∅.

Lemma example_introspection_run :
  introspect_uniforms example_location example_floats example_ints 64
    example_actives introspection_start = inl example_introspection.
Proof. vm_compute. reflexivity. Qed.

Lemma example_transforms_stored :
  table example_introspection !! "lovrTransforms"%string = Some example_transforms.
Proof. vm_compute. reflexivity. Qed.

Example example_texture_slots :
  baseTextureSlot <$> table example_introspection !! "lovrDiffuseTexture"%string = Some 0
  /\ baseTextureSlot <$> table example_introspection !! "lovrEnvironmentTexture"%string
     = Some 1
  /\ textureSlot example_introspection = 2
  /\ calls example_introspection = [glUniform1iv 3 1 [0]; glUniform1iv 4 1 [1]].
Proof. vm_compute. repeat split; reflexivity. Qed.

Lemma sampler_slots_disjoint_witness :
  (forall n u, table example_introspection !! n = Some u -> type u = UNIFORM_SAMPLER ->
     0 <= baseTextureSlot u
     /\ baseTextureSlot u + count u <= textureSlot example_introspection)
  /\ (forall n1 n2 u1 u2,
        n1 <> n2 -> table example_introspection !! n1 = Some u1 ->
        table example_introspection !! n2 = Some u2 ->
        type u1 = UNIFORM_SAMPLER -> type u2 = UNIFORM_SAMPLER ->
        baseTextureSlot u1 + count u1 <= baseTextureSlot u2
        \/ baseTextureSlot u2 + count u2 <= baseTextureSlot u1)
  /\ (forall n u, table example_introspection !! n = Some u ->
        type u <> UNIFORM_SAMPLER -> baseTextureSlot u = -1).
Proof.
  apply (sampler_slots_disjoint example_location example_floats example_ints 64
           example_actives example_introspection).
  - repeat constructor; vm_compute; discriminate.
  - exact example_introspection_run.
Defined.

(** The two transforms hold 32 floats. *)
Lemma created_uniform_capacity_witness :
  (lovrShaderSetMatrix example_shader "lovrTransforms" (replicate 128 1) 32).2 = Returned
  /\ exists e,
       (lovrShaderSetMatrix example_shader "lovrTransforms" (replicate 132 1) 33).2
       = Thrown e.
Proof.
  assert (Hn : 0 <= count example_transforms < 2 ^ 24) by (vm_compute; split; congruence).
  split.
  - refine (proj1 (created_uniform_capacity example_location example_floats example_ints
                     64 example_actives example_introspection example_shader
                     "lovrTransforms" example_transforms example_transforms
                     (replicate 128 1) 32 "float" example_introspection_run
                     example_transforms_stored Hn example_transforms_stored eq_refl _) _);
      vm_compute; split; congruence.
  - refine (proj2 (created_uniform_capacity example_location example_floats example_ints
                     64 example_actives example_introspection example_shader
                     "lovrTransforms" example_transforms example_transforms
                     (replicate 132 1) 33 "float" example_introspection_run
                     example_transforms_stored Hn example_transforms_stored eq_refl _) _).
    + vm_compute; split; congruence.
    + right. vm_compute. reflexivity.
Defined.

Lemma created_uniform_upload_witness :
  filter (fun c => is_upload c = true)
         (flush_uniform (set_dirty true example_transforms)).2
  = [glUniformMatrix_fv 4 1 2 (replicate 128 0)].
Proof.
  exact (created_uniform_upload example_location example_floats example_ints 64
           example_actives example_introspection "lovrTransforms" example_transforms
           (set_dirty true example_transforms) example_introspection_run
           example_transforms_stored eq_refl ltac:(discriminate) eq_refl).
Defined.

End ShaderCreate.

(** * Shaders: the uniform blocks found by [lovrShaderCreate]

    The block [// Uniform blocks] of [lovrShaderCreate], read against
    [lovrShaderBind]. *)

Module ShaderBlockTable.
Import Shaders.
Local Open Scope Z_scope.

(** [glUniformBlockBinding(program, index, binding)] *)
Inductive block_call := glUniformBlockBinding (index_ : Z) (binding_ : nat).

(** The loop over the active uniform blocks, from block [i] on; [names]
    are the names [glGetActiveUniformBlockName] writes. *)
Fixpoint introspect_blocks_from (i : nat) (names : list string)
  (acc : gmap string UniformBlock * list block_call)
  : gmap string UniformBlock * list block_call :=
  match names with
  | [] => acc
  | name_ :: rest =>
    introspect_blocks_from (S i) rest
      (<[name_ := mkUniformBlock (Z.of_nat i) (i + 1) None]> acc.1,
       acc.2 ++ [glUniformBlockBinding (Z.of_nat i) (i + 1)])
  end.

(** [map_init(&shader->blocks)] and the loop. *)
Definition introspect_blocks (names : list string)
  : gmap string UniformBlock * list block_call :=
  introspect_blocks_from 0 names (∅, []).

(** What the loop keeps true of the table when it is at block [i]. *)
Definition bound_below (i : nat) (m : gmap string UniformBlock) : Prop :=
  (forall n b, m !! n = Some b ->
     (1 <= binding b <= i)%nat /\ index b = Z.of_nat (binding b) - 1 /\ source b = None)
  /\ (forall n1 n2 b1 b2, n1 <> n2 -> m !! n1 = Some b1 -> m !! n2 = Some b2 ->
        binding b1 <> binding b2).

Lemma introspect_blocks_from_bound names : forall i acc,
  bound_below i acc.1 ->
  bound_below (i + length names) (introspect_blocks_from i names acc).1.
Proof.
  induction names as [|name_ rest IH]; intros i acc Hacc.
  - cbn. rewrite Nat.add_0_r. exact Hacc.
  - cbn [introspect_blocks_from length].
    replace (i + S (length rest))%nat with (S i + length rest)%nat by lia.
    apply IH. cbn [fst]. destruct Hacc as [Hall Hapart]. split.
    + intros n b Hb. destruct (decide (n = name_)) as [->|Hne].
      * rewrite lookup_insert_eq in Hb. injection Hb as <-. cbn. repeat split; lia.
      * rewrite lookup_insert_ne in Hb by congruence.
        destruct (Hall n b Hb) as (H1 & H2 & H3). repeat split; try assumption; lia.
    + intros n1 n2 b1 b2 Hne H1 H2.
      destruct (decide (n1 = name_)) as [->|Hn1], (decide (n2 = name_)) as [->|Hn2];
        try congruence.
      * rewrite lookup_insert_eq in H1. injection H1 as <-.
        rewrite lookup_insert_ne in H2 by congruence.
        destruct (Hall n2 b2 H2) as (Hb & _). cbn. lia.
      * rewrite lookup_insert_eq in H2. injection H2 as <-.
        rewrite lookup_insert_ne in H1 by congruence.
        destruct (Hall n1 b1 H1) as (Hb & _). cbn. lia.
      * rewrite lookup_insert_ne in H1, H2 by congruence.
        exact (Hapart n1 n2 b1 b2 Hne H1 H2).
Qed.

(** X10. Every uniform block of a created shader has the binding
    [index + 1], between 1 and the number of blocks, and no source; two
    blocks of different names have different bindings. So the flush of
    such a shader binds buffer 0 at each block's slot and never touches
    uniform-buffer slot 0, the one [lovrShaderBlockCreate] binds its new
    buffer to. *)
Theorem block_bindings_start_at_one (names : list string) (shader : Shader) :
  blocks shader = (introspect_blocks names).1 ->
  (forall n b, blocks shader !! n = Some b ->
     (1 <= binding b <= length names)%nat
     /\ index b = Z.of_nat (binding b) - 1 /\ source b = None)
  /\ (forall n1 n2 b1 b2,
        n1 <> n2 -> blocks shader !! n1 = Some b1 -> blocks shader !! n2 = Some b2 ->
        binding b1 <> binding b2)
  /\ (forall buffer slot,
        lovrGpuBindUniformBuffer buffer slot ∈ (lovrShaderBind shader).2 ->
        buffer = 0 /\ (1 <= slot <= length names)%nat).
Proof.
  intros Hblocks.
  assert (Hb : bound_below (length names) (blocks shader)).
  { rewrite Hblocks. apply (introspect_blocks_from_bound names 0 (∅, [])).
    split.
    - intros n b H. cbn in H. rewrite lookup_empty in H. discriminate.
    - intros n1 n2 b1 b2 _ H. cbn in H. rewrite lookup_empty in H. discriminate. }
  destruct Hb as [Hall Hapart]. split; [exact Hall|]. split; [exact Hapart|].
  intros buffer slot Hin. unfold lovrShaderBind in Hin. cbn [snd] in Hin.
  apply elem_of_app in Hin as [Hin|Hin].
  - apply list_elem_of_bind in Hin as ([n u] & Hin & _). cbn [snd] in Hin.
    unfold flush_uniform in Hin. destruct (negb _ && negb _).
    + apply elem_of_nil in Hin. destruct Hin.
    + cbn [snd] in Hin. destruct (type u);
        repeat match type of Hin with
               | context [if ?c then _ else _] => destruct c
               end;
        try (apply elem_of_nil in Hin; destruct Hin);
        try (apply list_elem_of_singleton in Hin; discriminate).
      apply list_elem_of_fmap in Hin as (i & Hi & _). discriminate.
  - apply list_elem_of_fmap in Hin as ([n b] & Heq & Hin).
    apply elem_of_map_to_list in Hin. cbn [snd] in Heq. injection Heq as -> ->.
    destruct (Hall n b Hin) as (Hbind & _ & Hsrc). rewrite Hsrc. split; [reflexivity|lia].
Qed.

Lemma block_bindings_start_at_one_witness :
  (forall n b, (introspect_blocks ["Lights"; "Camera"]).1 !! n = Some b ->
     (1 <= binding b <= 2)%nat
     /\ index b = Z.of_nat (binding b) - 1 /\ source b = None)
  /\ (forall n1 n2 b1 b2,
        n1 <> n2 ->
        (introspect_blocks ["Lights"; "Camera"]).1 !! n1 = Some b1 ->
        (introspect_blocks ["Lights"; "Camera"]).1 !! n2 = Some b2 ->
        binding b1 <> binding b2)
  /\ (forall buffer slot,
        lovrGpuBindUniformBuffer buffer slot
        ∈ (lovrShaderBind (mkShader 1 ∅ (introspect_blocks ["Lights"; "Camera"]).1 ∅)).2 ->
        buffer = 0 /\ (1 <= slot <= 2)%nat).
Proof.
  exact (block_bindings_start_at_one ["Lights"; "Camera"]
           (mkShader 1 ∅ (introspect_blocks ["Lights"; "Camera"]).1 ∅) eq_refl).
Defined.

Example example_blocks :
  (introspect_blocks ["Lights"; "Camera"]).2
  = [glUniformBlockBinding 0 1; glUniformBlockBinding 1 2]
  /\ (introspect_blocks ["Lights"; "Camera"]).1 !! "Camera"%string
     = Some (mkUniformBlock 1 2 None).
Proof. vm_compute. split; reflexivity. Qed.

End ShaderBlockTable.

(** * Textures of the OpenGL backend: allocation and level sizes

    [convertTextureFormat], [convertTextureFormatInternal],
    [isTextureFormatCompressed], [lovrTextureAllocate] and the getters
    [lovrTextureGetWidth], [lovrTextureGetHeight], [lovrTextureGetDepth],
    [lovrTextureGetMipmapCount]. *)

Module TextureLevels.
Import TextureGL.
Local Open Scope Z_scope.

Inductive TextureFormat :=
| FORMAT_RGB | FORMAT_RGBA | FORMAT_RGBA4 | FORMAT_RGBA16F | FORMAT_RGBA32F
| FORMAT_R16F | FORMAT_R32F | FORMAT_RGB565 | FORMAT_RGB5A1 | FORMAT_RGB10A2
| FORMAT_RG11B10F | FORMAT_DXT1 | FORMAT_DXT3 | FORMAT_DXT5.

(** The GL enumerators for pixel formats and internal formats. *)
Inductive GLformat :=
| GL_RGB | GL_RGBA | GL_RED
| GL_COMPRESSED_RGB_S3TC_DXT1_EXT | GL_COMPRESSED_RGBA_S3TC_DXT3_EXT
| GL_COMPRESSED_RGBA_S3TC_DXT5_EXT
| GL_SRGB8 | GL_RGB8 | GL_SRGB8_ALPHA8 | GL_RGBA8 | GL_RGBA4 | GL_RGBA16F | GL_RGBA32F
| GL_R16F | GL_R32F | GL_RGB565 | GL_RGB5_A1 | GL_RGB10_A2 | GL_R11F_G11F_B10F
| GL_COMPRESSED_SRGB_S3TC_DXT1_EXT | GL_COMPRESSED_SRGB_ALPHA_S3TC_DXT3_EXT
| GL_COMPRESSED_SRGB_ALPHA_S3TC_DXT5_EXT.

(** Texture targets; the six cube faces are
    [GL_TEXTURE_CUBE_MAP_POSITIVE_X + face]. *)
Inductive GLtarget :=
| GL_TEXTURE_2D | GL_TEXTURE_2D_ARRAY | GL_TEXTURE_CUBE_MAP | GL_TEXTURE_3D
| GL_TEXTURE_CUBE_MAP_POSITIVE_X_plus (face : Z).

Definition convertTextureFormat (format : TextureFormat) : GLformat :=
  match format with
  | FORMAT_RGB => GL_RGB
  | FORMAT_RGBA => GL_RGBA
  | FORMAT_RGBA4 => GL_RGBA
  | FORMAT_RGBA16F => GL_RGBA
  | FORMAT_RGBA32F => GL_RGBA
  | FORMAT_R16F => GL_RED
  | FORMAT_R32F => GL_RED
  | FORMAT_RGB565 => GL_RGB
  | FORMAT_RGB5A1 => GL_RGBA
  | FORMAT_RGB10A2 => GL_RGBA
  | FORMAT_RG11B10F => GL_RGB
  | FORMAT_DXT1 => GL_COMPRESSED_RGB_S3TC_DXT1_EXT
  | FORMAT_DXT3 => GL_COMPRESSED_RGBA_S3TC_DXT3_EXT
  | FORMAT_DXT5 => GL_COMPRESSED_RGBA_S3TC_DXT5_EXT
  end.

Definition convertTextureFormatInternal (format : TextureFormat) (srgb_ : bool)
  : GLformat :=
  match format with
  | FORMAT_RGB => if srgb_ then GL_SRGB8 else GL_RGB8
  | FORMAT_RGBA => if srgb_ then GL_SRGB8_ALPHA8 else GL_RGBA8
  | FORMAT_RGBA4 => GL_RGBA4
  | FORMAT_RGBA16F => GL_RGBA16F
  | FORMAT_RGBA32F => GL_RGBA32F
  | FORMAT_R16F => GL_R16F
  | FORMAT_R32F => GL_R32F
  | FORMAT_RGB565 => GL_RGB565
  | FORMAT_RGB5A1 => GL_RGB5_A1
  | FORMAT_RGB10A2 => GL_RGB10_A2
  | FORMAT_RG11B10F => GL_R11F_G11F_B10F
  | FORMAT_DXT1 =>
    if srgb_ then GL_COMPRESSED_SRGB_S3TC_DXT1_EXT else GL_COMPRESSED_RGB_S3TC_DXT1_EXT
  | FORMAT_DXT3 =>
    if srgb_ then GL_COMPRESSED_SRGB_ALPHA_S3TC_DXT3_EXT
    else GL_COMPRESSED_RGBA_S3TC_DXT3_EXT
  | FORMAT_DXT5 =>
    if srgb_ then GL_COMPRESSED_SRGB_ALPHA_S3TC_DXT5_EXT
    else GL_COMPRESSED_RGBA_S3TC_DXT5_EXT
  end.

Definition isTextureFormatCompressed (format : TextureFormat) : bool :=
  match format with
  | FORMAT_DXT1 | FORMAT_DXT3 | FORMAT_DXT5 => true
  | _ => false
  end.

(** The fields of [struct Texture] that allocation and the getters read
    and write. *)
Record Texture := mkTexture {
  type : TextureType;
  glType : GLtarget;
  width : Z;
  height : Z;
  depth : Z;
  mipmapCount : Z;
  srgb : bool;
  mipmaps : bool;
  allocated : bool
}.

(** The fields of [TextureData] that allocation reads. *)
Record TextureData := mkTextureData {
  data_width : Z;
  data_height : Z;
  format : TextureFormat
}.

(** The calls of [lovrTextureAllocate]. The constant arguments of
    [glTexImage2D] and [glTexImage3D] (border [0], [GL_UNSIGNED_BYTE],
    [NULL]) are left out. *)
Inductive tex_call :=
| glTexStorage2D (target : GLtarget) (levels : Z) (internalFormat : GLformat) (w h : Z)
| glTexStorage3D (target : GLtarget) (levels : Z) (internalFormat : GLformat)
                 (w h d : Z)
| glTexImage2D (target : GLtarget) (level : Z) (internalFormat : GLformat) (w h : Z)
               (format_ : GLformat)
| glTexImage3D (target : GLtarget) (level : Z) (internalFormat : GLformat) (w h d : Z)
               (format_ : GLformat).

(** [MAX(x >> 1, 1)] *)
Definition halve (x : Z) : Z := Z.max (Z.shiftr x 1) 1.

(** The [switch] of the allocation loop for level [i]. *)
Definition level_calls (t : Texture) (internalFormat glFormat : GLformat)
  (i w h d : Z) : list tex_call :=
  match type t with
  | TEXTURE_2D => [glTexImage2D (glType t) i internalFormat w h glFormat]
  | TEXTURE_CUBE =>
    map (fun face : nat =>
           glTexImage2D (GL_TEXTURE_CUBE_MAP_POSITIVE_X_plus (Z.of_nat face)) i
                        internalFormat w h glFormat)
        (seq 0 6)
  | TEXTURE_ARRAY | TEXTURE_VOLUME =>
    [glTexImage3D (glType t) i internalFormat w h d glFormat]
  end.

(** The loop [for (i = 0; i < mipmapCount; i++)], with [levels] iterations
    left. *)
Fixpoint allocate_levels (t : Texture) (internalFormat glFormat : GLformat)
  (levels : nat) (i w h d : Z) : list tex_call :=
  match levels with
  | O => []
  | S levels' =>
    level_calls t internalFormat glFormat i w h d
    ++ allocate_levels t internalFormat glFormat levels' (i + 1) (halve w) (halve h)
         (if bool_decide (type t = TEXTURE_VOLUME) then halve d else d)
  end.

(** [lovrTextureAllocate] (desktop build). [gamma] is what
    [lovrGraphicsIsGammaCorrect] returns and [texture_storage] is
    [GLAD_GL_ARB_texture_storage]. [None] where the conversion of the
    logarithm is undefined. *)
Definition lovrTextureAllocate (gamma texture_storage : bool) (t : Texture)
  (textureData : TextureData) : option (Texture * list tex_call) :=
  let w := data_width textureData in
  let h := data_height textureData in
  let d := depth t in
  match lovrTextureAllocate_mipmapCount (type t) (mipmaps t) w h d with
  | None => None
  | Some count =>
    let t' := mkTexture (type t) (glType t) w h d count (srgb t) (mipmaps t) true in
    if isTextureFormatCompressed (format textureData) then Some (t', [])
    else
      let srgb_ := gamma && srgb t' in
      let glFormat := convertTextureFormat (format textureData) in
      let internalFormat := convertTextureFormatInternal (format textureData) srgb_ in
      if texture_storage
      then
        if bool_decide (type t' = TEXTURE_ARRAY)
        then Some (t', [glTexStorage3D (glType t') count internalFormat w h d])
        else Some (t', [glTexStorage2D (glType t') count internalFormat w h])
      else
        Some (t', allocate_levels t' internalFormat glFormat (Z.to_nat count) 0 w h d)
  end.

(** [x >> n] on [int]s: undefined for a shift that is negative or not
    below the width of [int]. *)
Definition shift_right (x n : Z) : option Z :=
  if (0 <=? n) && (n <? 32) then Some (Z.shiftr x n) else None.

(** [lovrTextureGetWidth], [lovrTextureGetHeight], [lovrTextureGetDepth] *)
Definition lovrTextureGetWidth (t : Texture) (mipmap : Z) : option Z :=
  (fun s => Z.max s 1) <$> shift_right (width t) mipmap.

Definition lovrTextureGetHeight (t : Texture) (mipmap : Z) : option Z :=
  (fun s => Z.max s 1) <$> shift_right (height t) mipmap.

Definition lovrTextureGetDepth (t : Texture) (mipmap : Z) : option Z :=
  if bool_decide (type t = TEXTURE_VOLUME)
  then (fun s => Z.max s 1) <$> shift_right (depth t) mipmap
  else Some (depth t).

Definition lovrTextureGetMipmapCount (t : Texture) : Z := mipmapCount t.

(** The calls for all the levels below [count], with the sizes the
    getters report. *)
Definition getter_levels (t : Texture) (internalFormat glFormat : GLformat)
  (count : nat) : list tex_call :=
  flat_map (fun i : nat =>
              match lovrTextureGetWidth t (Z.of_nat i),
                    lovrTextureGetHeight t (Z.of_nat i),
                    lovrTextureGetDepth t (Z.of_nat i) with
              | Some w, Some h, Some d =>
                level_calls t internalFormat glFormat (Z.of_nat i) w h d
              | _, _, _ => []
              end)
           (seq 0 count).

(** A 2D texture of 640 by 480 pixels. *)
Definition example_texture : Texture :=
  mkTexture TEXTURE_2D GL_TEXTURE_2D 0 0 1 0 true true false.

Definition example_data : TextureData := mkTextureData 640 480 FORMAT_RGBA.

(** ** Halving *)

Lemma shiftr_shiftr_1 x i : 0 <= i -> Z.shiftr (Z.shiftr x i) 1 = Z.shiftr x (i + 1).
Proof. intros Hi. rewrite Z.shiftr_shiftr by lia. reflexivity. Qed.

(** Halving a level size gives the next level's size. *)
Lemma halve_level x i :
  0 <= i -> halve (Z.max (Z.shiftr x i) 1) = Z.max (Z.shiftr x (i + 1)) 1.
Proof.
  intros Hi. unfold halve.
  destruct (Z.max_spec (Z.shiftr x i) 1) as [[Hlt ->]|[Hge ->]].
  - change (Z.shiftr 1 1) with 0.
    rewrite <- shiftr_shiftr_1 by assumption.
    rewrite (Z.shiftr_div_pow2 (Z.shiftr x i) 1) by lia.
    change (2 ^ 1) with 2.
    assert (Z.shiftr x i / 2 <= 0) by (apply Z.div_le_upper_bound; lia).
    lia.
  - rewrite shiftr_shiftr_1 by assumption. reflexivity.
Qed.

Lemma shift_right_defined x n : 0 <= n < 32 -> shift_right x n = Some (Z.shiftr x n).
Proof.
  intros H. unfold shift_right.
  destruct (Z.leb_spec 0 n), (Z.ltb_spec n 32); try lia. reflexivity.
Qed.

Lemma max_shiftr_0 x : 1 <= x -> Z.max (Z.shiftr x 0) 1 = x.
Proof. intros H. rewrite Z.shiftr_0_r. lia. Qed.

(** The loop, started at level [i] with that level's sizes, issues the
    calls of the levels [i .. i + levels - 1] with the sizes the getters
    report. *)
Lemma allocate_levels_getters t internalFormat glFormat levels : forall i : nat,
  (i + levels <= 32)%nat ->
  allocate_levels t internalFormat glFormat levels (Z.of_nat i)
    (Z.max (Z.shiftr (width t) (Z.of_nat i)) 1)
    (Z.max (Z.shiftr (height t) (Z.of_nat i)) 1)
    (if bool_decide (type t = TEXTURE_VOLUME)
     then Z.max (Z.shiftr (depth t) (Z.of_nat i)) 1 else depth t)
  = flat_map (fun j : nat =>
                match lovrTextureGetWidth t (Z.of_nat j),
                      lovrTextureGetHeight t (Z.of_nat j),
                      lovrTextureGetDepth t (Z.of_nat j) with
                | Some w, Some h, Some d =>
                  level_calls t internalFormat glFormat (Z.of_nat j) w h d
                | _, _, _ => []
                end)
             (seq i levels).
Proof.
  induction levels as [|levels IH]; intros i Hi; [reflexivity|].
  cbn [allocate_levels seq flat_map]. rewrite <- (IH (S i)) by lia.
  unfold lovrTextureGetWidth, lovrTextureGetHeight, lovrTextureGetDepth.
  rewrite !shift_right_defined by lia. cbn [fmap option_fmap option_map].
  f_equal.
  - destruct (bool_decide (type t = TEXTURE_VOLUME)); reflexivity.
  - rewrite !halve_level by lia.
    replace (Z.of_nat (S i)) with (Z.of_nat i + 1) by lia.
    destruct (bool_decide (type t = TEXTURE_VOLUME)); [|reflexivity].
    rewrite halve_level by lia. reflexivity.
Qed.

Lemma log2_plus_1_bounds x :
  1 <= x < 2 ^ 31 -> Mipmaps.log2_plus_1 x = Some (Z.log2 x + 1) /\ 0 <= Z.log2 x < 31.
Proof.
  intros Hx. unfold Mipmaps.log2_plus_1.
  destruct (Z.leb_spec 1 x); [|lia]. split; [reflexivity|].
  split; [apply Z.log2_nonneg|]. apply Z.log2_lt_pow2; lia.
Qed.

(** The dimension whose logarithm gives the mipmap count. *)
Definition dimension (type_ : TextureType) (w h d : Z) : Z :=
  if bool_decide (type_ = TEXTURE_VOLUME) then Z.max (Z.max w h) d else Z.max w h.

Lemma mipmapCount_bounds type_ mipmaps_ w h d :
  1 <= w < 2 ^ 31 -> 1 <= h < 2 ^ 31 -> 1 <= d < 2 ^ 31 ->
  exists count,
    lovrTextureAllocate_mipmapCount type_ mipmaps_ w h d = Some count
    /\ 1 <= count <= 31
    /\ (mipmaps_ = true -> count = Z.log2 (dimension type_ w h d) + 1).
Proof.
  intros Hw Hh Hd. unfold lovrTextureAllocate_mipmapCount, dimension.
  destruct mipmaps_.
  - destruct (log2_plus_1_bounds
                (if bool_decide (type_ = TEXTURE_VOLUME)
                 then Z.max (Z.max w h) d else Z.max w h)) as [-> Hb].
    { destruct (bool_decide _); lia. }
    eexists. split; [reflexivity|]. split; [lia|]. reflexivity.
  - exists 1. split; [reflexivity|]. split; [lia|discriminate].
Qed.

(** ** The levels the fallback allocates *)

(** X11. Without [glTexStorage], an uncompressed texture is allocated
    level by level, and the sizes passed for level [i] are the ones
    [lovrTextureGetWidth], [lovrTextureGetHeight] and
    [lovrTextureGetDepth] report for mipmap [i] afterwards; the number of
    levels is [lovrTextureGetMipmapCount], between 1 and 31. *)
Theorem lovrTextureAllocate_levels (gamma : bool) (t : Texture)
  (textureData : TextureData) :
  1 <= data_width textureData < 2 ^ 31 ->
  1 <= data_height textureData < 2 ^ 31 ->
  1 <= depth t < 2 ^ 31 ->
  isTextureFormatCompressed (format textureData) = false ->
  exists t' calls_,
    lovrTextureAllocate gamma false t textureData = Some (t', calls_)
    /\ 1 <= lovrTextureGetMipmapCount t' <= 31
    /\ lovrTextureGetWidth t' 0 = Some (data_width textureData)
    /\ lovrTextureGetHeight t' 0 = Some (data_height textureData)
    /\ calls_
       = getter_levels t'
           (convertTextureFormatInternal (format textureData) (gamma && srgb t))
           (convertTextureFormat (format textureData))
           (Z.to_nat (lovrTextureGetMipmapCount t')).
Proof.
  intros Hw Hh Hd Hfmt. unfold lovrTextureAllocate.
  destruct (mipmapCount_bounds (type t) (mipmaps t) _ _ _ Hw Hh Hd)
    as (count & -> & Hcount & _).
  rewrite Hfmt. cbn [srgb type glType]. eexists _, _. split; [reflexivity|].
  cbn [lovrTextureGetMipmapCount mipmapCount].
  split; [exact Hcount|].
  unfold lovrTextureGetWidth, lovrTextureGetHeight. cbn [width height].
  rewrite !shift_right_defined by lia. cbn [fmap option_fmap option_map].
  rewrite !max_shiftr_0 by lia.
  split; [reflexivity|]. split; [reflexivity|].
  unfold getter_levels.
  match goal with |- allocate_levels ?t' _ _ _ _ _ _ _ = _ =>
    rewrite <- (allocate_levels_getters t' _ _ (Z.to_nat count) 0) by lia
  end.
  cbn [width height depth type Z.of_nat]. rewrite !max_shiftr_0 by lia.
  destruct (bool_decide (type t = TEXTURE_VOLUME)); reflexivity.
Qed.

(** ** The end of the chain *)

Lemma level_at_top x dim :
  1 <= x <= dim -> Z.max (Z.shiftr x (Z.log2 dim)) 1 = 1.
Proof.
  intros Hx. rewrite Z.shiftr_div_pow2 by apply Z.log2_nonneg.
  destruct (Z.log2_spec dim ltac:(lia)) as [Hlo Hhi].
  assert (Hpos : 0 < 2 ^ Z.log2 dim)
    by (apply Z.pow_pos_nonneg; [lia|apply Z.log2_nonneg]).
  assert (x / 2 ^ Z.log2 dim < 2).
  { apply Z.div_lt_upper_bound; [exact Hpos|].
    rewrite Z.pow_succ_r in Hhi by apply Z.log2_nonneg. lia. }
  assert (0 <= x / 2 ^ Z.log2 dim) by (apply Z.div_pos; lia).
  lia.
Qed.

Lemma level_below_top dim i :
  1 <= dim -> 0 <= i < Z.log2 dim -> 2 <= Z.max (Z.shiftr dim i) 1.
Proof.
  intros Hdim Hi. rewrite Z.shiftr_div_pow2 by lia.
  destruct (Z.log2_spec dim ltac:(lia)) as [Hlo _].
  assert (2 ^ (i + 1) <= 2 ^ Z.log2 dim) by (apply Z.pow_le_mono_r; lia).
  rewrite Z.pow_add_r in H by lia. change (2 ^ 1) with 2 in H.
  assert (Hpos : 0 < 2 ^ i) by (apply Z.pow_pos_nonneg; lia).
  assert (2 <= dim / 2 ^ i).
  { apply Z.div_le_lower_bound; [exact Hpos|]. lia. }
  lia.
Qed.

(** X12. With mipmaps, the chain a texture is allocated with ends
    exactly at the level of one pixel: at the last level the width and the
    height (and the depth of a volume texture) are 1, and at every level
    before it one of them is at least 2. *)
Theorem mip_chain_ends_at_one_pixel (gamma texture_storage : bool) (t : Texture)
  (textureData : TextureData) :
  mipmaps t = true ->
  1 <= data_width textureData < 2 ^ 31 ->
  1 <= data_height textureData < 2 ^ 31 ->
  1 <= depth t < 2 ^ 31 ->
  exists t' calls_,
    lovrTextureAllocate gamma texture_storage t textureData = Some (t', calls_)
    /\ let last := lovrTextureGetMipmapCount t' - 1 in
       lovrTextureGetWidth t' last = Some 1
       /\ lovrTextureGetHeight t' last = Some 1
       /\ (type t = TEXTURE_VOLUME -> lovrTextureGetDepth t' last = Some 1)
       /\ forall i, 0 <= i < last ->
            exists w h d,
              lovrTextureGetWidth t' i = Some w
              /\ lovrTextureGetHeight t' i = Some h
              /\ lovrTextureGetDepth t' i = Some d
              /\ (2 <= w \/ 2 <= h \/ (type t = TEXTURE_VOLUME /\ 2 <= d)).
Proof.
  intros Hm Hw Hh Hd.
  destruct (mipmapCount_bounds (type t) (mipmaps t) _ _ _ Hw Hh Hd)
    as (count & Hcount & Hb & Hlog).
  specialize (Hlog Hm).
  set (dim := dimension (type t) (data_width textureData) (data_height textureData)
                (depth t)) in *.
  assert (Hdim : data_width textureData <= dim /\ data_height textureData <= dim
                 /\ (type t = TEXTURE_VOLUME -> depth t <= dim)
                 /\ (dim = data_width textureData \/ dim = data_height textureData
                     \/ (type t = TEXTURE_VOLUME /\ dim = depth t))).
  { subst dim. unfold dimension. case_bool_decide as Hv.
    - split; [lia|]. split; [lia|]. split; [intros _; lia|].
      destruct (Z.max_spec (Z.max (data_width textureData) (data_height textureData))
                  (depth t)) as [[_ ->]|[_ ->]]; [right; right; auto|].
      destruct (Z.max_spec (data_width textureData) (data_height textureData))
        as [[_ ->]|[_ ->]]; auto.
    - split; [lia|]. split; [lia|]. split; [intros Hv'; contradiction|].
      destruct (Z.max_spec (data_width textureData) (data_height textureData))
        as [[_ ->]|[_ ->]]; auto. }
  destruct Hdim as (Hwd & Hhd & Hdd & Hwhich).
  assert (Hlast : count - 1 = Z.log2 dim) by lia.
  assert (Hres : exists calls_,
            lovrTextureAllocate gamma texture_storage t textureData
            = Some (mkTexture (type t) (glType t) (data_width textureData)
                      (data_height textureData) (depth t) count (srgb t) (mipmaps t)
                      true, calls_)).
  { unfold lovrTextureAllocate. rewrite Hcount.
    destruct (isTextureFormatCompressed _); [eauto|].
    destruct texture_storage; [|eauto]. destruct (bool_decide _); eauto. }
  destruct Hres as [calls_ Hres]. eexists _, calls_. split; [exact Hres|].
  cbn [lovrTextureGetMipmapCount mipmapCount]. rewrite Hlast.
  unfold lovrTextureGetWidth, lovrTextureGetHeight, lovrTextureGetDepth.
  cbn [width height depth type].
  split; [|split; [|split]].
  - rewrite shift_right_defined by lia. cbn. f_equal. apply level_at_top. lia.
  - rewrite shift_right_defined by lia. cbn. f_equal. apply level_at_top. lia.
  - intros Hv. rewrite (bool_decide_eq_true_2 _ Hv).
    rewrite shift_right_defined by lia. cbn. f_equal. apply level_at_top.
    specialize (Hdd Hv). lia.
  - intros i Hi. rewrite !shift_right_defined by lia.
    cbn [fmap option_fmap option_map].
    pose proof (level_below_top dim i ltac:(lia) Hi) as Hbig.
    destruct (bool_decide (type t = TEXTURE_VOLUME)) eqn:Hv.
    + eexists _, _, _. repeat (split; [reflexivity|]).
      destruct Hwhich as [Hq|[Hq|[Hq1 Hq]]]; rewrite Hq in Hbig; auto.
    + eexists _, _, _. repeat (split; [reflexivity|]).
      destruct Hwhich as [Hq|[Hq|[Hq1 Hq]]]; rewrite Hq in Hbig; auto.
      apply bool_decide_eq_false_1 in Hv. contradiction.
Qed.

Lemma lovrTextureAllocate_levels_witness :
  exists t' calls_,
    lovrTextureAllocate true false example_texture example_data = Some (t', calls_)
    /\ 1 <= lovrTextureGetMipmapCount t' <= 31
    /\ lovrTextureGetWidth t' 0 = Some 640
    /\ lovrTextureGetHeight t' 0 = Some 480
    /\ calls_ = getter_levels t' GL_SRGB8_ALPHA8 GL_RGBA
                   (Z.to_nat (lovrTextureGetMipmapCount t')).
Proof.
  apply (lovrTextureAllocate_levels true example_texture example_data);
    vm_compute; try split; congruence.
Defined.

Lemma mip_chain_ends_at_one_pixel_witness :
  exists t' calls_,
    lovrTextureAllocate true true example_texture example_data = Some (t', calls_)
    /\ lovrTextureGetWidth t' (lovrTextureGetMipmapCount t' - 1) = Some 1
    /\ lovrTextureGetHeight t' (lovrTextureGetMipmapCount t' - 1) = Some 1.
Proof.
  destruct (mip_chain_ends_at_one_pixel true true example_texture example_data)
    as (t' & calls_ & Hrun & Hw & Hh & _);
    [reflexivity|vm_compute; split; congruence..|].
  exists t', calls_. auto.
Defined.

(** The chain of the example: ten levels, from 640 by 480 down to 1 by
    1. *)
Example example_levels :
  snd <$> lovrTextureAllocate true false example_texture example_data
  = Some [glTexImage2D GL_TEXTURE_2D 0 GL_SRGB8_ALPHA8 640 480 GL_RGBA;
          glTexImage2D GL_TEXTURE_2D 1 GL_SRGB8_ALPHA8 320 240 GL_RGBA;
          glTexImage2D GL_TEXTURE_2D 2 GL_SRGB8_ALPHA8 160 120 GL_RGBA;
          glTexImage2D GL_TEXTURE_2D 3 GL_SRGB8_ALPHA8 80 60 GL_RGBA;
          glTexImage2D GL_TEXTURE_2D 4 GL_SRGB8_ALPHA8 40 30 GL_RGBA;
          glTexImage2D GL_TEXTURE_2D 5 GL_SRGB8_ALPHA8 20 15 GL_RGBA;
          glTexImage2D GL_TEXTURE_2D 6 GL_SRGB8_ALPHA8 10 7 GL_RGBA;
          glTexImage2D GL_TEXTURE_2D 7 GL_SRGB8_ALPHA8 5 3 GL_RGBA;
          glTexImage2D GL_TEXTURE_2D 8 GL_SRGB8_ALPHA8 2 1 GL_RGBA;
          glTexImage2D GL_TEXTURE_2D 9 GL_SRGB8_ALPHA8 1 1 GL_RGBA].
Proof. vm_compute. reflexivity. Qed.

End TextureLevels.

(** * Meshes: mapped vertices, indices and the draw range

    [lovrMeshMapVertices], [lovrMeshUnmapVertices], [lovrMeshReadIndices],
    [lovrMeshWriteIndices], [lovrMeshUnmapIndices], [lovrMeshGetDrawRange]
    and [lovrMeshSetDrawRange] of the OpenGL backend. *)

Module MeshBuffers.
Local Open Scope Z_scope.

Abbreviation cell := StateCache.cell.

(** [struct Mesh]: the vertex store with its count, stride, usage and
    buffer (as [lovrMeshResize] has them), and the fields of the index
    store, the dirty range and the draw range. *)
Record Mesh := mkMesh {
  vertices : Meshes.Mesh;
  indices : list cell;
  indexCount : Z;
  indexSize : Z;
  indexCapacity : Z;
  mappedIndices : bool;
  dirtyStart : Z;
  dirtyEnd : Z;
  rangeStart : Z;
  rangeCount : Z;
  vao : Z;
  ibo : Z
}.

Definition set_dirty (start_ end_ : Z) (m : Mesh) : Mesh :=
  mkMesh (vertices m) (indices m) (indexCount m) (indexSize m) (indexCapacity m)
         (mappedIndices m) start_ end_ (rangeStart m) (rangeCount m) (vao m) (ibo m).

Definition set_range (start_ count_ : Z) (m : Mesh) : Mesh :=
  mkMesh (vertices m) (indices m) (indexCount m) (indexSize m) (indexCapacity m)
         (mappedIndices m) (dirtyStart m) (dirtyEnd m) start_ count_ (vao m) (ibo m).

Definition set_mappedIndices (b : bool) (m : Mesh) : Mesh :=
  mkMesh (vertices m) (indices m) (indexCount m) (indexSize m) (indexCapacity m)
         b (dirtyStart m) (dirtyEnd m) (rangeStart m) (rangeCount m) (vao m) (ibo m).

Definition set_index_layout (size_ count_ : Z) (m : Mesh) : Mesh :=
  mkMesh (vertices m) (indices m) count_ size_ (indexCapacity m)
         (mappedIndices m) (dirtyStart m) (dirtyEnd m) (rangeStart m) (rangeCount m)
         (vao m) (ibo m).

Definition set_index_store (capacity : Z) (store : list cell) (m : Mesh) : Mesh :=
  mkMesh (vertices m) store (indexCount m) (indexSize m) capacity
         (mappedIndices m) (dirtyStart m) (dirtyEnd m) (rangeStart m) (rangeCount m)
         (vao m) (ibo m).

(** Arithmetic on [uint32_t] and [size_t]. *)
Definition uint32 (z : Z) : Z := z mod 2 ^ 32.
Abbreviation size_t := Shaders.size_t.

Definition INT_MAX : Z := 2147483647.

(** The GL calls of this part: those of the state cache, and
    [glBufferSubData] with the bytes it reads. *)
Inductive call :=
| gl (c : StateCache.gl_call)
| glBufferSubData (target : StateCache.GLenum) (offset size : Z) (bytes : list cell).

(** The state cache, and all the calls issued so far in their order. *)
Record World := mkWorld {
  cache : StateCache.State;
  trace : list call
}.

(** An operation of the state cache: the calls it adds to the cache's
    log are added to the trace. *)
Definition cached (f : StateCache.State -> StateCache.State) (w : World) : World :=
  let st := f (cache w) in
  mkWorld st
    (trace w ++ map gl (drop (length (StateCache.calls (cache w))) (StateCache.calls st))).

Definition issue (c : call) (w : World) : World := mkWorld (cache w) (trace w ++ [c]).

(** What [lovrThrow] raises in this part. *)
Inductive thrown := InvalidDrawRange (first last : Z).

Section Backend.

(** [mesh->usage == MESH_STREAM]: [mesh->usage] holds a [GLenum] and
    [MESH_STREAM] is an enumerator of [MeshUsage]; the numbers of both come
    from headers, so the outcome of the comparison is a parameter. *)
Variable is_MESH_STREAM : StateCache.GLenum -> bool.

(** [nextPo2] of [core/util], which is not part of the sources. *)
Variable nextPo2 : Z -> Z.

(** [lovrMeshMapVertices]. The pointer it returns is given as the byte
    offset into the vertex store; [read] is not used. *)
Definition lovrMeshMapVertices (mesh : Mesh) (start count_ : Z) (read write : bool)
  : Mesh * Z :=
  ((if write
    then set_dirty (Z.min (dirtyStart mesh) start)
                   (Z.max (dirtyEnd mesh) (uint32 (start + count_))) mesh
    else mesh),
   size_t (start * Meshes.stride (vertices mesh))).

(** [lovrMeshUnmapVertices] *)
Definition lovrMeshUnmapVertices (mesh : Mesh) (w : World) : Mesh * World :=
  if dirtyEnd mesh =? 0 then (mesh, w)
  else
    let stride := Meshes.stride (vertices mesh) in
    let w := cached (StateCache.lovrGpuBindVertexBuffer (Meshes.vbo (vertices mesh))) w in
    let w :=
      if is_MESH_STREAM (Meshes.usage (vertices mesh))
      then
        issue (gl (StateCache.glBufferData StateCache.GL_ARRAY_BUFFER
                     (size_t (Meshes.count (vertices mesh) * stride))
                     (Some (Meshes.data (vertices mesh)))
                     (Meshes.usage (vertices mesh)))) w
      else
        let offset := size_t (dirtyStart mesh * stride) in
        let count_ := size_t (uint32 (dirtyEnd mesh - dirtyStart mesh) * stride) in
        issue (glBufferSubData StateCache.GL_ARRAY_BUFFER offset count_
                 (take (Z.to_nat count_)
                       (drop (Z.to_nat offset) (Meshes.data (vertices mesh))))) w in
    (set_dirty INT_MAX 0 mesh, w).

(** [lovrMeshUnmapIndices] *)
Definition lovrMeshUnmapIndices (mesh : Mesh) (w : World) : Mesh * World :=
  if negb (mappedIndices mesh) then (mesh, w)
  else
    let mesh := set_mappedIndices false mesh in
    let w := cached (StateCache.lovrGpuBindIndexBuffer (ibo mesh)) w in
    let size_ := size_t (indexCount mesh * indexSize mesh) in
    (mesh,
     issue (glBufferSubData StateCache.GL_ELEMENT_ARRAY_BUFFER 0 size_
              (take (Z.to_nat size_) (indices mesh))) w).

(** What [lovrMeshReadIndices] hands back: [*count], [*size], and the
    pointer ([None] for [NULL], otherwise the index store). *)
Record IndexRead := mkIndexRead {
  read_count : Z;
  read_size : Z;
  read_pointer : option (list cell)
}.

(** [lovrMeshReadIndices] *)
Definition lovrMeshReadIndices (mesh : Mesh) (w : World) : IndexRead * Mesh * World :=
  if indexCount mesh =? 0
  then (mkIndexRead (indexCount mesh) (indexSize mesh) None, mesh, w)
  else
    let r := if mappedIndices mesh then lovrMeshUnmapIndices mesh w else (mesh, w) in
    (mkIndexRead (indexCount mesh) (indexSize mesh) (Some (indices r.1)), r.1, r.2).

(** [lovrMeshWriteIndices]; the pointer it returns is [None] for [NULL],
    otherwise the index store the caller writes to. *)
Definition lovrMeshWriteIndices (mesh : Mesh) (count_ size_ : Z) (w : World)
  : option (list cell) * Mesh * World :=
  let r := if mappedIndices mesh then lovrMeshUnmapIndices mesh w else (mesh, w) in
  let mesh := set_index_layout size_ count_ r.1 in
  let w := r.2 in
  if count_ =? 0 then (None, mesh, w)
  else
    let w := cached (StateCache.lovrGpuBindVertexArray (vao mesh)) w in
    let w := cached (StateCache.lovrGpuBindIndexBuffer (ibo mesh)) w in
    let mesh := set_mappedIndices true mesh in
    if indexCapacity mesh <? size_t (size_ * count_)
    then
      let capacity := size_t (nextPo2 (size_t (size_ * count_))) in
      let mesh :=
        set_index_store capacity (Meshes.realloc (Z.to_nat capacity) (indices mesh))
                        mesh in
      (Some (indices mesh), mesh,
       issue (gl (StateCache.glBufferData StateCache.GL_ELEMENT_ARRAY_BUFFER capacity
                    None (Meshes.usage (vertices mesh)))) w)
    else (Some (indices mesh), mesh, w).

(** [lovrMeshGetDrawRange]: [*start] and [*count]. *)
Definition lovrMeshGetDrawRange (mesh : Mesh) : Z * Z :=
  (rangeStart mesh, rangeCount mesh).

(** [lovrMeshSetDrawRange] *)
Definition lovrMeshSetDrawRange (mesh : Mesh) (start count_ : Z) : Mesh + thrown :=
  let limit :=
    if 0 <? indexCount mesh then indexCount mesh else Meshes.count (vertices mesh) in
  if uint32 (start + count_) <=? limit
  then inl (set_range start count_ mesh)
  else inr (InvalidDrawRange (uint32 (start + 1)) (uint32 (start + count_ + 1))).

(** Vertex ranges mapped for writing, one after the other. *)
Definition write_ranges (ranges : list (Z * Z)) (mesh : Mesh) : Mesh :=
  foldl (fun m r => (lovrMeshMapVertices m r.1 r.2 false true).1) mesh ranges.

(** ** The cached binds *)

Lemma cached_hit f w : f (cache w) = cache w -> cached f w = w.
Proof.
  intros H. unfold cached. rewrite H, drop_all. cbn. rewrite app_nil_r.
  destruct w. reflexivity.
Qed.

Lemma bind_vertex_buffer w vb :
  trace (cached (StateCache.lovrGpuBindVertexBuffer vb) w)
  = trace w
    ++ (if StateCache.vertexBuffer (StateCache.bindings (cache w)) =? vb then []
        else [gl (StateCache.glBindBuffer StateCache.GL_ARRAY_BUFFER vb)])
  /\ StateCache.vertexBuffer
       (StateCache.bindings (cache (cached (StateCache.lovrGpuBindVertexBuffer vb) w)))
     = vb.
Proof.
  unfold cached, StateCache.lovrGpuBindVertexBuffer. cbn [cache trace].
  destruct (Z.eqb_spec (StateCache.vertexBuffer (StateCache.bindings (cache w))) vb)
    as [He|Hne]; cbn [negb].
  - rewrite drop_all. split; [reflexivity|exact He].
  - cbn. rewrite drop_app_length. split; reflexivity.
Qed.

Lemma bind_index_buffer w ib :
  trace (cached (StateCache.lovrGpuBindIndexBuffer ib) w)
  = trace w
    ++ (if StateCache.indexBuffer (StateCache.bindings (cache w)) =? ib then []
        else [gl (StateCache.glBindBuffer StateCache.GL_ELEMENT_ARRAY_BUFFER ib)])
  /\ StateCache.indexBuffer
       (StateCache.bindings (cache (cached (StateCache.lovrGpuBindIndexBuffer ib) w)))
     = ib.
Proof.
  unfold cached, StateCache.lovrGpuBindIndexBuffer. cbn [cache trace].
  destruct (Z.eqb_spec (StateCache.indexBuffer (StateCache.bindings (cache w))) ib)
    as [He|Hne]; cbn [negb].
  - rewrite drop_all. split; [reflexivity|exact He].
  - cbn. rewrite drop_app_length. split; reflexivity.
Qed.

Lemma bind_index_buffer_hit w ib :
  StateCache.indexBuffer (StateCache.bindings (cache w)) = ib ->
  cached (StateCache.lovrGpuBindIndexBuffer ib) w = w.
Proof.
  intros H. apply cached_hit. unfold StateCache.lovrGpuBindIndexBuffer.
  rewrite H, Z.eqb_refl. reflexivity.
Qed.

(** ** The dirty range *)

Lemma uint32_small z : 0 <= z < 2 ^ 32 -> uint32 z = z.
Proof. intros H. unfold uint32. apply Z.mod_small. exact H. Qed.

Lemma write_ranges_snoc ranges r mesh :
  write_ranges (ranges ++ [r]) mesh
  = (lovrMeshMapVertices (write_ranges ranges mesh) r.1 r.2 false true).1.
Proof. unfold write_ranges. rewrite foldl_app. reflexivity. Qed.

(** X13. Vertex ranges mapped for writing widen the dirty range to
    cover them: afterwards every range written lies between [dirtyStart]
    and [dirtyEnd], the range has grown no further than the ranges written
    ask for, and nothing else of the mesh has changed. A map that is not
    for writing leaves the mesh as it is. *)
Theorem written_ranges_are_dirty (ranges : list (Z * Z)) (mesh : Mesh) :
  Forall (fun r => 0 <= r.1 /\ 0 <= r.2 /\ r.1 + r.2 < 2 ^ 32) ranges ->
  let mesh' := write_ranges ranges mesh in
  (forall r, r ∈ ranges -> dirtyStart mesh' <= r.1 /\ r.1 + r.2 <= dirtyEnd mesh')
  /\ dirtyStart mesh' <= dirtyStart mesh
  /\ dirtyEnd mesh <= dirtyEnd mesh'
  /\ (dirtyStart mesh' = dirtyStart mesh
      \/ exists r, r ∈ ranges /\ dirtyStart mesh' = r.1)
  /\ (dirtyEnd mesh' = dirtyEnd mesh
      \/ exists r, r ∈ ranges /\ dirtyEnd mesh' = r.1 + r.2)
  /\ set_dirty (dirtyStart mesh) (dirtyEnd mesh) mesh' = mesh
  /\ (forall start count_ read,
        (lovrMeshMapVertices mesh start count_ read false).1 = mesh).
Proof.
  intros Hranges. cbv zeta.
  induction ranges as [|r ranges IH] using rev_ind.
  - cbn. split; [intros r Hr; apply elem_of_nil in Hr; destruct Hr|].
    repeat split; try lia; auto. destruct mesh; reflexivity.
  - apply Forall_app in Hranges as [Hrs Hr].
    apply (proj1 (Forall_singleton _ _)) in Hr. cbn beta in Hr. destruct (IH Hrs) as (Hcover & Hlo & Hhi & Hlo' & Hhi' & Hsame & Hread).
    rewrite write_ranges_snoc. set (m := write_ranges ranges mesh) in *.
    unfold lovrMeshMapVertices. cbn [fst set_dirty dirtyStart dirtyEnd].
    rewrite uint32_small by lia.
    split; [|split; [lia|split; [lia|split; [|split; [|split]]]]].
    + intros q Hq. apply elem_of_app in Hq as [Hq|Hq].
      * specialize (Hcover q Hq). lia.
      * apply list_elem_of_singleton in Hq. subst q. lia.
    + destruct (Z.min_spec (dirtyStart m) r.1) as [[_ ->]|[_ ->]].
      * destruct Hlo' as [Hl|(q & Hq & Hl)]; [left; exact Hl|].
        right. exists q. split; [apply elem_of_app; left; exact Hq|exact Hl].
      * right. exists r. split; [|reflexivity].
        apply elem_of_app. right. apply list_elem_of_singleton. reflexivity.
    + destruct (Z.max_spec (dirtyEnd m) (r.1 + r.2)) as [[_ ->]|[_ ->]].
      * right. exists r. split; [|reflexivity].
        apply elem_of_app. right. apply list_elem_of_singleton. reflexivity.
      * destruct Hhi' as [Hl|(q & Hq & Hl)]; [left; exact Hl|].
        right. exists q. split; [apply elem_of_app; left; exact Hq|exact Hl].
    + rewrite <- Hsame at 3. reflexivity.
    + intros _ _ _. reflexivity.
Qed.

(** ** The flush of the dirty range *)

(** What [lovrMeshUnmapVertices] issues: nothing when nothing is dirty;
    otherwise one upload after at most one bind of the vertex buffer, the
    whole store where the comparison with [MESH_STREAM] holds and the dirty
    range where it does not. A second unmap right after it does nothing. *)
Lemma lovrMeshUnmapVertices_trace (mesh : Mesh) (w : World) :
  let r := lovrMeshUnmapVertices mesh w in
  let stride := Meshes.stride (vertices mesh) in
  let vbo := Meshes.vbo (vertices mesh) in
  let bind :=
    if StateCache.vertexBuffer (StateCache.bindings (cache w)) =? vbo then []
    else [gl (StateCache.glBindBuffer StateCache.GL_ARRAY_BUFFER vbo)] in
  (dirtyEnd mesh = 0 -> r = (mesh, w))
  /\ (dirtyEnd mesh <> 0 ->
      r.1 = set_dirty INT_MAX 0 mesh
      /\ exists upload,
           trace r.2 = trace w ++ bind ++ [upload]
           /\ (is_MESH_STREAM (Meshes.usage (vertices mesh)) = true ->
               upload = gl (StateCache.glBufferData StateCache.GL_ARRAY_BUFFER
                              (size_t (Meshes.count (vertices mesh) * stride))
                              (Some (Meshes.data (vertices mesh)))
                              (Meshes.usage (vertices mesh))))
           /\ (is_MESH_STREAM (Meshes.usage (vertices mesh)) = false ->
               0 <= dirtyStart mesh <= dirtyEnd mesh -> dirtyEnd mesh < 2 ^ 32 ->
               0 <= stride -> dirtyEnd mesh * stride < 2 ^ 64 ->
               upload = glBufferSubData StateCache.GL_ARRAY_BUFFER
                          (dirtyStart mesh * stride)
                          ((dirtyEnd mesh - dirtyStart mesh) * stride)
                          (take (Z.to_nat ((dirtyEnd mesh - dirtyStart mesh) * stride))
                                (drop (Z.to_nat (dirtyStart mesh * stride))
                                      (Meshes.data (vertices mesh))))))
  /\ lovrMeshUnmapVertices r.1 r.2 = r.
Proof.
  cbv zeta. unfold lovrMeshUnmapVertices.
  destruct (Z.eqb_spec (dirtyEnd mesh) 0) as [H0|Hne].
  - split; [reflexivity|]. split; [contradiction|].
    cbn [fst snd]. rewrite H0. reflexivity.
  - split; [contradiction|]. cbn [fst snd]. split; [|reflexivity].
    intros _. split; [reflexivity|].
    destruct (bind_vertex_buffer w (Meshes.vbo (vertices mesh))) as [Htrace _].
    destruct (is_MESH_STREAM (Meshes.usage (vertices mesh))).
    + eexists. cbn [issue trace]. rewrite Htrace, <- app_assoc.
      split; [reflexivity|]. split; [reflexivity|discriminate].
    + eexists. cbn [issue trace]. rewrite Htrace, <- app_assoc.
      split; [reflexivity|]. split; [discriminate|].
      intros _ Hrange Hend Hstride Hbytes.
      rewrite (uint32_small (dirtyEnd mesh - dirtyStart mesh)) by lia.
      rewrite !ShaderCreate.size_t_small by nia. reflexivity.
Qed.

(** ** The draw range *)

(** X15. [lovrMeshSetDrawRange] stores a range that ends within the
    limit (the index count if the mesh has indices, else the vertex count)
    and [lovrMeshGetDrawRange] then returns it, nothing else being
    changed; a range that ends beyond the limit throws. The end is
    computed in 32 bits: a range whose end wraps around is accepted when
    the wrapped end is within the limit. *)
Theorem lovrMeshSetDrawRange_checked (mesh : Mesh) (start count_ : Z) :
  0 <= start < 2 ^ 32 -> 0 <= count_ < 2 ^ 32 ->
  let limit :=
    if 0 <? indexCount mesh then indexCount mesh else Meshes.count (vertices mesh) in
  (start + count_ <= limit ->
   exists mesh',
     lovrMeshSetDrawRange mesh start count_ = inl mesh'
     /\ lovrMeshGetDrawRange mesh' = (start, count_)
     /\ set_range (rangeStart mesh) (rangeCount mesh) mesh' = mesh)
  /\ (limit < start + count_ < 2 ^ 32 ->
      exists e, lovrMeshSetDrawRange mesh start count_ = inr e)
  /\ (2 ^ 32 <= start + count_ -> start + count_ - 2 ^ 32 <= limit ->
      lovrMeshSetDrawRange mesh start count_ = inl (set_range start count_ mesh)).
Proof.
  intros Hs Hc limit. unfold lovrMeshSetDrawRange. fold limit.
  split; [|split].
  - intros Hfit.
    assert (Hle : uint32 (start + count_) <= limit).
    { unfold uint32. pose proof (Z.mod_le (start + count_) (2 ^ 32)). lia. }
    destruct (Z.leb_spec (uint32 (start + count_)) limit); [|lia].
    eexists. split; [reflexivity|]. split; [reflexivity|].
    destruct mesh; reflexivity.
  - intros Hover. rewrite uint32_small by lia.
    destruct (Z.leb_spec (start + count_) limit); [lia|]. eexists. reflexivity.
  - intros Hwrap Hfit.
    assert (Hw : uint32 (start + count_) = start + count_ - 2 ^ 32).
    { unfold uint32. symmetry. apply Z.mod_unique with 1; lia. }
    rewrite Hw. destruct (Z.leb_spec (start + count_ - 2 ^ 32) limit); [|lia].
    reflexivity.
Qed.

(** ** Indices *)

(** X16. Indices that were written are uploaded once. After
    [lovrMeshWriteIndices] with a count that is not zero the indices are
    mapped; the next [lovrMeshReadIndices] reports that count and size and
    uploads the first count times size bytes of the index store with a
    single [glBufferSubData], without binding anything (the write left the
    index buffer bound); a read or an unmap after that issues no call. *)
Theorem written_indices_are_uploaded_once (mesh : Mesh) (count_ size_ : Z) (w : World) :
  count_ <> 0 ->
  let wr := lovrMeshWriteIndices mesh count_ size_ w in
  let rd := lovrMeshReadIndices wr.1.2 wr.2 in
  wr.1.1 = Some (indices wr.1.2)
  /\ mappedIndices wr.1.2 = true
  /\ rd.1.1 = mkIndexRead count_ size_ (Some (indices wr.1.2))
  /\ trace rd.2
     = trace wr.2
       ++ [glBufferSubData StateCache.GL_ELEMENT_ARRAY_BUFFER 0 (size_t (count_ * size_))
             (take (Z.to_nat (size_t (count_ * size_))) (indices wr.1.2))]
  /\ rd.1.2 = set_mappedIndices false wr.1.2
  /\ lovrMeshReadIndices rd.1.2 rd.2 = rd
  /\ lovrMeshUnmapIndices rd.1.2 rd.2 = (rd.1.2, rd.2).
Proof.
  intros Hcount. cbv zeta.
  assert (Hwr : exists m1 w1,
            lovrMeshWriteIndices mesh count_ size_ w = (Some (indices m1), m1, w1)
            /\ mappedIndices m1 = true /\ indexCount m1 = count_ /\ indexSize m1 = size_
            /\ StateCache.indexBuffer (StateCache.bindings (cache w1)) = ibo m1).
  { unfold lovrMeshWriteIndices.
    destruct (Z.eqb_spec count_ 0) as [|_]; [contradiction|].
    set (r := if mappedIndices mesh then lovrMeshUnmapIndices mesh w else (mesh, w)).
    set (m0 := set_mappedIndices true (set_index_layout size_ count_ r.1)).
    set (w0 := cached (StateCache.lovrGpuBindIndexBuffer (ibo (set_index_layout size_ count_ r.1)))
                 (cached (StateCache.lovrGpuBindVertexArray
                            (vao (set_index_layout size_ count_ r.1))) r.2)).
    assert (Hbound : StateCache.indexBuffer (StateCache.bindings (cache w0)) = ibo m0)
      by (subst w0; apply bind_index_buffer).
    destruct (indexCapacity m0 <? size_t (size_ * count_)).
    - eexists _, _. split; [reflexivity|]. repeat split; try reflexivity. exact Hbound.
    - eexists _, _. split; [reflexivity|]. repeat split; try reflexivity. exact Hbound. }
  destruct Hwr as (m1 & w1 & -> & Hmapped & Hic & His & Hbound).
  cbn [fst snd]. split; [reflexivity|]. split; [exact Hmapped|].
  set (upload := glBufferSubData StateCache.GL_ELEMENT_ARRAY_BUFFER 0
                   (size_t (count_ * size_))
                   (take (Z.to_nat (size_t (count_ * size_))) (indices m1))).
  assert (Hun : lovrMeshUnmapIndices m1 w1 = (set_mappedIndices false m1, issue upload w1)).
  { unfold lovrMeshUnmapIndices. rewrite Hmapped.
    cbn [negb set_mappedIndices ibo indexCount indexSize indices].
    rewrite (bind_index_buffer_hit w1 (ibo m1) Hbound), Hic, His. reflexivity. }
  assert (Hrd : lovrMeshReadIndices m1 w1
                = (mkIndexRead count_ size_ (Some (indices m1)),
                   set_mappedIndices false m1, issue upload w1)).
  { unfold lovrMeshReadIndices. rewrite Hic, His, Hmapped, Hun.
    destruct (Z.eqb_spec count_ 0) as [|_]; [contradiction|]. reflexivity. }
  rewrite Hrd. cbn [fst snd].
  split; [reflexivity|]. split; [reflexivity|]. split; [reflexivity|].
  split.
  - unfold lovrMeshReadIndices.
    cbn [set_mappedIndices indexCount mappedIndices indexSize indices fst snd].
    rewrite Hic, His. destruct (Z.eqb_spec count_ 0) as [|_]; [contradiction|].
    reflexivity.
  - reflexivity.
Qed.

End Backend.

(** ** The mesh of four vertices *)

Definition example_mesh : Mesh :=
  mkMesh Meshes.quad [] 0 0 0 false INT_MAX 0 0 0 2 3.

Definition example_world : World := mkWorld (StateCache.lovrGpuInit false) [].

(** ** The usage of a mesh *)

(** [MeshUsage], and [convertMeshUsage], whose result [lovrMeshCreate]
    stores in [mesh->usage]. *)
Inductive MeshUsage := MESH_STATIC | MESH_DYNAMIC | MESH_STREAM.

Definition convertMeshUsage (usage : MeshUsage) : StateCache.GLenum :=
  match usage with
  | MESH_STATIC => StateCache.GL_STATIC_DRAW
  | MESH_DYNAMIC => StateCache.GL_DYNAMIC_DRAW
  | MESH_STREAM => StateCache.GL_STREAM_DRAW
  end.

(** The numbers OpenGL gives the enumerators of buffer usage;
    [mesh->usage] holds no other enumerator. *)
Definition usage_number (e : StateCache.GLenum) : option Z :=
  match e with
  | StateCache.GL_STREAM_DRAW => Some 0x88E0
  | StateCache.GL_STATIC_DRAW => Some 0x88E4
  | StateCache.GL_DYNAMIC_DRAW => Some 0x88E8
  | _ => None
  end.

(** An enumeration declared without initialisers is numbered from 0. *)
Definition MeshUsage_ordinal (usage : MeshUsage) : Z :=
  match usage with MESH_STATIC => 0 | MESH_DYNAMIC => 1 | MESH_STREAM => 2 end.

(** A mesh of four vertices with stream usage, of which vertices 1 and 2
    are dirty. *)
Definition stream_mesh : Mesh :=
  mkMesh (Meshes.mkMesh 4 12 (convertMeshUsage MESH_STREAM) (replicate 48 (Some 0)) 1)
         [] 0 0 0 false 1 3 0 0 2 3.

Section Usage.

(** The numbers of the enumerators of [MeshUsage]: its declaration is
    not among the sources. *)
Variable MeshUsage_number : MeshUsage -> Z.

(** [mesh->usage == MESH_STREAM]: the [GLenum] in [mesh->usage] against
    the enumerator of [MeshUsage]. *)
Definition usage_is_MESH_STREAM (usage : StateCache.GLenum) : bool :=
  match usage_number usage with
  | Some n => n =? MeshUsage_number MESH_STREAM
  | None => false
  end.

(** A usage that [convertMeshUsage] returns never compares equal to
    [MESH_STREAM] when the enumerators of [MeshUsage] have small numbers. *)
Lemma converted_usage_is_not_MESH_STREAM usage :
  0 <= MeshUsage_number MESH_STREAM < 3 ->
  usage_is_MESH_STREAM (convertMeshUsage usage) = false.
Proof.
  intros H. unfold usage_is_MESH_STREAM.
  destruct usage; cbn [convertMeshUsage usage_number]; apply Z.eqb_neq; lia.
Qed.

(** X14. [lovrMeshUnmapVertices] on a mesh with nothing dirty does
    nothing. Otherwise it issues exactly one upload, after at most one
    bind of the vertex buffer (none when the cache has it bound), and
    resets the dirty range. For every usage a mesh is created with, stream
    included, the upload is [glBufferSubData] for the bytes of the vertices
    [dirtyStart .. dirtyEnd - 1]: [mesh->usage] holds what
    [convertMeshUsage] returned, which is not the number of [MESH_STREAM]
    as long as that is the small number of an enumerator counted from 0,
    so the whole store is never uploaded. A second unmap right after it
    does nothing. *)
Theorem lovrMeshUnmapVertices_uploads (usage : MeshUsage) (mesh : Mesh) (w : World) :
  0 <= MeshUsage_number MESH_STREAM < 3 ->
  Meshes.usage (vertices mesh) = convertMeshUsage usage ->
  let r := lovrMeshUnmapVertices usage_is_MESH_STREAM mesh w in
  let stride := Meshes.stride (vertices mesh) in
  let vbo := Meshes.vbo (vertices mesh) in
  let bind :=
    if StateCache.vertexBuffer (StateCache.bindings (cache w)) =? vbo then []
    else [gl (StateCache.glBindBuffer StateCache.GL_ARRAY_BUFFER vbo)] in
  (dirtyEnd mesh = 0 -> r = (mesh, w))
  /\ (dirtyEnd mesh <> 0 ->
      r.1 = set_dirty INT_MAX 0 mesh
      /\ trace r.2
         = trace w ++ bind
           ++ [glBufferSubData StateCache.GL_ARRAY_BUFFER
                 (size_t (dirtyStart mesh * stride))
                 (size_t (uint32 (dirtyEnd mesh - dirtyStart mesh) * stride))
                 (take (Z.to_nat (size_t (uint32 (dirtyEnd mesh - dirtyStart mesh) * stride)))
                       (drop (Z.to_nat (size_t (dirtyStart mesh * stride)))
                             (Meshes.data (vertices mesh))))]
      /\ (0 <= dirtyStart mesh <= dirtyEnd mesh -> dirtyEnd mesh < 2 ^ 32 ->
          0 <= stride -> dirtyEnd mesh * stride < 2 ^ 64 ->
          trace r.2
          = trace w ++ bind
            ++ [glBufferSubData StateCache.GL_ARRAY_BUFFER
                  (dirtyStart mesh * stride)
                  ((dirtyEnd mesh - dirtyStart mesh) * stride)
                  (take (Z.to_nat ((dirtyEnd mesh - dirtyStart mesh) * stride))
                        (drop (Z.to_nat (dirtyStart mesh * stride))
                              (Meshes.data (vertices mesh))))]))
  /\ lovrMeshUnmapVertices usage_is_MESH_STREAM r.1 r.2 = r.
Proof.
  intros Hsmall Husage. cbv zeta.
  pose proof (converted_usage_is_not_MESH_STREAM usage Hsmall) as Hnot.
  rewrite <- Husage in Hnot.
  destruct (lovrMeshUnmapVertices_trace usage_is_MESH_STREAM mesh w)
    as (Hclean & Hdirty & Hagain).
  split; [exact Hclean|]. split; [|exact Hagain].
  intros Hne. destruct (Hdirty Hne) as (Hmesh & _).
  split; [exact Hmesh|].
  assert (Htrace :
    trace (lovrMeshUnmapVertices usage_is_MESH_STREAM mesh w).2
    = trace w
      ++ (if StateCache.vertexBuffer (StateCache.bindings (cache w))
             =? Meshes.vbo (vertices mesh) then []
          else [gl (StateCache.glBindBuffer StateCache.GL_ARRAY_BUFFER
                      (Meshes.vbo (vertices mesh)))])
      ++ [glBufferSubData StateCache.GL_ARRAY_BUFFER
            (size_t (dirtyStart mesh * Meshes.stride (vertices mesh)))
            (size_t (uint32 (dirtyEnd mesh - dirtyStart mesh)
                     * Meshes.stride (vertices mesh)))
            (take (Z.to_nat (size_t (uint32 (dirtyEnd mesh - dirtyStart mesh)
                                     * Meshes.stride (vertices mesh))))
                  (drop (Z.to_nat (size_t (dirtyStart mesh
                                           * Meshes.stride (vertices mesh))))
                        (Meshes.data (vertices mesh))))]).
  { unfold lovrMeshUnmapVertices.
    destruct (Z.eqb_spec (dirtyEnd mesh) 0) as [|_]; [contradiction|].
    rewrite Hnot. cbn [snd issue trace].
    destruct (bind_vertex_buffer w (Meshes.vbo (vertices mesh))) as [-> _].
    rewrite <- app_assoc. reflexivity. }
  split; [exact Htrace|].
  intros Hrange Hend Hstride Hbytes. rewrite Htrace.
  rewrite (uint32_small (dirtyEnd mesh - dirtyStart mesh)) by lia.
  rewrite !ShaderCreate.size_t_small by nia. reflexivity.
Qed.

End Usage.

Lemma lovrMeshUnmapVertices_uploads_witness :
  trace (lovrMeshUnmapVertices (usage_is_MESH_STREAM MeshUsage_ordinal)
           stream_mesh example_world).2
  = [gl (StateCache.glBindBuffer StateCache.GL_ARRAY_BUFFER 1);
     glBufferSubData StateCache.GL_ARRAY_BUFFER 12 24 (replicate 24 (Some 0))].
Proof.
  assert (Hsmall : 0 <= MeshUsage_ordinal MESH_STREAM < 3) by (vm_compute; split; congruence).
  assert (Hdirty : dirtyEnd stream_mesh <> 0) by (vm_compute; congruence).
  assert (Hrange : 0 <= dirtyStart stream_mesh <= dirtyEnd stream_mesh)
    by (vm_compute; split; congruence).
  assert (Hend : dirtyEnd stream_mesh < 2 ^ 32) by (vm_compute; reflexivity).
  assert (Hstride : 0 <= Meshes.stride (vertices stream_mesh)) by (vm_compute; congruence).
  assert (Hbytes : dirtyEnd stream_mesh * Meshes.stride (vertices stream_mesh) < 2 ^ 64)
    by (vm_compute; reflexivity).
  exact (proj2 (proj2 (proj1 (proj2
           (lovrMeshUnmapVertices_uploads MeshUsage_ordinal MESH_STREAM stream_mesh
              example_world Hsmall eq_refl)) Hdirty))
           Hrange Hend Hstride Hbytes).
Defined.

Lemma written_ranges_are_dirty_witness :
  let mesh' := write_ranges [(1, 2); (0, 1)] example_mesh in
  (forall r, r ∈ [(1, 2); (0, 1)] ->
     dirtyStart mesh' <= r.1 /\ r.1 + r.2 <= dirtyEnd mesh')
  /\ dirtyStart mesh' <= dirtyStart example_mesh
  /\ dirtyEnd example_mesh <= dirtyEnd mesh'
  /\ (dirtyStart mesh' = dirtyStart example_mesh
      \/ exists r, r ∈ [(1, 2); (0, 1)] /\ dirtyStart mesh' = r.1)
  /\ (dirtyEnd mesh' = dirtyEnd example_mesh
      \/ exists r, r ∈ [(1, 2); (0, 1)] /\ dirtyEnd mesh' = r.1 + r.2)
  /\ set_dirty (dirtyStart example_mesh) (dirtyEnd example_mesh) mesh' = example_mesh
  /\ (forall start count_ read,
        (lovrMeshMapVertices example_mesh start count_ read false).1 = example_mesh).
Proof.
  apply (written_ranges_are_dirty [(1, 2); (0, 1)] example_mesh).
  repeat constructor; vm_compute; congruence.
Defined.

(** Vertices 0 to 2 were written: the unmap binds the vertex buffer and
    uploads their 36 bytes. *)
Example example_unmap :
  trace (lovrMeshUnmapVertices (usage_is_MESH_STREAM MeshUsage_ordinal)
           (write_ranges [(1, 2); (0, 1)] example_mesh) example_world).2
  = [gl (StateCache.glBindBuffer StateCache.GL_ARRAY_BUFFER 1);
     glBufferSubData StateCache.GL_ARRAY_BUFFER 0 36 (replicate 36 (Some 0))].
Proof. vm_compute. reflexivity. Qed.

Lemma lovrMeshSetDrawRange_checked_witness :
  (exists mesh',
     lovrMeshSetDrawRange example_mesh 1 3 = inl mesh'
     /\ lovrMeshGetDrawRange mesh' = (1, 3)
     /\ set_range (rangeStart example_mesh) (rangeCount example_mesh) mesh' = example_mesh)
  /\ (exists e, lovrMeshSetDrawRange example_mesh 2 3 = inr e)
  /\ lovrMeshSetDrawRange example_mesh 4294967295 2
     = inl (set_range 4294967295 2 example_mesh).
Proof.
  split; [|split].
  - refine (proj1 (lovrMeshSetDrawRange_checked example_mesh 1 3 _ _) _);
      vm_compute; try split; congruence.
  - refine (proj1 (proj2 (lovrMeshSetDrawRange_checked example_mesh 2 3 _ _)) _);
      vm_compute; try split; congruence.
  - refine (proj2 (proj2 (lovrMeshSetDrawRange_checked example_mesh 4294967295 2 _ _))
              _ _); vm_compute; try split; congruence.
Defined.

Lemma written_indices_are_uploaded_once_witness :
  let wr := lovrMeshWriteIndices Meshes.nextPo2 example_mesh 6 2 example_world in
  let rd := lovrMeshReadIndices wr.1.2 wr.2 in
  wr.1.1 = Some (indices wr.1.2)
  /\ mappedIndices wr.1.2 = true
  /\ rd.1.1 = mkIndexRead 6 2 (Some (indices wr.1.2))
  /\ trace rd.2
     = trace wr.2
       ++ [glBufferSubData StateCache.GL_ELEMENT_ARRAY_BUFFER 0 (size_t (6 * 2))
             (take (Z.to_nat (size_t (6 * 2))) (indices wr.1.2))]
  /\ rd.1.2 = set_mappedIndices false wr.1.2
  /\ lovrMeshReadIndices rd.1.2 rd.2 = rd
  /\ lovrMeshUnmapIndices rd.1.2 rd.2 = (rd.1.2, rd.2).
Proof.
  apply (written_indices_are_uploaded_once Meshes.nextPo2 example_mesh 6 2 example_world).
  discriminate.
Defined.

(** Six 16-bit indices: the write binds the vertex array and the index
    buffer and allocates 16 bytes; the read uploads the 12 bytes. *)
Example example_indices :
  let wr := lovrMeshWriteIndices Meshes.nextPo2 example_mesh 6 2 example_world in
  trace (lovrMeshReadIndices wr.1.2 wr.2).2
  = [gl (StateCache.glBindVertexArray 2);
     gl (StateCache.glBindBuffer StateCache.GL_ELEMENT_ARRAY_BUFFER 3);
     gl (StateCache.glBufferData StateCache.GL_ELEMENT_ARRAY_BUFFER 16 None
           StateCache.GL_STATIC_DRAW);
     glBufferSubData StateCache.GL_ELEMENT_ARRAY_BUFFER 0 12 (replicate 12 None)].
Proof. vm_compute. reflexivity. Qed.

End MeshBuffers.

(** * Meshes: attached attributes

    [lovrMeshAttachAttribute], [lovrMeshDetachAttribute],
    [lovrMeshIsAttributeEnabled] and [lovrMeshSetAttributeEnabled]. Meshes
    live in a store; a [Mesh * ] is the index of its mesh. *)

Module MeshAttachments.
Local Open Scope Z_scope.

(** [MeshAttachment] *)
Record MeshAttachment := mkMeshAttachment {
  mesh : nat;
  attributeIndex : Z;
  divisor : Z;
  enabled : bool
}.

(** The fields of [struct Mesh] these functions read and write. *)
Record Mesh := mkMesh {
  attachments : gmap string MeshAttachment;
  isAttachment : bool
}.

(** [lovrRetain] and [lovrRelease] are not part of the sources: the
    calls are recorded. *)
Inductive ref_call := lovrRetain (object : nat) | lovrRelease (object : nat).

Record Store := mkStore {
  meshes : list Mesh;
  ref_calls : list ref_call
}.

(** What [lovrAssert] throws in these functions. *)
Inductive thrown :=
| AttachToAttachment
| NoAttribute (name : string)
| AlreadyHasAttribute (name : string)
| NegativeDivisor
| NoAttachedAttribute (name : string)
| NotAttachedFromAnotherMesh (name : string)
| NoSuchAttribute (name : string).

(** [lovrMeshAttachAttribute(mesh, other, name, divisor)]. A pointer
    that is not in the store is undefined in C; the model leaves the store
    as it is. *)
Definition lovrMeshAttachAttribute (m other : nat) (name : string) (divisor_ : Z)
  (s : Store) : Store + thrown :=
  match meshes s !! m, meshes s !! other with
  | Some this, Some that =>
    let otherAttachment := attachments that !! name in
    if isAttachment this then inr AttachToAttachment
    else
      match otherAttachment with
      | None => inr (NoAttribute name)
      | Some otherAttachment =>
        match attachments this !! name with
        | Some _ => inr (AlreadyHasAttribute name)
        | None =>
          if negb (0 <=? divisor_) then inr NegativeDivisor
          else
            let attachment :=
              mkMeshAttachment other (attributeIndex otherAttachment) divisor_ true in
            let ms :=
              <[m := mkMesh (<[name := attachment]> (attachments this))
                            (isAttachment this)]> (meshes s) in
            let ms := alter (fun o => mkMesh (attachments o) true) other ms in
            inl (mkStore ms (ref_calls s ++ [lovrRetain other]))
        end
      end
  | _, _ => inl s
  end.

(** [lovrMeshDetachAttribute(mesh, name)] *)
Definition lovrMeshDetachAttribute (m : nat) (name : string) (s : Store)
  : Store + thrown :=
  match meshes s !! m with
  | Some this =>
    match attachments this !! name with
    | None => inr (NoAttachedAttribute name)
    | Some attachment =>
      if bool_decide (mesh attachment = m) then inr (NotAttachedFromAnotherMesh name)
      else
        inl (mkStore
               (<[m := mkMesh (delete name (attachments this)) (isAttachment this)]>
                  (meshes s))
               (ref_calls s ++ [lovrRelease (mesh attachment)]))
    end
  | None => inl s
  end.

(** [lovrMeshIsAttributeEnabled(mesh, name)] *)
Definition lovrMeshIsAttributeEnabled (this : Mesh) (name : string) : bool + thrown :=
  match attachments this !! name with
  | None => inr (NoSuchAttribute name)
  | Some attachment => inl (enabled attachment)
  end.

(** [lovrMeshSetAttributeEnabled(mesh, name, enable)] *)
Definition lovrMeshSetAttributeEnabled (this : Mesh) (name : string) (enable : bool)
  : Mesh + thrown :=
  match attachments this !! name with
  | None => inr (NoSuchAttribute name)
  | Some attachment =>
    inl (mkMesh (<[name := mkMeshAttachment (mesh attachment) (attributeIndex attachment)
                             (divisor attachment) enable]> (attachments this))
                (isAttachment this))
  end.

(** A mesh with positions and normals of its own (mesh 0), and a mesh
    with per-instance offsets (mesh 1). *)
Definition example_store : Store :=
  mkStore
    [mkMesh {[ "lovrPosition"%string := mkMeshAttachment 0 0 0 true;
               "lovrNormal"%string := mkMeshAttachment 0 1 0 true ]} false;
     mkMesh {[ "offset"%string := mkMeshAttachment 1 0 0 true ]} false]
    [].

(** ** Attaching *)

(** What a successful attach did. *)
Lemma attach_inversion m other name divisor_ s s1 this that :
  meshes s !! m = Some this -> meshes s !! other = Some that ->
  lovrMeshAttachAttribute m other name divisor_ s = inl s1 ->
  isAttachment this = false /\ attachments this !! name = None /\ 0 <= divisor_
  /\ m <> other
  /\ exists theirs,
       attachments that !! name = Some theirs
       /\ s1 = mkStore
                 (alter (fun o => mkMesh (attachments o) true) other
                    (<[m := mkMesh (<[name := mkMeshAttachment other
                                                (attributeIndex theirs) divisor_ true]>
                                      (attachments this)) false]> (meshes s)))
                 (ref_calls s ++ [lovrRetain other]).
Proof.
  intros Hm Ho. unfold lovrMeshAttachAttribute. rewrite Hm, Ho.
  destruct (isAttachment this) eqn:Hia; [discriminate|].
  destruct (attachments that !! name) as [theirs|] eqn:Hthat; [|discriminate].
  destruct (attachments this !! name) as [mine|] eqn:Hthis; [discriminate|].
  destruct (Z.leb_spec 0 divisor_) as [Hd|Hd]; cbn [negb]; [|discriminate].
  intros H. injection H as <-.
  split; [reflexivity|]. split; [reflexivity|]. split; [exact Hd|]. split.
  - intros ->. rewrite Hm in Ho. injection Ho as <-. congruence.
  - exists theirs. split; reflexivity.
Qed.

Lemma attach_lookups m other name divisor_ (s : Store) this that theirs :
  meshes s !! m = Some this -> meshes s !! other = Some that -> m <> other ->
  let ms := alter (fun o => mkMesh (attachments o) true) other
              (<[m := mkMesh (<[name := mkMeshAttachment other (attributeIndex theirs)
                                          divisor_ true]> (attachments this)) false]>
                 (meshes s)) in
  ms !! m = Some (mkMesh (<[name := mkMeshAttachment other (attributeIndex theirs)
                                      divisor_ true]> (attachments this)) false)
  /\ ms !! other = Some (mkMesh (attachments that) true)
  /\ forall k, k <> m -> k <> other -> ms !! k = meshes s !! k.
Proof.
  intros Hm Ho Hne ms. subst ms.
  assert (Hlt : (m < length (meshes s))%nat) by (eapply lookup_lt_Some; eassumption).
  split; [|split].
  - rewrite list_lookup_alter_ne by congruence.
    rewrite list_lookup_insert_eq by assumption. reflexivity.
  - rewrite list_lookup_alter_eq, list_lookup_insert_ne by assumption.
    rewrite Ho. reflexivity.
  - intros k Hk1 Hk2. rewrite list_lookup_alter_ne by congruence.
    apply list_lookup_insert_ne. congruence.
Qed.

(** X17. [lovrMeshAttachAttribute] succeeds exactly when the receiving
    mesh is not itself an attachment, the other mesh has the attribute,
    the receiving mesh has no attribute of that name, and the divisor is
    not negative; it then adds that one attribute (enabled, with the other
    mesh's attribute index), marks the other mesh as an attachment and
    retains it. In particular a mesh cannot attach an attribute from
    itself. *)
Theorem lovrMeshAttachAttribute_checked (m other : nat) (name : string) (divisor_ : Z)
  (s : Store) (this that : Mesh) :
  meshes s !! m = Some this -> meshes s !! other = Some that ->
  let r := lovrMeshAttachAttribute m other name divisor_ s in
  ((exists s', r = inl s')
   <-> isAttachment this = false /\ is_Some (attachments that !! name)
       /\ attachments this !! name = None /\ 0 <= divisor_)
  /\ (forall s', r = inl s' ->
        m <> other
        /\ (exists theirs,
              attachments that !! name = Some theirs
              /\ meshes s' !! m
                 = Some (mkMesh (<[name := mkMeshAttachment other (attributeIndex theirs)
                                             divisor_ true]> (attachments this))
                                false))
        /\ meshes s' !! other = Some (mkMesh (attachments that) true)
        /\ (forall k, k <> m -> k <> other -> meshes s' !! k = meshes s !! k)
        /\ ref_calls s' = ref_calls s ++ [lovrRetain other]).
Proof.
  intros Hm Ho r. split.
  - split.
    + intros [s' Hs'].
      destruct (attach_inversion m other name divisor_ s s' this that Hm Ho Hs')
        as (Hia & Hfree & Hd & _ & theirs & Htheirs & _).
      split; [exact Hia|]. split; [eauto|]. split; assumption.
    + intros (Hia & [theirs Htheirs] & Hfree & Hd). subst r.
      unfold lovrMeshAttachAttribute. rewrite Hm, Ho, Hia, Htheirs, Hfree.
      destruct (Z.leb_spec 0 divisor_); [|lia]. cbn [negb]. eauto.
  - intros s' Hs'.
    destruct (attach_inversion m other name divisor_ s s' this that Hm Ho Hs')
      as (_ & _ & _ & Hne & theirs & Htheirs & ->).
    destruct (attach_lookups m other name divisor_ s this that theirs Hm Ho Hne)
      as (H1 & H2 & H3).
    split; [exact Hne|]. split; [exists theirs; split; [exact Htheirs|exact H1]|].
    split; [exact H2|]. split; [exact H3|reflexivity].
Qed.

(** ** Attaching and detaching again *)

(** X18. An attribute that was attached can be detached again: the
    receiving mesh is then as it was before, and the one retain is
    answered by one release. The other mesh stays marked as an attachment,
    so it cannot receive attributes afterwards. *)
Theorem attach_then_detach (m other : nat) (name : string) (divisor_ : Z)
  (s s1 : Store) :
  is_Some (meshes s !! m) -> is_Some (meshes s !! other) ->
  lovrMeshAttachAttribute m other name divisor_ s = inl s1 ->
  exists s2,
    lovrMeshDetachAttribute m name s1 = inl s2
    /\ meshes s2 !! m = meshes s !! m
    /\ isAttachment <$> meshes s2 !! other = Some true
    /\ attachments <$> meshes s2 !! other = attachments <$> meshes s !! other
    /\ (forall k, k <> other -> meshes s2 !! k = meshes s !! k)
    /\ ref_calls s2 = ref_calls s ++ [lovrRetain other; lovrRelease other]
    /\ (forall name' divisor',
          lovrMeshAttachAttribute other m name' divisor' s2 = inr AttachToAttachment).
Proof.
  intros [this Hm] [that Ho] Hattach.
  destruct (attach_inversion m other name divisor_ s s1 this that Hm Ho Hattach)
    as (Hia & Hfree & _ & Hne & theirs & Htheirs & Hs1).
  destruct (attach_lookups m other name divisor_ s this that theirs Hm Ho Hne)
    as (Hm1 & Ho1 & Hrest).
  assert (Hrefs : ref_calls s1 = ref_calls s ++ [lovrRetain other])
    by (rewrite Hs1; reflexivity).
  replace (alter (fun o => mkMesh (attachments o) true) other
             (<[m := mkMesh (<[name := mkMeshAttachment other (attributeIndex theirs)
                                         divisor_ true]> (attachments this)) false]>
                (meshes s))) with (meshes s1) in Hm1, Ho1, Hrest
    by (rewrite Hs1; reflexivity).
  assert (Hlt : (m < length (meshes s1))%nat) by (eapply lookup_lt_Some; eassumption).
  unfold lovrMeshDetachAttribute. rewrite Hm1. cbn [attachments isAttachment].
  rewrite lookup_insert_eq. cbn [mesh].
  rewrite bool_decide_eq_false_2 by congruence.
  eexists. split; [reflexivity|]. cbn [meshes ref_calls].
  assert (Hback : meshes (mkStore
                    (<[m := mkMesh (delete name
                                      (<[name := mkMeshAttachment other
                                                   (attributeIndex theirs) divisor_ true]>
                                         (attachments this))) false]> (meshes s1))
                    (ref_calls s1 ++ [lovrRelease other])) !! m = Some this).
  { cbn [meshes]. rewrite list_lookup_insert_eq by assumption.
    rewrite delete_insert_eq, delete_id by assumption.
    destruct this. cbn in *. subst. reflexivity. }
  cbn [meshes] in Hback.
  split; [rewrite Hback, Hm; reflexivity|].
  split; [rewrite list_lookup_insert_ne, Ho1 by assumption; reflexivity|].
  split; [rewrite list_lookup_insert_ne, Ho1, Ho by assumption; reflexivity|].
  split.
  { intros k Hk. destruct (decide (k = m)) as [->|Hkm].
    - rewrite Hback, Hm. reflexivity.
    - rewrite list_lookup_insert_ne by congruence. apply Hrest; assumption. }
  split; [rewrite Hrefs, <- app_assoc; reflexivity|].
  intros name' divisor'. unfold lovrMeshAttachAttribute. cbn [meshes].
  rewrite (list_lookup_insert_ne (meshes s1) m other) by assumption.
  rewrite Ho1, Hback. reflexivity.
Qed.

(** ** Enabling and disabling *)

(** X19. [lovrMeshSetAttributeEnabled] followed by
    [lovrMeshIsAttributeEnabled] returns the flag that was set; the other
    attributes keep their flags, and the attribute keeps its mesh, index
    and divisor. Both throw for a name the mesh has no attribute for. *)
Theorem attribute_enabled_round_trip (this : Mesh) (name : string) (enable : bool) :
  (attachments this !! name = None ->
   lovrMeshSetAttributeEnabled this name enable = inr (NoSuchAttribute name)
   /\ lovrMeshIsAttributeEnabled this name = inr (NoSuchAttribute name))
  /\ (forall a, attachments this !! name = Some a ->
        exists this',
          lovrMeshSetAttributeEnabled this name enable = inl this'
          /\ lovrMeshIsAttributeEnabled this' name = inl enable
          /\ attachments this' !! name
             = Some (mkMeshAttachment (mesh a) (attributeIndex a) (divisor a) enable)
          /\ (forall other, other <> name ->
                attachments this' !! other = attachments this !! other)
          /\ isAttachment this' = isAttachment this
          /\ lovrMeshSetAttributeEnabled this' name enable = inl this').
Proof.
  unfold lovrMeshSetAttributeEnabled, lovrMeshIsAttributeEnabled. split.
  - intros ->. split; reflexivity.
  - intros a ->. eexists. split; [reflexivity|]. cbn [attachments isAttachment].
    rewrite lookup_insert_eq. cbn [enabled mesh attributeIndex divisor].
    split; [reflexivity|]. split; [reflexivity|].
    split; [intros other Hne; apply lookup_insert_ne; congruence|].
    split; [reflexivity|]. rewrite insert_insert_eq. reflexivity.
Qed.

(** ** The two example meshes *)

Lemma lovrMeshAttachAttribute_checked_witness :
  exists s',
    lovrMeshAttachAttribute 0 1 "offset" 1 example_store = inl s'
    /\ meshes s' !! 1%nat
       = Some (mkMesh {[ "offset"%string := mkMeshAttachment 1 0 0 true ]} true)
    /\ ref_calls s' = [lovrRetain 1].
Proof.
  destruct (lovrMeshAttachAttribute_checked 0 1 "offset" 1 example_store _ _
              eq_refl eq_refl) as [Hiff Hpost].
  destruct (proj2 Hiff) as [s' Hs'].
  { split; [reflexivity|]. split; [eexists; reflexivity|]. split; [reflexivity|lia]. }
  exists s'. split; [exact Hs'|].
  destruct (Hpost s' Hs') as (_ & _ & Ho & _ & Hrefs). split; [exact Ho|exact Hrefs].
Defined.

Lemma attach_then_detach_witness :
  exists s1 s2,
    lovrMeshAttachAttribute 0 1 "offset" 1 example_store = inl s1
    /\ lovrMeshDetachAttribute 0 "offset" s1 = inl s2
    /\ meshes s2 !! 0%nat = meshes example_store !! 0%nat
    /\ ref_calls s2 = [lovrRetain 1; lovrRelease 1]
    /\ lovrMeshAttachAttribute 1 0 "lovrNormal" 0 s2 = inr AttachToAttachment.
Proof.
  eexists. 
  destruct (attach_then_detach 0 1 "offset" 1 example_store _
              ltac:(eexists; reflexivity) ltac:(eexists; reflexivity) eq_refl)
    as (s2 & Hd & Hm & _ & _ & _ & Hrefs & Hno).
  exists s2. split; [reflexivity|]. split; [exact Hd|]. split; [exact Hm|].
  split; [exact Hrefs|]. apply Hno.
Defined.

End MeshAttachments.

(** * The window of the gpu-based graphics module

    [lovrGraphicsInit], [lovrGraphicsDestroy], [lovrGraphicsCreateWindow],
    [lovrGraphicsGetWidth] and [lovrGraphicsGetHeight]. The window system
    and the gpu layer are outside the sources: their calls are recorded
    and their answers are parameters. *)

Module Graphics.
Local Open Scope Z_scope.

(** The fields of [os_window_config] the module touches. *)
Record os_window_config := mkWindow { window_debug : bool; vsync : bool }.

(** Calls to the window system and to the gpu layer. *)
Inductive call :=
| os_window_open (window : os_window_config)
| os_window_set_vsync (interval : bool)
| os_on_quit
| os_on_resize
| os_window_get_fbsize
| gpu_init (debug_ vk_vsync : bool)
| gpu_thread_attach
| gpu_thread_detach
| gpu_destroy.

Inductive thrown :=
| WindowAlreadyCreated
| CouldNotCreateWindow
| CouldNotInitializeGpu.

Section Window.

(** [gpu_features] and [gpu_limits], with their all-zero values. *)
Variables Features Limits : Type.
Variable zero_features : Features.
Variable zero_limits : Limits.

Variable GPU_ACCESS_COUNT : nat.

(** The static [state]. *)
Record State := mkState {
  initialized : bool;
  debug : bool;
  features : Features;
  limits : Limits;
  width : Z;
  height : Z;
  sync : list (list nat);
  calls : list call
}.

(** What the outside answers during [lovrGraphicsCreateWindow]: the
    results of [os_window_open] and [gpu_init], the framebuffer size, and
    what [gpu_init] writes through [config.features] and
    [config.limits]. *)
Record Answers := mkAnswers {
  window_opens : bool;
  fbsize : Z * Z;
  gpu_starts : bool;
  gpu_features : Features;
  gpu_limits : Limits
}.

Definition call_ (c : call) (s : State) : State :=
  mkState (initialized s) (debug s) (features s) (limits s) (width s) (height s)
          (sync s) (calls s ++ [c]).

(** Static storage: all zero. *)
Definition zero_state (cs : list call) : State :=
  mkState false false zero_features zero_limits 0 0 (replicate GPU_ACCESS_COUNT []) cs.

(** [lovrGraphicsInit]: it returns [false]. *)
Definition lovrGraphicsInit (debug_ : bool) (s : State) : bool * State :=
  (false,
   mkState (initialized s) debug_ (features s) (limits s) (width s) (height s)
           (sync s) (calls s)).

(** [lovrGraphicsDestroy]: the lists are freed and [state] is zeroed. *)
Definition lovrGraphicsDestroy (s : State) : State :=
  if negb (initialized s) then s
  else zero_state (calls s ++ [gpu_thread_detach; gpu_destroy]).

(** [lovrGraphicsCreateWindow(window)]: the window as the caller finds
    it afterwards, the state, and what was thrown, if anything. *)
Definition lovrGraphicsCreateWindow (a : Answers) (window : os_window_config)
  (s : State) : os_window_config * State * option thrown :=
  let window := mkWindow (debug s) (vsync window) in
  if initialized s then (window, s, Some WindowAlreadyCreated)
  else
    let s := call_ (os_window_open window) s in
    if negb (window_opens a) then (window, s, Some CouldNotCreateWindow)
    else
      let s := call_ os_window_get_fbsize
                 (call_ os_on_resize
                    (call_ os_on_quit (call_ (os_window_set_vsync (vsync window)) s))) in
      let s := mkState (initialized s) (debug s) (features s) (limits s)
                       (fbsize a).1 (fbsize a).2 (sync s) (calls s) in
      let s := call_ (gpu_init (debug s) (vsync window)) s in
      let s := mkState (initialized s) (debug s) (gpu_features a) (gpu_limits a)
                       (width s) (height s) (sync s) (calls s) in
      if negb (gpu_starts a) then (window, s, Some CouldNotInitializeGpu)
      else
        let s := call_ gpu_thread_attach s in
        (window,
         mkState true (debug s) (features s) (limits s) (width s) (height s)
                 (replicate GPU_ACCESS_COUNT []) (calls s),
         None).

(** [lovrGraphicsGetWidth], [lovrGraphicsGetHeight]: [uint32_t] from
    [int]. *)
Definition lovrGraphicsGetWidth (s : State) : Z := width s mod 2 ^ 32.
Definition lovrGraphicsGetHeight (s : State) : Z := height s mod 2 ^ 32.

(** X20. The life of the window. Where no window exists,
    [lovrGraphicsDestroy] does nothing and [lovrGraphicsCreateWindow]
    (the window opening and the gpu starting) creates one: the state is
    initialised with the framebuffer size, the window is given the debug
    flag of the state, and the tracking lists are empty. A second create
    then throws before it calls anything and leaves the state as it is. A
    destroy detaches and destroys the gpu and zeroes the whole state, the
    debug flag included, and is idempotent; after it a window can be
    created again, and is created without the debug flag. *)
Theorem window_lifecycle (a a' : Answers) (window window' : os_window_config)
  (s : State) :
  initialized s = false ->
  window_opens a = true -> gpu_starts a = true ->
  window_opens a' = true -> gpu_starts a' = true ->
  let r := lovrGraphicsCreateWindow a window s in
  let s1 := r.1.2 in
  let s2 := lovrGraphicsDestroy s1 in
  lovrGraphicsDestroy s = s
  /\ r.2 = None
  /\ r.1.1 = mkWindow (debug s) (vsync window)
  /\ initialized s1 = true
  /\ (width s1, height s1) = fbsize a
  /\ sync s1 = replicate GPU_ACCESS_COUNT []
  /\ calls s1
     = calls s ++ [os_window_open (mkWindow (debug s) (vsync window));
                   os_window_set_vsync (vsync window); os_on_quit; os_on_resize;
                   os_window_get_fbsize; gpu_init (debug s) (vsync window);
                   gpu_thread_attach]
  /\ lovrGraphicsCreateWindow a' window' s1
     = (mkWindow (debug s) (vsync window'), s1, Some WindowAlreadyCreated)
  /\ s2 = zero_state (calls s1 ++ [gpu_thread_detach; gpu_destroy])
  /\ lovrGraphicsDestroy s2 = s2
  /\ (lovrGraphicsGetWidth s2, lovrGraphicsGetHeight s2) = (0, 0)
  /\ (lovrGraphicsCreateWindow a' window' s2).2 = None
  /\ (lovrGraphicsCreateWindow a' window' s2).1.1 = mkWindow false (vsync window').
Proof.
  intros Hs Ho Hg Ho' Hg'. cbv zeta.
  set (s1 := mkState true (debug s) (gpu_features a) (gpu_limits a)
               (fbsize a).1 (fbsize a).2 (replicate GPU_ACCESS_COUNT [])
               (calls s ++ [os_window_open (mkWindow (debug s) (vsync window));
                            os_window_set_vsync (vsync window); os_on_quit;
                            os_on_resize; os_window_get_fbsize;
                            gpu_init (debug s) (vsync window); gpu_thread_attach])).
  assert (Hr : lovrGraphicsCreateWindow a window s
               = (mkWindow (debug s) (vsync window), s1, None)).
  { unfold lovrGraphicsCreateWindow. rewrite Hs, Ho, Hg.
    cbn [negb initialized width height sync calls call_ debug features limits vsync].
    subst s1. rewrite <- !app_assoc. reflexivity. }
  rewrite Hr. cbn [fst snd].
  assert (Hd : lovrGraphicsDestroy s1
               = zero_state (calls s1 ++ [gpu_thread_detach; gpu_destroy]))
    by reflexivity.
  rewrite Hd.
  split; [unfold lovrGraphicsDestroy; rewrite Hs; reflexivity|].
  split; [reflexivity|]. split; [reflexivity|]. split; [reflexivity|].
  split; [destruct (fbsize a); reflexivity|].
  split; [reflexivity|]. split; [reflexivity|].
  split; [reflexivity|]. split; [reflexivity|].
  split; [reflexivity|]. split; [reflexivity|].
  unfold lovrGraphicsCreateWindow, zero_state. cbn [initialized]. rewrite Ho', Hg'.
  split; reflexivity.
Qed.

End Window.

(** ** A window of 800 by 600 *)

Definition example_answers : Answers unit unit := mkAnswers unit unit true (800, 600) true tt tt.

Lemma window_lifecycle_witness :
  let window := mkWindow false true in
  let s := (lovrGraphicsInit unit unit true (zero_state unit unit tt tt 13 [])).2 in
  let r := lovrGraphicsCreateWindow unit unit 13 example_answers window s in
  let s2 := lovrGraphicsDestroy unit unit tt tt 13 r.1.2 in
  r.1.1 = mkWindow true true
  /\ (width unit unit r.1.2, height unit unit r.1.2) = (800, 600)
  /\ lovrGraphicsCreateWindow unit unit 13 example_answers window r.1.2
     = (mkWindow true true, r.1.2, Some WindowAlreadyCreated)
  /\ (lovrGraphicsCreateWindow unit unit 13 example_answers window s2).1.1
     = mkWindow false true.
Proof.
  pose proof (window_lifecycle unit unit tt tt 13 example_answers example_answers
                (mkWindow false true) (mkWindow false true)
                (lovrGraphicsInit unit unit true (zero_state unit unit tt tt 13 [])).2
                eq_refl eq_refl eq_refl eq_refl eq_refl) as H.
  cbv zeta in H.
  destruct H as (_ & _ & Hw & _ & Hsize & _ & _ & Hagain & _ & _ & _ & _ & Hdebug).
  cbv zeta. split; [exact Hw|]. split; [exact Hsize|]. split; [exact Hagain|exact Hdebug].
Defined.

End Graphics.

(** * Usage flags of the gpu-based graphics module

    The loop of [lovrBufferCreate] and of [lovrTextureCreate] that
    translates the usage bits of the descriptor into the usage flags of
    the gpu layer. The tables ([gpuBufferUsage], [gpuTextureUsages]) hold
    enumerators of [core/gpu.h], so the table is a parameter. *)

Module UsageFlags.
Import Bits.
Local Open Scope Z_scope.

Section Table.

(** The table, entry by entry. *)
Variable table : list Z.

(** One iteration: [if (info->usage & (1 << i)) usage |= table[i]]. *)
Definition usage_step (info_usage : Z) (usage : Z) (i : nat) : Z :=
  if negb (Z.land info_usage (bit i) =? 0)
  then Z.lor usage (default 0 (table !! i))
  else usage.

(** The loop over the [n] first entries, from [usage]. *)
Definition usage_loop (info_usage : Z) (usage : Z) (n : nat) : Z :=
  foldl (usage_step info_usage) usage (seq 0 n).

(** [uint32_t usage = 0; for (i = 0; i < sizeof(table) / sizeof(table[0]); i++) ...] *)
Definition gpu_usage (info_usage : Z) : Z := usage_loop info_usage 0 (length table).

Lemma usage_step_test info_usage usage i :
  usage_step info_usage usage i
  = if Z.testbit info_usage (Z.of_nat i)
    then Z.lor usage (default 0 (table !! i)) else usage.
Proof.
  unfold usage_step. rewrite land_bit.
  destruct (Z.testbit info_usage (Z.of_nat i)); [|reflexivity].
  destruct (Z.eqb_spec (bit i) 0) as [H0|_]; [|reflexivity].
  pose proof (bit_pos i). lia.
Qed.

Lemma usage_loop_S info_usage usage n :
  usage_loop info_usage usage (S n)
  = usage_step info_usage (usage_loop info_usage usage n) n.
Proof. unfold usage_loop. rewrite seq_S, foldl_app. reflexivity. Qed.

Lemma usage_loop_lor a b ua ub n :
  usage_loop (Z.lor a b) (Z.lor ua ub) n
  = Z.lor (usage_loop a ua n) (usage_loop b ub n).
Proof.
  induction n as [|n IH]; [reflexivity|].
  rewrite !usage_loop_S, IH, !usage_step_test, Z.lor_spec.
  set (x := usage_loop a ua n). set (y := usage_loop b ub n).
  set (t := default 0 (table !! n)).
  destruct (Z.testbit a (Z.of_nat n)), (Z.testbit b (Z.of_nat n)); cbn [orb].
  - rewrite (Z.lor_comm y t), Z.lor_assoc, <- (Z.lor_assoc x t t), Z.lor_diag.
    rewrite <- !Z.lor_assoc. f_equal. apply Z.lor_comm.
  - rewrite <- !Z.lor_assoc. f_equal. apply Z.lor_comm.
  - rewrite Z.lor_assoc. reflexivity.
  - reflexivity.
Qed.

Lemma usage_loop_ext a b usage n :
  (forall i, (i < n)%nat -> Z.testbit a (Z.of_nat i) = Z.testbit b (Z.of_nat i)) ->
  usage_loop a usage n = usage_loop b usage n.
Proof.
  induction n as [|n IH]; intros H; [reflexivity|].
  rewrite !usage_loop_S, IH, !usage_step_test, H by (intros; try apply H; lia).
  reflexivity.
Qed.

(** X21. The translation of usage flags distributes over the union of
    flags, maps no flag to no usage, and ignores every bit from the
    length of the table upwards. *)
Theorem gpu_usage_union (a b : Z) :
  gpu_usage (Z.lor a b) = Z.lor (gpu_usage a) (gpu_usage b)
  /\ gpu_usage 0 = 0
  /\ (forall c,
        (forall i, (i < length table)%nat ->
                   Z.testbit a (Z.of_nat i) = Z.testbit c (Z.of_nat i)) ->
        gpu_usage a = gpu_usage c)
  /\ (forall i t, table !! i = Some t -> gpu_usage (bit i) = t).
Proof.
  split; [|split; [|split]].
  - unfold gpu_usage. rewrite <- usage_loop_lor. reflexivity.
  - unfold gpu_usage. induction (length table) as [|n IH]; [reflexivity|].
    rewrite usage_loop_S, IH, usage_step_test, Z.bits_0. reflexivity.
  - intros c H. apply usage_loop_ext. exact H.
  - intros i t Ht. unfold gpu_usage.
    assert (Hgen : forall n,
              usage_loop (bit i) 0 n = if bool_decide (i < n)%nat then t else 0).
    { induction n as [|n IH]; [reflexivity|].
      rewrite usage_loop_S, IH, usage_step_test, testbit_bit by lia.
      destruct (Z.eqb_spec (Z.of_nat i) (Z.of_nat n)) as [He|Hne].
      - apply Nat2Z.inj in He. subst n. rewrite Ht. cbn [default].
        rewrite bool_decide_eq_false_2 by lia.
        rewrite bool_decide_eq_true_2 by lia. reflexivity.
      - case_bool_decide.
        + rewrite bool_decide_eq_true_2 by lia. reflexivity.
        + rewrite bool_decide_eq_false_2 by lia. reflexivity. }
    rewrite Hgen. rewrite bool_decide_eq_true_2; [reflexivity|].
    eapply lookup_lt_Some. exact Ht.
Qed.

End Table.

(** A table of three usages. *)
Example example_usage :
  gpu_usage [1; 2; 8] 5 = 9 /\ gpu_usage [1; 2; 8] 13 = 9.
Proof. vm_compute. split; reflexivity. Qed.

End UsageFlags.
